(** * Interaction engines of the UI widgets: a shallow embedding

    The development follows the TypeScript sources under
    [src/components/ui]: the command palette ([Command], [CommandItem],
    [CommandEmpty]), the scrollbar ([ScrollBar]), and the three floating
    overlays ([Tooltip], [DropdownMenu], [HoverCard]).

    Conventions of the embedding.
    - JavaScript strings are [string]s of 8-bit characters. On text made
      of ASCII characters ([Js.isAscii]) [Js.toLowerCase] is
      [String.prototype.toLowerCase]; facts that compose lower-casing
      with concatenation are stated for such text only.
    - JavaScript numbers that carry pixel or scroll measurements are exact
      rationals [Q]; list indices are integers [Z]. A quotient stands for
      the JavaScript one only where its divisor is not zero, and the
      statements about quotients carry that condition.
    - React state is a record; an event handler is a function from state
      to state, taken after the effects that the handler's state change
      triggers have run.
    - [setTimeout]/[clearTimeout] act on an explicit queue of pending
      timers with a clock. *)

From Stdlib Require Import Bool List String Ascii ZArith QArith Qminmax Lia Lqa.
Import ListNotations.

Local Open Scope string_scope.
Local Open Scope Z_scope.

(** ** JavaScript string and array primitives used by the sources *)

Module Js.

(** [c.toLowerCase()] on one character: the letters A..Z move to a..z. *)
Definition lower_ascii (c : ascii) : ascii :=
  let n := N_of_ascii c in
  if ((65 <=? n) && (n <=? 90))%N then ascii_of_N (n + 32) else c.

(** [s.toLowerCase()]. *)
Fixpoint toLowerCase (s : string) : string :=
  match s with
  | EmptyString => EmptyString
  | String c s' => String (lower_ascii c) (toLowerCase s')
  end.

(** Every character of [s] is an ASCII character (below 128): the text on
    which [toLowerCase] above and the JavaScript method coincide. *)
Fixpoint isAscii (s : string) : bool :=
  match s with
  | EmptyString => true
  | String c s' => (N_of_ascii c <? 128)%N && isAscii s'
  end.

(** [s.includes(sub)]: [sub] occurs in [s] at some position. *)
Fixpoint includes (s sub : string) : bool :=
  if String.prefix sub s then true
  else match s with
       | EmptyString => false
       | String _ s' => includes s' sub
       end.

(** [parts.join(sep)]. *)
Definition join (sep : string) (parts : list string) : string :=
  String.concat sep parts.

(** Truthiness of a string: the empty string is falsy. *)
Definition truthy_string (s : string) : bool :=
  negb (String.length s =? 0)%nat.

(** [arr[i]] for an integer [i]: [undefined] outside the array. *)
Definition array_get {A} (arr : list A) (i : Z) : option A :=
  if i <? 0 then None else nth_error arr (Z.to_nat i).

(** [arr[i] = x] on an array with holes: a write past the end extends the
    array with holes; a negative [i] sets a non-index property and leaves
    the elements alone. *)
Fixpoint array_set_nat {A} (arr : list (option A)) (i : nat) (x : A)
  : list (option A) :=
  match i, arr with
  | O, [] => [Some x]
  | O, _ :: rest => Some x :: rest
  | S i', [] => None :: array_set_nat [] i' x
  | S i', y :: rest => y :: array_set_nat rest i' x
  end.

Definition array_set {A} (arr : list (option A)) (i : Z) (x : A)
  : list (option A) :=
  if i <? 0 then arr else array_set_nat arr (Z.to_nat i) x.

(** The element at [i] when there is one: a hole and an index outside the
    array both read as [undefined]. *)
Definition array_item {A} (arr : list (option A)) (i : Z) : option A :=
  match array_get arr i with
  | Some (Some x) => Some x
  | _ => None
  end.

(** The values of [e.key] that the handlers distinguish; [Space] is the
    key whose [e.key] is a single blank. *)
Inductive Key : Type :=
| ArrowDown | ArrowUp | Enter | Home | End_ | Escape | Space | OtherKey.

End Js.

(** ** Command palette ([Command], [CommandItem], [CommandEmpty]) *)

Module Command.

(** The part of [React.ReactNode] that [getTextFromChildren] inspects.
    [RElement c] is a valid element whose [props.children] is [c]. *)
#[warnings="-register-all"]
Inductive ReactNode : Type :=
| RString (s : string)
| RNumber (rendered : string) (nonzero : bool)
| RArray (nodes : list ReactNode)
| RElement (children : option ReactNode)
| ROther.

(** JavaScript truthiness of a node used as [children.props.children]. *)
Definition truthy_node (n : ReactNode) : bool :=
  match n with
  | RString s => Js.truthy_string s
  | RNumber _ nonzero => nonzero
  | RArray _ => true
  | RElement _ => true
  | ROther => false
  end.

(** [getTextFromChildren]. A number is carried with its [String(...)]
    rendering. *)
Fixpoint getTextFromChildren (children : ReactNode) : string :=
  match children with
  | RString s => s
  | RNumber rendered _ => rendered
  | RArray nodes => Js.join " " (map getTextFromChildren nodes)
  | RElement (Some c) =>
      if truthy_node c then getTextFromChildren c else ""
  | RElement None => ""
  | ROther => ""
  end.

(** Props of one [CommandItem]. *)
Record CommandItemProps : Type := {
  disabled : bool;
  value : option string;
  keywords : list string;
  children : ReactNode
}.

(** Props of [Command]: an optional caller predicate and [shouldFilter]
    (default [true]). *)
Record CommandProps : Type := {
  filter : option (string -> string -> bool);
  shouldFilter : bool
}.

(** State owned by [Command]: the two [useState] cells and the [items]
    ref, an array that [registerItem] fills by index. *)
Record CommandState : Type := {
  search : string;
  selectedIndex : Z;
  items : list (option CommandItemProps)
}.

(** [defaultFilter]. *)
Definition defaultFilter (shouldFilter : bool) (value search : string) : bool :=
  if negb shouldFilter then true
  else if (String.length search =? 0)%nat then true
  else Js.includes (Js.toLowerCase value) (Js.toLowerCase search).

(** The context's [filter]: [filter || defaultFilter]. *)
Definition activeFilter (p : CommandProps) : string -> string -> bool :=
  match filter p with
  | Some f => f
  | None => defaultFilter (shouldFilter p)
  end.

(** [value || getTextFromChildren(children)]. *)
Definition searchableText (it : CommandItemProps) : string :=
  match value it with
  | Some v => if Js.truthy_string v then v else getTextFromChildren (children it)
  | None => getTextFromChildren (children it)
  end.

(** [[searchableText, ...keywords].join(" ")]. *)
Definition allSearchableText (it : CommandItemProps) : string :=
  Js.join " " (searchableText it :: keywords it).

(** [isVisible] of a [CommandItem] rendered under query [q]; the element's
    [hidden] attribute is its negation. *)
Definition isVisible (p : CommandProps) (q : string) (it : CommandItemProps) : bool :=
  if (String.length q =? 0)%nat then true
  else activeFilter p (allSearchableText it) q.

(** [registerItem(element, index)]. *)
Definition registerItem (element : option CommandItemProps) (index : Z)
    (st : CommandState) : CommandState :=
  match element with
  | Some el =>
      {| search := search st; selectedIndex := selectedIndex st;
         items := Js.array_set (items st) index el |}
  | None => st
  end.

(** [setSearch(q)] from [CommandInput] followed by the effect on
    [[search]] that calls [setSelectedIndex(0)]. *)
Definition setQuery (q : string) (st : CommandState) : CommandState :=
  {| search := q; selectedIndex := 0; items := items st |}.

(** [items.current.filter((item) => item && !item.hidden)]. *)
Fixpoint visibleItems (p : CommandProps) (q : string)
    (arr : list (option CommandItemProps)) : list CommandItemProps :=
  match arr with
  | [] => []
  | None :: rest => visibleItems p q rest
  | Some it :: rest =>
      if isVisible p q it then it :: visibleItems p q rest
      else visibleItems p q rest
  end.

(** [items.current.filter((item) => item)]. *)
Fixpoint presentItems (arr : list (option CommandItemProps))
  : list CommandItemProps :=
  match arr with
  | [] => []
  | None :: rest => presentItems rest
  | Some it :: rest => it :: presentItems rest
  end.

(** Number of elements [handleKeyDown] sees as visible. *)
Definition visibleCount (p : CommandProps) (st : CommandState) : Z :=
  Z.of_nat (List.length (visibleItems p (search st) (items st))).

Definition withSelected (i : Z) (st : CommandState) : CommandState :=
  {| search := search st; selectedIndex := i; items := items st |}.

(** [handleKeyDown]: the state after the key. *)
Definition handleKeyDown (p : CommandProps) (k : Js.Key) (st : CommandState)
  : CommandState :=
  let n := visibleCount p st in
  match k with
  | Js.ArrowDown =>
      let next := selectedIndex st + 1 in
      withSelected (if next >=? n then 0 else next) st
  | Js.ArrowUp =>
      let next := selectedIndex st - 1 in
      withSelected (if next <? 0 then n - 1 else next) st
  | Js.Home => withSelected 0 st
  | Js.End_ => withSelected (n - 1) st
  | _ => st
  end.

(** The element that [Enter] clicks: [visibleItems[selectedIndex]]. *)
Definition enterTarget (p : CommandProps) (st : CommandState)
  : option CommandItemProps :=
  Js.array_get (visibleItems p (search st) (items st)) (selectedIndex st).

(** [handleSelect] of the clicked item: the argument passed to [onSelect],
    if the callback is reached. *)
Definition handleSelect (it : CommandItemProps) : option string :=
  if disabled it then None else Some (searchableText it).

(** [Enter] in [handleKeyDown]: what [onSelect] receives, if anything. *)
Definition activateSelected (p : CommandProps) (st : CommandState)
  : option string :=
  match enterTarget p st with
  | Some it => handleSelect it
  | None => None
  end.

(** [handleMouseEnter] of the item registered at [index]. *)
Definition handleMouseEnter (it : CommandItemProps) (index : Z)
    (st : CommandState) : CommandState :=
  if disabled it then st else withSelected index st.

(** [isSelected] of the item whose [indexRef.current] is [index]. *)
Definition isSelected (p : CommandProps) (st : CommandState)
    (index : Z) (it : CommandItemProps) : bool :=
  (selectedIndex st =? index) && isVisible p (search st) it.

(** The body of [checkEmpty] in [CommandEmpty]: the value handed to
    [setIsEmpty]. *)
Definition checkEmpty (p : CommandProps) (q : string)
    (arr : list (option CommandItemProps)) : bool :=
  let visible :=
    if (String.length q =? 0)%nat then presentItems arr
    else visibleItems p q arr in
  (0 <? String.length q)%nat && (List.length visible =? 0)%nat.

(** *** The palette as a machine driven by the keyboard and the input *)

(** The state [Command] starts in, with the items that registered at
    mount. *)
Definition initial (arr : list (option CommandItemProps)) : CommandState :=
  {| search := ""; selectedIndex := 0; items := arr |}.

(** A key on the palette, or a change of the input's text. *)
Inductive Event : Type :=
| KeyDown (k : Js.Key)
| SetQuery (q : string).

Definition step (p : CommandProps) (st : CommandState) (e : Event)
  : CommandState :=
  match e with
  | KeyDown k => handleKeyDown p k st
  | SetQuery q => setQuery q st
  end.

Definition run (p : CommandProps) (st : CommandState) (es : list Event)
  : CommandState :=
  fold_left (step p) es st.

(** The selected index is a position of the visible list when the list is
    not empty, and -1 or 0 when it is. *)
Definition indexInRange (p : CommandProps) (st : CommandState) : Prop :=
  (1 <= visibleCount p st -> 0 <= selectedIndex st < visibleCount p st)
  /\ (visibleCount p st = 0 -> -1 <= selectedIndex st <= 0).

(** *** Notions used to state the properties of the palette *)

(** Some visible item is not disabled. *)
Definition hasEnabledVisible (p : CommandProps) (st : CommandState) : Prop :=
  exists it, In it (visibleItems p (search st) (items st))
             /\ disabled it = false.

(** [indexRef.current] as a render of the item registered at [index]
    reads it: [useRef(-1)] during the item's first render, whose layout
    effect has not yet taken the index from the counter, and [index] in
    every later render. *)
Definition indexRefAt (firstRender : bool) (index : Z) : Z :=
  if firstRender then -1 else index.

(** [it] is rendered as selected: it sits at some index of the registry
    and the [isSelected] of its render is true. *)
Definition highlighted (firstRender : bool) (p : CommandProps)
    (st : CommandState) (it : CommandItemProps) : Prop :=
  exists i, Js.array_item (items st) i = Some it
            /\ isSelected p st (indexRefAt firstRender i) it = true.

(** The selected index refers to a visible item that is not disabled,
    under some way of reading the index: as [isSelected] reads it in a
    first or in a later render, or as [Enter] reads it. *)
Definition refersToEnabledVisible (p : CommandProps) (st : CommandState)
  : Prop :=
  exists it, ((exists firstRender, highlighted firstRender p st it)
              \/ enterTarget p st = Some it)
             /\ isVisible p (search st) it = true
             /\ disabled it = false.

(** [it] is the selected item whichever way the index is read: it is the
    item registered at the selected index, it is visible (so its later
    renders show it selected), and it is the element [Enter] clicks. *)
Definition selects (p : CommandProps) (st : CommandState)
    (it : CommandItemProps) : Prop :=
  Js.array_item (items st) (selectedIndex st) = Some it
  /\ isVisible p (search st) it = true
  /\ enterTarget p st = Some it.

(** The visible items are the leading entries of the registry: behind
    them come only hidden items and holes. In such a state an item's
    registration index is also its position among the visible items. *)
Definition visiblePrefix (p : CommandProps) (st : CommandState) : Prop :=
  exists vis rest,
    items st = (map Some vis ++ rest)%list
    /\ (forall it, In it vis -> isVisible p (search st) it = true)
    /\ (forall it, In (Some it) rest -> isVisible p (search st) it = false).

(** *** The palette driven by the keyboard, the input and the pointer *)

(** The pointer enters the element of the item registered at [index],
    after that item's layout effect has set [indexRef.current]. A hidden
    element and an index without an element receive no pointer. *)
Definition hover (p : CommandProps) (index : Z) (st : CommandState)
  : CommandState :=
  match Js.array_item (items st) index with
  | Some it =>
      if isVisible p (search st) it then handleMouseEnter it index st else st
  | None => st
  end.

Inductive Interaction : Type :=
| Key (k : Js.Key)
| Query (q : string)
| Hover (index : Z).

Definition interact (p : CommandProps) (st : CommandState) (e : Interaction)
  : CommandState :=
  match e with
  | Key k => handleKeyDown p k st
  | Query q => setQuery q st
  | Hover index => hover p index st
  end.

Definition interactions (p : CommandProps) (st : CommandState)
    (es : list Interaction) : CommandState :=
  fold_left (interact p) es st.

(** [it] is the first visible element of the registry, in index order. *)
Definition firstVisible (p : CommandProps) (q : string)
    (arr : list (option CommandItemProps)) (it : CommandItemProps) : Prop :=
  exists pre post, arr = (pre ++ Some it :: post)%list
                   /\ visibleItems p q pre = []
                   /\ isVisible p q it = true.

(** [sub] occurs in [s]. *)
Definition occursIn (sub s : string) : Prop :=
  exists pre post, s = pre ++ sub ++ post.

End Command.

(** ** Scrollbar thumb geometry ([ScrollBar]) *)

Module ScrollBar.

Local Open Scope Q_scope.

(** [a > b] on numbers. *)
Definition gt (a b : Q) : bool := negb (Qle_bool a b).

(** [thumbSize], in percent of the track. *)
Definition thumbSize (viewportSize contentSize : Q) : Q :=
  if gt contentSize 0
  then Qmax ((viewportSize / contentSize) * 100) 10
  else 0.

(** [thumbPosition], in percent of the track. *)
Definition thumbPosition (scrollPosition viewportSize contentSize : Q) : Q :=
  if gt contentSize viewportSize
  then (scrollPosition / (contentSize - viewportSize))
       * (100 - thumbSize viewportSize contentSize)
  else 0.

(** [Math.max(0, Math.min(x, contentSize - viewportSize))]: the value
    written to [scrollTop] or [scrollLeft]. *)
Definition clampScroll (x viewportSize contentSize : Q) : Q :=
  Qmax 0 (Qmin x (contentSize - viewportSize)).

(** The divisor of [scrollRatio] in [handleMouseMove]. It is zero for a
    scrollbar of length zero and for a thumb that fills the track
    ([thumbSize] 100, content as large as the viewport); the quotient is
    then not a number in JavaScript. *)
Definition scrollRatioDivisor (scrollbarSize viewportSize contentSize : Q) : Q :=
  scrollbarSize * (1 - thumbSize viewportSize contentSize / 100).

(** [handleMouseMove] while dragging: the scroll offset it writes, from
    the offset and pointer position recorded at the press ([startScroll],
    with [delta] the pointer's travel since) and the scrollbar's
    [clientHeight] or [clientWidth]. The value is the one the code writes
    where [scrollRatioDivisor] is not zero. *)
Definition dragScroll (startScroll delta scrollbarSize
                       viewportSize contentSize : Q) : Q :=
  let scrollRatio :=
    (contentSize - viewportSize)
    / (scrollbarSize * (1 - thumbSize viewportSize contentSize / 100)) in
  let newScrollPos := startScroll + delta * scrollRatio in
  clampScroll newScrollPos viewportSize contentSize.

(** [handleTrackClick]: the scroll offset after a click at [clickPos]
    along a scrollbar of length [scrollbarSize]; [targetIsScrollbar] is
    [e.target === scrollbar], and a click elsewhere (on the thumb) leaves
    the offset [current] alone. The value is the one the code writes
    where [scrollbarSize] is not zero. *)
Definition trackClickScroll (targetIsScrollbar : bool)
    (clickPos scrollbarSize viewportSize contentSize current : Q) : Q :=
  if targetIsScrollbar then
    let clickRatio := clickPos / scrollbarSize in
    let targetScroll := clickRatio * contentSize - viewportSize / 2 in
    clampScroll targetScroll viewportSize contentSize
  else current.

(** [ScrollArea]'s [orientation] prop. *)
Inductive Orientation : Type := Vertical | Horizontal | Both.

(** [updateScrollInfo]: whether each bar is rendered. *)
Definition showVerticalScrollbar (o : Orientation)
    (scrollHeight clientHeight : Q) : bool :=
  gt scrollHeight clientHeight
  && match o with Vertical | Both => true | Horizontal => false end.

Definition showHorizontalScrollbar (o : Orientation)
    (scrollWidth clientWidth : Q) : bool :=
  gt scrollWidth clientWidth
  && match o with Horizontal | Both => true | Vertical => false end.

End ScrollBar.

(** ** Overlay positioning ([TooltipContent], [DropdownMenuContent],
       [HoverCardContent]) *)

Module Overlay.

Local Open Scope Q_scope.

Inductive Side : Type := SideTop | SideRight | SideBottom | SideLeft.
Inductive Align : Type := AlignStart | AlignCenter | AlignEnd.

(** What [getBoundingClientRect()] returns, with [right] and [bottom]
    derived as the DOM does. *)
Record Rect : Type := {
  top : Q;
  left : Q;
  width : Q;
  height : Q
}.

Definition right (r : Rect) : Q := left r + width r.
Definition bottom (r : Rect) : Q := top r + height r.

(** The [position] state cell. *)
Record Position : Type := { pos_top : Q; pos_left : Q }.

Definition isTopBottom (s : Side) : bool :=
  match s with SideTop | SideBottom => true | _ => false end.

Definition isLeftRight (s : Side) : bool :=
  match s with SideLeft | SideRight => true | _ => false end.

(** The first [switch (side)]. The three components differ only in the
    provisional [top] they assign for the sides left and right:
    [crossTop] is that expression. *)
Definition sideSwitch (crossTop : Rect -> Rect -> Q)
    (trigger content : Rect) (side : Side) (sideOffset : Q) : Position :=
  match side with
  | SideTop =>
      {| pos_top := top trigger - height content - sideOffset; pos_left := 0 |}
  | SideBottom =>
      {| pos_top := bottom trigger + sideOffset; pos_left := 0 |}
  | SideLeft =>
      {| pos_top := crossTop trigger content;
         pos_left := left trigger - width content - sideOffset |}
  | SideRight =>
      {| pos_top := crossTop trigger content;
         pos_left := right trigger + sideOffset |}
  end.

(** [if (side === "top" || side === "bottom") switch (align) ...]. *)
Definition alignTopBottom (trigger content : Rect) (side : Side)
    (align : Align) (p : Position) : Position :=
  if isTopBottom side then
    match align with
    | AlignStart => {| pos_top := pos_top p; pos_left := left trigger |}
    | AlignCenter =>
        {| pos_top := pos_top p;
           pos_left := left trigger + (width trigger - width content) / 2 |}
    | AlignEnd =>
        {| pos_top := pos_top p; pos_left := right trigger - width content |}
    end
  else p.

(** [if (side === "left" || side === "right") switch (align) ...]. *)
Definition alignLeftRight (trigger content : Rect) (side : Side)
    (align : Align) (p : Position) : Position :=
  if isLeftRight side then
    match align with
    | AlignStart => {| pos_top := top trigger; pos_left := pos_left p |}
    | AlignCenter =>
        {| pos_top := top trigger + (height trigger - height content) / 2;
           pos_left := pos_left p |}
    | AlignEnd =>
        {| pos_top := bottom trigger - height content; pos_left := pos_left p |}
    end
  else p.

Definition resolveWith (crossTop : Rect -> Rect -> Q)
    (trigger content : Rect) (side : Side) (align : Align) (sideOffset : Q)
  : Position :=
  alignLeftRight trigger content side align
    (alignTopBottom trigger content side align
       (sideSwitch crossTop trigger content side sideOffset)).

(** Provisional [top] of [TooltipContent] and [HoverCardContent]. *)
Definition centeredTop (trigger content : Rect) : Q :=
  top trigger + (height trigger - height content) / 2.

(** Provisional [top] of [DropdownMenuContent]. *)
Definition triggerTop (trigger content : Rect) : Q := top trigger.

(** Position computed by [TooltipContent]. *)
Definition tooltipPosition := resolveWith centeredTop.

(** Position computed by [DropdownMenuContent]. *)
Definition dropdownPosition := resolveWith triggerTop.

(** Position computed by [HoverCardContent]. *)
Definition hoverCardPosition := resolveWith centeredTop.

Inductive Component : Type := TooltipC | DropdownMenuC | HoverCardC.

Definition resolvePosition (c : Component) :=
  match c with
  | TooltipC => tooltipPosition
  | DropdownMenuC => dropdownPosition
  | HoverCardC => hoverCardPosition
  end.

(** The [useLayoutEffect] body: a ref is [None] when its element is not
    mounted, otherwise it carries the rectangle that
    [getBoundingClientRect()] reports. The result is the [position] cell
    after the effect. *)
Definition layoutEffect (c : Component) (open : bool)
    (triggerRef contentRef : option Rect)
    (side : Side) (align : Align) (sideOffset : Q)
    (position : Position) : Position :=
  if negb open then position
  else match triggerRef, contentRef with
       | Some trigger, Some content =>
           resolvePosition c trigger content side align sideOffset
       | _, _ => position
       end.

(** The measurement of an element that has not been laid out. *)
Definition zeroRect : Rect :=
  {| top := 0; left := 0; width := 0; height := 0 |}.

End Overlay.

(** ** Timers: [setTimeout], [clearTimeout] and the passage of time *)

Module Timers.

Local Open Scope Z_scope.

(** A pending timer: its handle, the clock value at which it fires, and
    the callback, described by a value of type [A]. *)
Record timer (A : Type) : Type := {
  tid : positive;
  due : Z;
  callback : A
}.
Arguments tid {A} _.
Arguments due {A} _.
Arguments callback {A} _.

(** Clock in milliseconds, next fresh handle, timers not yet fired. *)
Record queue (A : Type) : Type := {
  now : Z;
  nextId : positive;
  pending : list (timer A)
}.
Arguments now {A} _.
Arguments nextId {A} _.
Arguments pending {A} _.

Definition empty {A} : queue A :=
  {| now := 0; nextId := 1%positive; pending := [] |}.

(** [setTimeout(cb, delay)]: returns the handle; a negative delay counts
    as zero. *)
Definition setTimeout {A} (cb : A) (delay : Z) (q : queue A)
  : positive * queue A :=
  (nextId q,
   {| now := now q;
      nextId := Pos.succ (nextId q);
      pending := pending q ++
                 [{| tid := nextId q; due := now q + Z.max delay 0;
                     callback := cb |}] |}).

(** [clearTimeout(id)]: a handle that is not pending is ignored. *)
Definition clearTimeout {A} (id : positive) (q : queue A) : queue A :=
  {| now := now q;
     nextId := nextId q;
     pending := List.filter (fun t => negb (Pos.eqb (tid t) id)) (pending q) |}.

(** Insertion by firing time; among equal times the timer inserted later
    in the fold, which was scheduled earlier, goes first. *)
Fixpoint insertByDue {A} (t : timer A) (l : list (timer A)) : list (timer A) :=
  match l with
  | [] => [t]
  | u :: l' => if due t <=? due u then t :: l else u :: insertByDue t l'
  end.

Definition sortByDue {A} (l : list (timer A)) : list (timer A) :=
  fold_right insertByDue [] l.

(** Let [dt] milliseconds pass: the callbacks that fire, in firing order,
    and the queue afterwards. *)
Definition elapse {A} (dt : Z) (q : queue A) : list A * queue A :=
  let t1 := now q + Z.max dt 0 in
  (map callback (sortByDue (List.filter (fun t => due t <=? t1) (pending q))),
   {| now := t1;
      nextId := nextId q;
      pending := List.filter (fun t => negb (due t <=? t1)) (pending q) |}).

End Timers.

(** ** Tooltip open state ([Tooltip], [TooltipTrigger]) *)

Module Tooltip.

Local Open Scope Z_scope.

(** Props of [Tooltip] and the provider's [delayDuration]. *)
Record TooltipProps : Type := {
  controlledOpen : option bool;
  defaultOpen : bool;
  propDelayDuration : option Z;
  providerDelayDuration : Z
}.

(** [propDelayDuration ?? providerContext.delayDuration]. *)
Definition delayDuration (p : TooltipProps) : Z :=
  match propDelayDuration p with
  | Some d => d
  | None => providerDelayDuration p
  end.

(** The pending callback of the trigger is always [() => setOpen(true)]. *)
Inductive Callback : Type := CallSetOpen (value : bool).

(** [uncontrolledOpen], the trigger's [timeoutRef], the timers, and the
    arguments with which [onOpenChange] has been invoked so far. *)
Record TooltipState : Type := {
  uncontrolledOpen : bool;
  timeoutRef : option positive;
  timers : Timers.queue Callback;
  notified : list bool
}.

Definition initial (p : TooltipProps) : TooltipState :=
  {| uncontrolledOpen := defaultOpen p; timeoutRef := None;
     timers := Timers.empty; notified := [] |}.

Definition isControlled (p : TooltipProps) : bool :=
  match controlledOpen p with Some _ => true | None => false end.

(** [open]: what the content renders from. *)
Definition open (p : TooltipProps) (s : TooltipState) : bool :=
  match controlledOpen p with
  | Some b => b
  | None => uncontrolledOpen s
  end.

(** [setOpen(value)]. *)
Definition setOpen (p : TooltipProps) (value : bool) (s : TooltipState)
  : TooltipState :=
  {| uncontrolledOpen := if isControlled p then uncontrolledOpen s else value;
     timeoutRef := timeoutRef s;
     timers := timers s;
     notified := notified s ++ [value] |}.

(** [handleMouseEnter]. *)
Definition handleMouseEnter (p : TooltipProps) (s : TooltipState)
  : TooltipState :=
  if delayDuration p >? 0 then
    let '(id, q) :=
      Timers.setTimeout (CallSetOpen true) (delayDuration p) (timers s) in
    {| uncontrolledOpen := uncontrolledOpen s;
       timeoutRef := Some id;
       timers := q;
       notified := notified s |}
  else setOpen p true s.

(** [handleMouseLeave]. *)
Definition handleMouseLeave (p : TooltipProps) (s : TooltipState)
  : TooltipState :=
  let s1 :=
    match timeoutRef s with
    | Some id =>
        {| uncontrolledOpen := uncontrolledOpen s;
           timeoutRef := None;
           timers := Timers.clearTimeout id (timers s);
           notified := notified s |}
    | None => s
    end in
  setOpen p false s1.

(** [handleFocus] and [handleBlur]. *)
Definition handleFocus (p : TooltipProps) (s : TooltipState) : TooltipState :=
  setOpen p true s.

Definition handleBlur (p : TooltipProps) (s : TooltipState) : TooltipState :=
  setOpen p false s.

(** A fired callback runs. *)
Definition runCallback (p : TooltipProps) (s : TooltipState) (cb : Callback)
  : TooltipState :=
  match cb with CallSetOpen v => setOpen p v s end.

(** [dt] milliseconds pass with no user event. *)
Definition elapse (p : TooltipProps) (dt : Z) (s : TooltipState)
  : TooltipState :=
  let '(fired, q) := Timers.elapse dt (timers s) in
  fold_left (runCallback p)
    fired
    {| uncontrolledOpen := uncontrolledOpen s;
       timeoutRef := timeoutRef s;
       timers := q;
       notified := notified s |}.

(** The cleanup on unmount of the trigger. *)
Definition unmount (s : TooltipState) : TooltipState :=
  match timeoutRef s with
  | Some id =>
      {| uncontrolledOpen := uncontrolledOpen s;
         timeoutRef := timeoutRef s;
         timers := Timers.clearTimeout id (timers s);
         notified := notified s |}
  | None => s
  end.

End Tooltip.

(** ** Hover card open state ([HoverCard], [HoverCardTrigger]) *)

Module HoverCard.

Local Open Scope Z_scope.

(** Props of [HoverCard]; the defaults are 700 and 300. *)
Record HoverCardProps : Type := {
  controlledOpen : option bool;
  defaultOpen : bool;
  openDelay : Z;
  closeDelay : Z
}.

(** Both scheduled callbacks have the same shape: set the uncontrolled
    state to [value] and notify [onOpenChange(value)]. *)
Inductive Callback : Type := Apply (value : bool).

Record HoverCardState : Type := {
  uncontrolledOpen : bool;
  openTimeoutRef : option positive;
  closeTimeoutRef : option positive;
  timers : Timers.queue Callback;
  notified : list bool
}.

Definition initial (p : HoverCardProps) : HoverCardState :=
  {| uncontrolledOpen := defaultOpen p;
     openTimeoutRef := None; closeTimeoutRef := None;
     timers := Timers.empty; notified := [] |}.

Definition isControlled (p : HoverCardProps) : bool :=
  match controlledOpen p with Some _ => true | None => false end.

Definition open (p : HoverCardProps) (s : HoverCardState) : bool :=
  match controlledOpen p with
  | Some b => b
  | None => uncontrolledOpen s
  end.

(** [if (ref.current) { clearTimeout(ref.current); ref.current = null }]
    on the timer queue. *)
Definition clearRef (ref : option positive) (q : Timers.queue Callback)
  : Timers.queue Callback :=
  match ref with
  | Some id => Timers.clearTimeout id q
  | None => q
  end.

(** [setOpen(value)]. *)
Definition setOpen (p : HoverCardProps) (value : bool) (s : HoverCardState)
  : HoverCardState :=
  let q0 := clearRef (closeTimeoutRef s) (clearRef (openTimeoutRef s) (timers s)) in
  if value then
    let '(id, q) := Timers.setTimeout (Apply true) (openDelay p) q0 in
    {| uncontrolledOpen := uncontrolledOpen s;
       openTimeoutRef := Some id; closeTimeoutRef := None;
       timers := q; notified := notified s |}
  else
    let '(id, q) := Timers.setTimeout (Apply false) (closeDelay p) q0 in
    {| uncontrolledOpen := uncontrolledOpen s;
       openTimeoutRef := None; closeTimeoutRef := Some id;
       timers := q; notified := notified s |}.

(** [cancelClose]. *)
Definition cancelClose (s : HoverCardState) : HoverCardState :=
  {| uncontrolledOpen := uncontrolledOpen s;
     openTimeoutRef := openTimeoutRef s;
     closeTimeoutRef := None;
     timers := clearRef (closeTimeoutRef s) (timers s);
     notified := notified s |}.

(** Trigger handlers. *)
Definition handleMouseEnter (p : HoverCardProps) := setOpen p true.
Definition handleMouseLeave (p : HoverCardProps) := setOpen p false.

(** A fired callback runs. *)
Definition runCallback (p : HoverCardProps) (s : HoverCardState)
    (cb : Callback) : HoverCardState :=
  match cb with
  | Apply v =>
      {| uncontrolledOpen := if isControlled p then uncontrolledOpen s else v;
         openTimeoutRef := openTimeoutRef s;
         closeTimeoutRef := closeTimeoutRef s;
         timers := timers s;
         notified := notified s ++ [v] |}
  end.

(** [dt] milliseconds pass with no user event. *)
Definition elapse (p : HoverCardProps) (dt : Z) (s : HoverCardState)
  : HoverCardState :=
  let '(fired, q) := Timers.elapse dt (timers s) in
  fold_left (runCallback p)
    fired
    {| uncontrolledOpen := uncontrolledOpen s;
       openTimeoutRef := openTimeoutRef s;
       closeTimeoutRef := closeTimeoutRef s;
       timers := q;
       notified := notified s |}.

(** The cleanup on unmount: both timeouts are cleared. *)
Definition unmount (s : HoverCardState) : HoverCardState :=
  {| uncontrolledOpen := uncontrolledOpen s;
     openTimeoutRef := openTimeoutRef s;
     closeTimeoutRef := closeTimeoutRef s;
     timers := clearRef (closeTimeoutRef s) (clearRef (openTimeoutRef s) (timers s));
     notified := notified s |}.

(** What can happen to a hover card: the pointer enters or leaves the
    trigger, enters the content ([cancelClose]) or leaves it
    ([setOpen(false)]), or time passes. *)
Inductive Event : Type :=
| TriggerEnter
| TriggerLeave
| ContentEnter
| ContentLeave
| Elapse (dt : Z).

Definition step (p : HoverCardProps) (s : HoverCardState) (e : Event)
  : HoverCardState :=
  match e with
  | TriggerEnter => handleMouseEnter p s
  | TriggerLeave => handleMouseLeave p s
  | ContentEnter => cancelClose s
  | ContentLeave => setOpen p false s
  | Elapse dt => elapse p dt s
  end.

Definition run (p : HoverCardProps) (s : HoverCardState) (es : list Event)
  : HoverCardState :=
  fold_left (step p) es s.

(** Every pending timer is named by one of the two refs. *)
Definition timersOwned (s : HoverCardState) : Prop :=
  forall t, In t (Timers.pending (timers s)) ->
            openTimeoutRef s = Some (Timers.tid t)
            \/ closeTimeoutRef s = Some (Timers.tid t).

(** The invariant: at most one timer is pending, and a ref names it. *)
Definition oneOwnedTimer (s : HoverCardState) : Prop :=
  timersOwned s /\ (List.length (Timers.pending (timers s)) <= 1)%nat.

End HoverCard.

(** ** Dropdown menu: open state, dismissal listeners, items
       ([DropdownMenu], [DropdownMenuTrigger], [DropdownMenuContent],
       [DropdownMenuItem], [DropdownMenuCheckboxItem],
       [DropdownMenuRadioItem]) *)

Module DropdownMenu.

Record DropdownMenuProps : Type := {
  controlledOpen : option bool;
  defaultOpen : bool
}.

(** Where a pointer event's target lies. *)
Inductive Target : Type := InsideContent | InsideTrigger | Outside.

(** Who holds keyboard focus, as far as the menu can tell. *)
Inductive Focus : Type := FocusTrigger | FocusElsewhere.

(** The two listeners the content registers on [document]. *)
Inductive Listener : Type := OnMouseDown | OnKeyDown.

Definition listener_eqb (a b : Listener) : bool :=
  match a, b with
  | OnMouseDown, OnMouseDown | OnKeyDown, OnKeyDown => true
  | _, _ => false
  end.

(** - [uncontrolledOpen], [mounted]: the [useState] cells;
    - [triggerRef]: whether [triggerRef.current] is an element;
    - [effectOpen]: the value of [open] at the last run of the dismissal
      effect, [None] before the first commit;
    - [docListeners]: the listeners this menu currently has on [document];
    - [focused]: keyboard focus;
    - [notified]: the arguments [onOpenChange] has received. *)
Record DropdownMenuState : Type := {
  uncontrolledOpen : bool;
  mounted : bool;
  triggerRef : bool;
  effectOpen : option bool;
  docListeners : list Listener;
  focused : Focus;
  notified : list bool
}.

Definition isControlled (p : DropdownMenuProps) : bool :=
  match controlledOpen p with Some _ => true | None => false end.

Definition open (p : DropdownMenuProps) (s : DropdownMenuState) : bool :=
  match controlledOpen p with
  | Some b => b
  | None => uncontrolledOpen s
  end.

(** [contentRef.current] is an element exactly when the content was
    rendered: [if (!open || !mounted) return null]. *)
Definition contentRef (p : DropdownMenuProps) (s : DropdownMenuState) : bool :=
  open p s && mounted s.

(** [setOpen(value)]. *)
Definition setOpen (p : DropdownMenuProps) (value : bool)
    (s : DropdownMenuState) : DropdownMenuState :=
  {| uncontrolledOpen := if isControlled p then uncontrolledOpen s else value;
     mounted := mounted s;
     triggerRef := triggerRef s;
     effectOpen := effectOpen s;
     docListeners := docListeners s;
     focused := focused s;
     notified := notified s ++ [value] |}.

Definition withListeners (ls : list Listener) (o : option bool)
    (s : DropdownMenuState) : DropdownMenuState :=
  {| uncontrolledOpen := uncontrolledOpen s;
     mounted := mounted s;
     triggerRef := triggerRef s;
     effectOpen := o;
     docListeners := ls;
     focused := focused s;
     notified := notified s |}.

(** [document.removeEventListener]: drops one registration. *)
Fixpoint removeListener (l : Listener) (ls : list Listener) : list Listener :=
  match ls with
  | [] => []
  | x :: rest => if listener_eqb x l then rest else x :: removeListener l rest
  end.

(** The cleanup returned by the dismissal effect; the effect returns one
    only when it ran with [open] true. *)
Definition runCleanup (s : DropdownMenuState) : list Listener :=
  match effectOpen s with
  | Some true => removeListener OnKeyDown (removeListener OnMouseDown (docListeners s))
  | _ => docListeners s
  end.

(** The dismissal [useEffect] at a commit: when [open] differs from the
    value at its last run, the old cleanup runs and then the body. *)
Definition dismissalEffect (p : DropdownMenuProps) (s : DropdownMenuState)
  : DropdownMenuState :=
  let o := open p s in
  let rerun :=
    let cleaned := runCleanup s in
    withListeners (if o then cleaned ++ [OnMouseDown; OnKeyDown] else cleaned)
                  (Some o) s in
  match effectOpen s with
  | Some o' => if Bool.eqb o o' then s else rerun
  | None => rerun
  end.

(** The [setMounted(true)] effect. *)
Definition mountEffect (s : DropdownMenuState) : DropdownMenuState :=
  {| uncontrolledOpen := uncontrolledOpen s;
     mounted := true;
     triggerRef := triggerRef s;
     effectOpen := effectOpen s;
     docListeners := docListeners s;
     focused := focused s;
     notified := notified s |}.

(** Effects of one commit. *)
Definition commit (p : DropdownMenuProps) (s : DropdownMenuState)
  : DropdownMenuState :=
  dismissalEffect p (mountEffect s).

(** The state after the first commit; [hasTrigger] tells whether a
    [DropdownMenuTrigger] is part of the tree. *)
Definition mount (p : DropdownMenuProps) (hasTrigger : bool)
  : DropdownMenuState :=
  commit p {| uncontrolledOpen := defaultOpen p;
              mounted := false;
              triggerRef := hasTrigger;
              effectOpen := None;
              docListeners := [];
              focused := FocusElsewhere;
              notified := [] |}.

(** Unmounting runs the cleanup. *)
Definition unmount (s : DropdownMenuState) : DropdownMenuState :=
  withListeners (runCleanup s) None s.

(** [handleClickOutside]. *)
Definition handleClickOutside (p : DropdownMenuProps) (target : Target)
    (s : DropdownMenuState) : DropdownMenuState :=
  let contentContains :=
    match target with InsideContent => true | _ => false end in
  let triggerContains :=
    match target with InsideTrigger => true | _ => false end in
  if contentRef p s && negb contentContains
     && triggerRef s && negb triggerContains
  then setOpen p false s
  else s.

(** [handleEscape]. *)
Definition handleEscape (p : DropdownMenuProps) (k : Js.Key)
    (s : DropdownMenuState) : DropdownMenuState :=
  match k with
  | Js.Escape =>
      let s1 := setOpen p false s in
      {| uncontrolledOpen := uncontrolledOpen s1;
         mounted := mounted s1;
         triggerRef := triggerRef s1;
         effectOpen := effectOpen s1;
         docListeners := docListeners s1;
         focused := if triggerRef s1 then FocusTrigger else focused s1;
         notified := notified s1 |}
  | _ => s
  end.

(** The trigger's [handleClick] and [handleKeyDown], as far as the menu
    state goes. *)
Definition triggerClick (p : DropdownMenuProps) (s : DropdownMenuState)
  : DropdownMenuState :=
  setOpen p (negb (open p s)) s.

Definition triggerKeyDown (p : DropdownMenuProps) (k : Js.Key)
    (s : DropdownMenuState) : DropdownMenuState :=
  match k with
  | Js.Enter | Js.Space | Js.ArrowDown => setOpen p true s
  | _ => s
  end.

(** A [document] event reaches every listener registered for it, against
    the state the listeners see when the event is dispatched. *)
Definition dispatch (l : Listener) (h : DropdownMenuState -> DropdownMenuState)
    (s : DropdownMenuState) : DropdownMenuState :=
  fold_left (fun acc x => if listener_eqb x l then h acc else acc)
            (docListeners s) s.

Inductive Event : Type :=
| TriggerClick
| TriggerKeyDown (k : Js.Key)
| DocMouseDown (target : Target)
| DocKeyDown (k : Js.Key).

(** One event: its handlers run, then the commit's effects. *)
Definition step (p : DropdownMenuProps) (s : DropdownMenuState) (e : Event)
  : DropdownMenuState :=
  commit p
    match e with
    | TriggerClick => triggerClick p s
    | TriggerKeyDown k => triggerKeyDown p k s
    | DocMouseDown t => dispatch OnMouseDown (handleClickOutside p t) s
    | DocKeyDown k => dispatch OnKeyDown (handleEscape p k) s
    end.

Definition run (p : DropdownMenuProps) (s : DropdownMenuState)
    (es : list Event) : DropdownMenuState :=
  fold_left (step p) es s.

(** *** Items *)

(** The part of a React synthetic event the item handlers read. *)
Record SyntheticEvent : Type := { defaultPrevented : bool }.

Definition freshEvent : SyntheticEvent := {| defaultPrevented := false |}.

(** [e.preventDefault()]. *)
Definition preventDefault (e : SyntheticEvent) : SyntheticEvent :=
  {| defaultPrevented := true |}.

(** A caller-supplied handler, by what it does to the event. *)
Definition Handler : Type := SyntheticEvent -> SyntheticEvent.

(** Caller callbacks that were invoked, in order. *)
Inductive Call : Type :=
| CalledOnClick
| CalledOnKeyDown
| CalledOnCheckedChange (checked : bool)
| CalledOnValueChange (value : string).

(** Menu state together with the log of caller callbacks. *)
Record World : Type := {
  menu : DropdownMenuState;
  calls : list Call
}.

Definition logCall (c : Call) (w : World) : World :=
  {| menu := menu w; calls := calls w ++ [c] |}.

(** [h?.(e)] with its log entry. *)
Definition callOptional (h : option Handler) (c : Call)
    (e : SyntheticEvent) (w : World) : SyntheticEvent * World :=
  match h with
  | Some f => (f e, logCall c w)
  | None => (e, w)
  end.

(** Props of [DropdownMenuItem] that matter for activation. [asChild]
    stands for [asChild && React.isValidElement(children)]. *)
Record DropdownMenuItemProps : Type := {
  asChild : bool;
  onClick : option Handler;
  onKeyDown : option Handler
}.

(** [DropdownMenuItem]'s [handleClick]. *)
Definition handleClick (p : DropdownMenuProps) (ip : DropdownMenuItemProps)
    (e : SyntheticEvent) (w : World) : SyntheticEvent * World :=
  let '(e1, w1) := callOptional (onClick ip) CalledOnClick e w in
  if negb (defaultPrevented e1)
  then (e1, {| menu := setOpen p false (menu w1); calls := calls w1 |})
  else (e1, w1).

(** [DropdownMenuItem]'s [handleKeyDown]. *)
Definition handleKeyDown (p : DropdownMenuProps) (ip : DropdownMenuItemProps)
    (k : Js.Key) (e : SyntheticEvent) (w : World) : SyntheticEvent * World :=
  let '(e1, w1) :=
    match k with
    | Js.Enter | Js.Space => handleClick p ip (preventDefault e) w
    | _ => (e, w)
    end in
  callOptional (onKeyDown ip) CalledOnKeyDown e1 w1.

(** The [onClick] the rendered element ends up with. With [asChild] the
    child is cloned with [handleClick]; otherwise the button is written
    [onClick={handleClick} ... {...props}], so an [onClick] among the
    props takes the place of [handleClick]. *)
Definition elementOnClick (p : DropdownMenuProps) (ip : DropdownMenuItemProps)
    (e : SyntheticEvent) (w : World) : SyntheticEvent * World :=
  if asChild ip then handleClick p ip e w
  else match onClick ip with
       | Some f => (f e, logCall CalledOnClick w)
       | None => handleClick p ip e w
       end.

(** The [onKeyDown] the rendered element ends up with, likewise. *)
Definition elementOnKeyDown (p : DropdownMenuProps)
    (ip : DropdownMenuItemProps) (k : Js.Key)
    (e : SyntheticEvent) (w : World) : SyntheticEvent * World :=
  if asChild ip then handleKeyDown p ip k e w
  else match onKeyDown ip with
       | Some f => (f e, logCall CalledOnKeyDown w)
       | None => handleKeyDown p ip k e w
       end.

(** How the user activates an item. *)
Inductive Activation : Type := ByClick | ByKey (k : Js.Key).

Definition committed (p : DropdownMenuProps) (w : World) : World :=
  {| menu := commit p (menu w); calls := calls w |}.

(** Keys that a native [<button>] turns into a click when the key event's
    default action is left in place. *)
Definition clicksButton (k : Js.Key) : bool :=
  match k with Js.Enter | Js.Space => true | _ => false end.

(** A click reaches the item element. *)
Definition clickItem (p : DropdownMenuProps) (ip : DropdownMenuItemProps)
    (w : World) : World :=
  let '(_, w1) := elementOnClick p ip freshEvent w in
  committed p w1.

(** The [keydown] event goes on from the element to [document], where
    the listeners of an open menu receive it; no handler is taken to stop
    the propagation. *)
Definition bubbleKeyDown (p : DropdownMenuProps) (k : Js.Key) (w : World)
  : World :=
  {| menu := step p (menu w) (DocKeyDown k); calls := calls w |}.

(** A key reaches the item element: the element's handler runs, the event
    bubbles to [document], and then the default action takes place. The
    item rendered by the component itself is a [<button>], whose default
    action for Enter and Space is a click; a cloned child ([asChild]) is
    taken to have no default action. *)
Definition keyDownItem (p : DropdownMenuProps) (ip : DropdownMenuItemProps)
    (k : Js.Key) (w : World) : World :=
  let '(e1, w1) := elementOnKeyDown p ip k freshEvent w in
  let w2 := bubbleKeyDown p k (committed p w1) in
  if clicksButton k && negb (defaultPrevented e1) && negb (asChild ip)
  then clickItem p ip w2
  else w2.

(** Activation of a plain item. *)
Definition activateItem (p : DropdownMenuProps) (ip : DropdownMenuItemProps)
    (a : Activation) (w : World) : World :=
  match a with
  | ByClick => clickItem p ip w
  | ByKey k => keyDownItem p ip k w
  end.










(** *** The trigger element *)

(** Props of [DropdownMenuTrigger] that matter for its handlers.
    [trigger_asChild] stands for
    [asChild && React.isValidElement(children)]. *)
Record TriggerProps : Type := {
  trigger_asChild : bool;
  trigger_onClick : option Handler;
  trigger_onKeyDown : option Handler
}.

(** [DropdownMenuTrigger]'s [handleClick]: [e.preventDefault()],
    [setOpen(!open)], then [props.onClick?.(e)]. *)
Definition triggerHandleClick (p : DropdownMenuProps) (tp : TriggerProps)
    (e : SyntheticEvent) (s : DropdownMenuState)
  : SyntheticEvent * DropdownMenuState :=
  let e1 := preventDefault e in
  (match trigger_onClick tp with Some f => f e1 | None => e1 end,
   triggerClick p s).

(** [DropdownMenuTrigger]'s [handleKeyDown]. *)
Definition triggerHandleKeyDown (p : DropdownMenuProps) (tp : TriggerProps)
    (k : Js.Key) (e : SyntheticEvent) (s : DropdownMenuState)
  : SyntheticEvent * DropdownMenuState :=
  let e1 :=
    match k with
    | Js.Enter | Js.Space | Js.ArrowDown => preventDefault e
    | _ => e
    end in
  (match trigger_onKeyDown tp with Some f => f e1 | None => e1 end,
   triggerKeyDown p k s).

(** The handlers the rendered trigger ends up with: the cloned child
    gets the component's; the button is written
    [onClick={handleClick} onKeyDown={handleKeyDown} {...props}], so a
    handler among the props takes the place of the component's. *)
Definition triggerElementOnClick (p : DropdownMenuProps) (tp : TriggerProps)
    (e : SyntheticEvent) (s : DropdownMenuState)
  : SyntheticEvent * DropdownMenuState :=
  if trigger_asChild tp then triggerHandleClick p tp e s
  else match trigger_onClick tp with
       | Some f => (f e, s)
       | None => triggerHandleClick p tp e s
       end.

Definition triggerElementOnKeyDown (p : DropdownMenuProps) (tp : TriggerProps)
    (k : Js.Key) (e : SyntheticEvent) (s : DropdownMenuState)
  : SyntheticEvent * DropdownMenuState :=
  if trigger_asChild tp then triggerHandleKeyDown p tp k e s
  else match trigger_onKeyDown tp with
       | Some f => (f e, s)
       | None => triggerHandleKeyDown p tp k e s
       end.

(** A click reaches the trigger element. *)
Definition clickTrigger (p : DropdownMenuProps) (tp : TriggerProps)
    (s : DropdownMenuState) : DropdownMenuState :=
  commit p (snd (triggerElementOnClick p tp freshEvent s)).

(** A key reaches the trigger element: the element's handler runs, the
    event bubbles to [document], and then the button's default action, a
    click for Enter and Space, takes place unless it was prevented. *)
Definition keyDownTrigger (p : DropdownMenuProps) (tp : TriggerProps)
    (k : Js.Key) (s : DropdownMenuState) : DropdownMenuState :=
  let '(e1, s1) := triggerElementOnKeyDown p tp k freshEvent s in
  let s2 := step p (commit p s1) (DocKeyDown k) in
  if clicksButton k && negb (defaultPrevented e1) && negb (trigger_asChild tp)
  then clickTrigger p tp s2
  else s2.

(** *** Notions used to state the properties of dismissal *)

(** The menu's listeners on [document] are the two dismissal listeners
    when it is open and none when it is closed. *)
Definition listenersMatchOpen (p : DropdownMenuProps) (s : DropdownMenuState)
  : Prop :=
  docListeners s = if open p s then [OnMouseDown; OnKeyDown] else [].

(** The listeners on [document] are those the last run of the dismissal
    effect left there. *)
Definition coherent (s : DropdownMenuState) : Prop :=
  docListeners s = match effectOpen s with
                   | Some true => [OnMouseDown; OnKeyDown]
                   | _ => []
                   end.

(** What an event handler may change: the open state, the focus and the
    notifications, never the effect bookkeeping. *)
Definition keepsEffects (h : DropdownMenuState -> DropdownMenuState) : Prop :=
  forall s, mounted (h s) = mounted s
            /\ triggerRef (h s) = triggerRef s
            /\ effectOpen (h s) = effectOpen s
            /\ docListeners (h s) = docListeners s.

(** A click outside both elements, as an event. *)
Definition clickOutside (p : DropdownMenuProps) (s : DropdownMenuState)
  : DropdownMenuState :=
  step p s (DocMouseDown Outside).

(** An Escape key press, as an event. *)
Definition pressEscape (p : DropdownMenuProps) (s : DropdownMenuState)
  : DropdownMenuState :=
  step p s (DocKeyDown Js.Escape).

(** A state as it stands between events: every effect has run. *)
Definition settled (p : DropdownMenuProps) (s : DropdownMenuState) : Prop :=
  mounted s = true
  /\ effectOpen s = Some (open p s)
  /\ listenersMatchOpen p s.

End DropdownMenu.

(** ** Empty-state flag of the palette ([CommandEmpty]) *)

Module CommandEmpty.

Local Open Scope Z_scope.

(** The scheduled callback is [checkEmpty], closed over the [search] of
    the render that scheduled it. *)
Inductive Callback : Type := CheckEmpty (search : string).

(** [isEmpty], the handle of the effect's timeout, the timers. *)
Record CommandEmptyState : Type := {
  isEmpty : bool;
  timeout : option positive;
  timers : Timers.queue Callback
}.

Definition initial : CommandEmptyState :=
  {| isEmpty := false; timeout := None; timers := Timers.empty |}.

(** The effect on [[search, items]] when [search] becomes [q]: the cleanup
    of the previous run clears its timeout, then [checkEmpty] is scheduled
    10 ms ahead. *)
Definition searchEffect (q : string) (s : CommandEmptyState)
  : CommandEmptyState :=
  let q0 := match timeout s with
            | Some id => Timers.clearTimeout id (timers s)
            | None => timers s
            end in
  let '(id, q1) := Timers.setTimeout (CheckEmpty q) 10 q0 in
  {| isEmpty := isEmpty s; timeout := Some id; timers := q1 |}.

(** A fired [checkEmpty] reads the registry [arr] as it is then. *)
Definition runCallback (p : Command.CommandProps)
    (arr : list (option Command.CommandItemProps))
    (s : CommandEmptyState) (cb : Callback) : CommandEmptyState :=
  match cb with
  | CheckEmpty q =>
      {| isEmpty := Command.checkEmpty p q arr;
         timeout := timeout s;
         timers := timers s |}
  end.

(** [dt] milliseconds pass with no change of [search]. *)
Definition elapse (p : Command.CommandProps)
    (arr : list (option Command.CommandItemProps))
    (dt : Z) (s : CommandEmptyState) : CommandEmptyState :=
  let '(fired, q) := Timers.elapse dt (timers s) in
  fold_left (runCallback p arr)
    fired
    {| isEmpty := isEmpty s; timeout := timeout s; timers := q |}.

(** The only timer that may be pending is the one [timeout] names. *)
Definition ownsTimers (s : CommandEmptyState) : Prop :=
  forall t, In t (Timers.pending (timers s)) -> timeout s = Some (Timers.tid t).

(** What happens to a mounted [CommandEmpty]: [search] becomes [q] and
    the effect runs, or [dt] milliseconds pass while the registry holds
    [arr]. *)
Inductive Event : Type :=
| Search (q : string)
| Wait (dt : Z) (arr : list (option Command.CommandItemProps)).

Definition step (p : Command.CommandProps) (s : CommandEmptyState)
    (e : Event) : CommandEmptyState :=
  match e with
  | Search q => searchEffect q s
  | Wait dt arr => elapse p arr dt s
  end.

Definition run (p : Command.CommandProps) (es : list Event)
  : CommandEmptyState :=
  fold_left (step p) es initial.


End CommandEmpty.

(** ** Progress bar ([Progress]) and class names ([cn]) *)

Module Progress.

Local Open Scope Q_scope.

(** [percentage]. *)
Definition percentage (value max : Q) : Q :=
  Qmin (Qmax ((value / max) * 100) 0) 100.

(** The indicator is shifted left by [100 - percentage] percent. *)
Definition translateX (value max : Q) : Q := 100 - percentage value max.

(** An argument of [cn]: [None] is [undefined], [null] or [false]. *)
Definition ClassValue : Type := option string.

(** [Boolean(c)]. *)
Definition truthy (c : ClassValue) : bool :=
  match c with
  | Some s => Js.truthy_string s
  | None => false
  end.

(** [classes.filter(Boolean)], as the strings that remain. *)
Fixpoint keepTruthy (classes : list ClassValue) : list string :=
  match classes with
  | [] => []
  | c :: rest =>
      match c with
      | Some s => if Js.truthy_string s then s :: keepTruthy rest
                  else keepTruthy rest
      | None => keepTruthy rest
      end
  end.

(** [cn(...classes)]. *)
Definition cn (classes : list ClassValue) : string :=
  Js.join " " (keepTruthy classes).

End Progress.

(** ** Group visibility of the palette ([CommandGroup]) *)

Module CommandGroup.

Local Open Scope Z_scope.

(** The scheduled callback is [checkVisibility]. *)
Inductive Callback : Type := CheckVisibility.

(** [hasVisibleItems], the handle of the timeout whose cleanup is
    registered, the timers. *)
Record CommandGroupState : Type := {
  hasVisibleItems : bool;
  timeout : option positive;
  timers : Timers.queue Callback
}.

Definition initial : CommandGroupState :=
  {| hasVisibleItems := true; timeout := None; timers := Timers.empty |}.

(** The effect on [[search]] when [search] becomes [q]: the cleanup of the
    previous run, if it registered one, clears its timeout; an empty
    query shows the group at once and registers no cleanup; any other
    query schedules [checkVisibility] 10 ms ahead. *)
Definition searchEffect (q : string) (s : CommandGroupState)
  : CommandGroupState :=
  let q0 := match timeout s with
            | Some id => Timers.clearTimeout id (timers s)
            | None => timers s
            end in
  if (String.length q =? 0)%nat then
    {| hasVisibleItems := true; timeout := None; timers := q0 |}
  else
    let '(id, q1) := Timers.setTimeout CheckVisibility 10 q0 in
    {| hasVisibleItems := hasVisibleItems s; timeout := Some id; timers := q1 |}.

(** [checkVisibility]: [group] lists the [CommandItem]s below the group's
    element; their [hidden] attributes are those of the render under the
    current query [q]. *)
Definition checkVisibility (p : Command.CommandProps) (q : string)
    (group : list Command.CommandItemProps) : bool :=
  (0 <? List.length
          (List.filter (fun it => negb (negb (Command.isVisible p q it))) group))%nat.

Definition runCallback (p : Command.CommandProps) (q : string)
    (group : list Command.CommandItemProps)
    (s : CommandGroupState) (cb : Callback) : CommandGroupState :=
  match cb with
  | CheckVisibility =>
      {| hasVisibleItems := checkVisibility p q group;
         timeout := timeout s;
         timers := timers s |}
  end.

(** [dt] milliseconds pass with no change of [search]. *)
Definition elapse (p : Command.CommandProps) (q : string)
    (group : list Command.CommandItemProps)
    (dt : Z) (s : CommandGroupState) : CommandGroupState :=
  let '(fired, q1) := Timers.elapse dt (timers s) in
  fold_left (runCallback p q group)
    fired
    {| hasVisibleItems := hasVisibleItems s; timeout := timeout s; timers := q1 |}.

(** The only timer that may be pending is the one [timeout] names. *)
Definition ownsTimers (s : CommandGroupState) : Prop :=
  forall t, In t (Timers.pending (timers s)) -> timeout s = Some (Timers.tid t).

End CommandGroup.

(** ** Collapsible ([Collapsible], [CollapsibleTrigger],
       [CollapsibleContent]) *)

Module Collapsible.

Local Open Scope Z_scope.

Record CollapsibleProps : Type := {
  controlledOpen : option bool;
  defaultOpen : bool;
  disabled : bool
}.

(** [uncontrolledOpen] and the arguments [onOpenChange] has received. *)
Record CollapsibleState : Type := {
  uncontrolledOpen : bool;
  notified : list bool
}.

Definition initial (p : CollapsibleProps) : CollapsibleState :=
  {| uncontrolledOpen := defaultOpen p; notified := [] |}.

Definition isControlled (p : CollapsibleProps) : bool :=
  match controlledOpen p with Some _ => true | None => false end.

Definition open (p : CollapsibleProps) (s : CollapsibleState) : bool :=
  match controlledOpen p with
  | Some b => b
  | None => uncontrolledOpen s
  end.

(** [setOpen(value)]. *)
Definition setOpen (p : CollapsibleProps) (value : bool) (s : CollapsibleState)
  : CollapsibleState :=
  if disabled p then s
  else {| uncontrolledOpen :=
            if isControlled p then uncontrolledOpen s else value;
          notified := notified s ++ [value] |}.

(** Props of [CollapsibleTrigger] that matter for a click; [asChild]
    stands for [asChild && React.isValidElement(children)]. *)
Record TriggerProps : Type := {
  asChild : bool;
  onClick : option DropdownMenu.Handler
}.

(** [CollapsibleTrigger]'s [handleClick]. *)
Definition handleClick (p : CollapsibleProps) (tp : TriggerProps)
    (e : DropdownMenu.SyntheticEvent) (s : CollapsibleState)
  : DropdownMenu.SyntheticEvent * CollapsibleState :=
  let e1 := match onClick tp with Some f => f e | None => e end in
  if negb (DropdownMenu.defaultPrevented e1)
  then (e1, setOpen p (negb (open p s)) s)
  else (e1, s).

(** The [onClick] the rendered trigger ends up with: the cloned child
    gets [handleClick]; the component's own button is written
    [onClick={handleClick} {...props}], so an [onClick] among the props
    takes its place. *)
Definition elementOnClick (p : CollapsibleProps) (tp : TriggerProps)
    (e : DropdownMenu.SyntheticEvent) (s : CollapsibleState)
  : DropdownMenu.SyntheticEvent * CollapsibleState :=
  if asChild tp then handleClick p tp e s
  else match onClick tp with
       | Some f => (f e, s)
       | None => handleClick p tp e s
       end.

(** A click on the trigger. *)
Definition click (p : CollapsibleProps) (tp : TriggerProps)
    (s : CollapsibleState) : CollapsibleState :=
  snd (elementOnClick p tp DropdownMenu.freshEvent s).

(** *** The content and its height animation *)

(** The two timeouts of the layout effect. *)
Inductive Callback : Type := OpenDone | CloseDone.

(** The two nested [requestAnimationFrame] callbacks of a close. *)
Inductive FrameCallback : Type := OuterFrame | InnerFrame.

(** [height] ([None] is [undefined]), [isAnimating], the timeout whose
    cleanup is registered, the timers, and the callbacks waiting for the
    next animation frame. *)
Record ContentState : Type := {
  height : option Q;
  isAnimating : bool;
  timer : option positive;
  timers : Timers.queue Callback;
  frames : list FrameCallback
}.

Definition initialContent : ContentState :=
  {| height := None; isAnimating := false; timer := None;
     timers := Timers.empty; frames := [] |}.

(** The content element exists unless the component returned [null]:
    [if (!open && !isAnimating && !forceMount) return null]. *)
Definition mounted (open forceMount : bool) (s : ContentState) : bool :=
  negb (negb open && negb (isAnimating s) && negb forceMount).

(** The layout effect on [[open]], run when [open] has just changed to the
    given value; [scrollHeight] is what the content element measures. The
    previous run's cleanup clears its timeout. [contentRef.current] is
    the element of the render just committed, which was made from the new
    [open] and the [isAnimating] held until now. *)
Definition layoutEffect (open forceMount : bool) (scrollHeight : Q)
    (s : ContentState) : ContentState :=
  let q0 := match timer s with
            | Some id => Timers.clearTimeout id (timers s)
            | None => timers s
            end in
  if negb (mounted open forceMount s) then
    {| height := height s; isAnimating := isAnimating s; timer := None;
       timers := q0; frames := frames s |}
  else if open then
    let '(id, q1) := Timers.setTimeout OpenDone 200 q0 in
    {| height := Some scrollHeight; isAnimating := true; timer := Some id;
       timers := q1; frames := frames s |}
  else
    let '(id, q1) := Timers.setTimeout CloseDone 200 q0 in
    {| height := Some scrollHeight; isAnimating := true; timer := Some id;
       timers := q1; frames := (frames s ++ [OuterFrame])%list |}.

(** One animation frame callback runs. *)
Definition runFrame (s : ContentState) (f : FrameCallback) : ContentState :=
  match f with
  | OuterFrame =>
      {| height := height s; isAnimating := isAnimating s; timer := timer s;
         timers := timers s; frames := (frames s ++ [InnerFrame])%list |}
  | InnerFrame =>
      {| height := Some 0%Q; isAnimating := isAnimating s; timer := timer s;
         timers := timers s; frames := frames s |}
  end.

(** An animation frame: the callbacks requested before it run; what they
    request waits for the next frame. *)
Definition animationFrame (s : ContentState) : ContentState :=
  fold_left runFrame (frames s)
    {| height := height s; isAnimating := isAnimating s; timer := timer s;
       timers := timers s; frames := [] |}.

(** A fired timeout runs. *)
Definition runCallback (s : ContentState) (cb : Callback) : ContentState :=
  match cb with
  | OpenDone =>
      {| height := None; isAnimating := false; timer := timer s;
         timers := timers s; frames := frames s |}
  | CloseDone =>
      {| height := height s; isAnimating := false; timer := timer s;
         timers := timers s; frames := frames s |}
  end.

(** [dt] milliseconds pass. *)
Definition elapse (dt : Z) (s : ContentState) : ContentState :=
  let '(fired, q) := Timers.elapse dt (timers s) in
  fold_left runCallback fired
    {| height := height s; isAnimating := isAnimating s; timer := timer s;
       timers := q; frames := frames s |}.

(** The [height] of the rendered element's style. *)
Inductive StyleHeight : Type :=
| HeightPx (h : Q)
| HeightUnset
| HeightAuto.

(** What [CollapsibleContent] renders: [None] when it returns [null],
    otherwise the style's height,
    [isAnimating ? height : open ? "auto" : 0]. *)
Definition render (open forceMount : bool) (s : ContentState)
  : option StyleHeight :=
  if negb (mounted open forceMount s) then None
  else Some (if isAnimating s
             then match height s with
                  | Some h => HeightPx h
                  | None => HeightUnset
                  end
             else if open then HeightAuto else HeightPx 0%Q).

(** No animation is running and nothing is scheduled. *)
Definition idle (s : ContentState) : Prop :=
  isAnimating s = false
  /\ Timers.pending (timers s) = []
  /\ frames s = [].

End Collapsible.

(** ** Blur-fade reveal ([BlurFade]) *)

Module BlurFade.

(** [isVisible] and whether the intersection observer is watching the
    element. *)
Record BlurFadeState : Type := {
  isVisible : bool;
  observing : bool
}.

(** The state after mounting: [useState(!inView)], and the effect starts
    observing only when [inView] is set and the element exists. *)
Definition mount (inView hasElement : bool) : BlurFadeState :=
  {| isVisible := negb inView; observing := inView && hasElement |}.

(** The observer's callback for an entry of the element. *)
Definition onEntry (s : BlurFadeState) (isIntersecting : bool)
  : BlurFadeState :=
  if observing s then
    if isIntersecting then {| isVisible := true; observing := false |} else s
  else s.

Definition run (s : BlurFadeState) (entries : list bool) : BlurFadeState :=
  fold_left onEntry entries s.

End BlurFade.

(** ** Concrete inputs used below *)

Module Examples.

Definition item (text : string) (isDisabled : bool) : Command.CommandItemProps :=
  {| Command.disabled := isDisabled;
     Command.value := None;
     Command.keywords := [];
     Command.children := Command.RString text |}.

Definition calendar := item "Calendar" false.
Definition mail := item "Mail" false.
Definition gmail := item "Gmail" false.
Definition disabledCalendar := item "Calendar" true.

(** [<Command>] with no props. *)
Definition defaultProps : Command.CommandProps :=
  {| Command.filter := None; Command.shouldFilter := true |}.

(** [<Command filter={() => false}>]. *)
Definition rejectAll : Command.CommandProps :=
  {| Command.filter := Some (fun _ _ => false); Command.shouldFilter := true |}.

(** A palette right after mounting two items. *)
Definition palette (first second : Command.CommandItemProps)
  : Command.CommandState :=
  Command.registerItem (Some second) 1
    (Command.registerItem (Some first) 0
       {| Command.search := ""; Command.selectedIndex := 0;
          Command.items := [] |}).

(** A palette whose items [Calendar], [Mail] and [Gmail] registered at
    mount, in that order. *)
Definition threeItems : list (option Command.CommandItemProps) :=
  [Some calendar; Some mail; Some gmail].

(** An uncontrolled [<Tooltip delayDuration={700}>], and an uncontrolled
    [<HoverCard>] with its default delays. *)
Definition tooltipProps : Tooltip.TooltipProps :=
  {| Tooltip.controlledOpen := None; Tooltip.defaultOpen := false;
     Tooltip.propDelayDuration := Some 700;
     Tooltip.providerDelayDuration := 0 |}.

Definition hoverCardProps : HoverCard.HoverCardProps :=
  {| HoverCard.controlledOpen := None; HoverCard.defaultOpen := false;
     HoverCard.openDelay := 700; HoverCard.closeDelay := 300 |}.

(** An uncontrolled [<DropdownMenu>] with a trigger, opened by a click
    on the trigger. *)
Definition menuProps : DropdownMenu.DropdownMenuProps :=
  {| DropdownMenu.controlledOpen := None; DropdownMenu.defaultOpen := false |}.

Definition openMenu : DropdownMenu.World :=
  {| DropdownMenu.menu :=
       DropdownMenu.run menuProps (DropdownMenu.mount menuProps true)
         [DropdownMenu.TriggerClick];
     DropdownMenu.calls := [] |}.

(** [<DropdownMenuTrigger>] with no handler props, and one with an
    [onClick]. *)
Definition plainTrigger : DropdownMenu.TriggerProps :=
  {| DropdownMenu.trigger_asChild := false;
     DropdownMenu.trigger_onClick := None;
     DropdownMenu.trigger_onKeyDown := None |}.

Definition triggerWithHandler : DropdownMenu.TriggerProps :=
  {| DropdownMenu.trigger_asChild := false;
     DropdownMenu.trigger_onClick := Some (fun e => e);
     DropdownMenu.trigger_onKeyDown := None |}.

(** [<DropdownMenuItem>] with no handler props. *)
Definition plainItem : DropdownMenu.DropdownMenuItemProps :=
  {| DropdownMenu.asChild := false;
     DropdownMenu.onClick := None;
     DropdownMenu.onKeyDown := None |}.

(** [<DropdownMenuItem onClick={...}>] whose handler leaves the event's
    default alone. *)
Definition itemWithHandler : DropdownMenu.DropdownMenuItemProps :=
  {| DropdownMenu.asChild := false;
     DropdownMenu.onClick := Some (fun e => e);
     DropdownMenu.onKeyDown := None |}.

(** The same, rendered through [asChild]. *)
Definition childItemWithHandler : DropdownMenu.DropdownMenuItemProps :=
  {| DropdownMenu.asChild := true;
     DropdownMenu.onClick := Some (fun e => e);
     DropdownMenu.onKeyDown := None |}.

End Examples.

(** * Properties *)

(** ** Strings *)

Section StringFacts.

Lemma length_zero_iff_empty (s : string) :
  (String.length s =? 0)%nat = true <-> s = "".
Proof.
  destruct s as [|c s]; simpl; split; intro H; try reflexivity; discriminate.
Qed.

Lemma prefix_occurs (pre s : string) :
  String.prefix pre s = true <-> exists post, s = pre ++ post.
Proof.
  revert pre; induction s as [|c s IH]; intros [|d pre]; simpl.
  - split; [exists ""; reflexivity | reflexivity].
  - split; [discriminate | intros [post H]; discriminate].
  - split; [exists (String c s); reflexivity | reflexivity].
  - destruct (ascii_dec d c) as [->|Hne].
    + rewrite IH. split; intros [post H]; exists post.
      * now rewrite H.
      * now injection H.
    + split; [discriminate|]. intros [post H]. injection H as H1 _.
      now elim Hne.
Qed.

Lemma includes_occursIn (s sub : string) :
  Js.includes s sub = true <-> Command.occursIn sub s.
Proof.
  unfold Command.occursIn.
  induction s as [|c s IH]; cbn [Js.includes].
  - destruct (String.prefix sub "") eqn:Hp.
    + split; [intros _|reflexivity].
      apply prefix_occurs in Hp as [post Hp]. exists "", post. exact Hp.
    + split; [discriminate|]. intros (pre & post & H).
      destruct pre; [|discriminate]. simpl in H.
      assert (String.prefix sub "" = true) as Hp'
        by (apply prefix_occurs; now exists post).
      congruence.
  - destruct (String.prefix sub (String c s)) eqn:Hp.
    + split; [intros _|reflexivity].
      apply prefix_occurs in Hp as [post Hp]. exists "", post. exact Hp.
    + rewrite IH. split; intros (pre & post & H).
      * exists (String c pre), post. simpl. now rewrite H.
      * destruct pre as [|d pre]; simpl in H.
        -- assert (String.prefix sub (String c s) = true) as Hp'
             by (apply prefix_occurs; now exists post).
           congruence.
        -- injection H as _ H. now exists pre, post.
Qed.

Lemma includes_empty (s : string) : Js.includes s "" = true.
Proof. apply includes_occursIn. now exists "", s. Qed.

Lemma toLowerCase_empty_iff (s : string) :
  Js.toLowerCase s = "" <-> s = "".
Proof. destruct s; simpl; split; intro H; try reflexivity; discriminate. Qed.

End StringFacts.

(** ** Visibility of the palette's items *)

Section Visibility.

Variable p : Command.CommandProps.

Lemma isVisible_iff (q : string) (it : Command.CommandItemProps) :
  Command.isVisible p q it = true
  <-> q = "" \/ Command.activeFilter p (Command.allSearchableText it) q = true.
Proof.
  unfold Command.isVisible.
  destruct (String.length q =? 0)%nat eqn:Hq.
  - apply length_zero_iff_empty in Hq. tauto.
  - split; [now right|]. intros [->|H]; [discriminate|exact H].
Qed.

Lemma in_visibleItems (q : string) (arr : list (option Command.CommandItemProps))
    (it : Command.CommandItemProps) :
  In it (Command.visibleItems p q arr)
  <-> In (Some it) arr /\ Command.isVisible p q it = true.
Proof.
  induction arr as [|[x|] arr IH]; simpl.
  - tauto.
  - destruct (Command.isVisible p q x) eqn:Hx; simpl; rewrite IH.
    + split.
      * intros [->|[H1 H2]]; auto.
      * intros [[H|H] Hv]; [injection H as ->; now left | now right].
    + split.
      * intros [H1 H2]; auto.
      * intros [[H|H] Hv]; [injection H as ->; congruence | now split].
  - rewrite IH. split.
    + intros [H1 H2]; auto.
    + intros [[H|H] Hv]; [discriminate | now split].
Qed.

(** The list of visible items is empty exactly when every registered
    item is hidden. *)
Lemma visibleItems_nil_iff (q : string)
    (arr : list (option Command.CommandItemProps)) :
  Command.visibleItems p q arr = []
  <-> forall it, In (Some it) arr -> Command.isVisible p q it = false.
Proof.
  split.
  - intros Hnil it Hin.
    destruct (Command.isVisible p q it) eqn:Hvis; [|reflexivity].
    assert (In it (Command.visibleItems p q arr)) as Hit
      by (apply in_visibleItems; now split).
    rewrite Hnil in Hit. destruct Hit.
  - intros Hall. destruct (Command.visibleItems p q arr) as [|it l] eqn:Hv;
      [reflexivity|].
    assert (In it (Command.visibleItems p q arr)) as Hit
      by (rewrite Hv; now left).
    apply in_visibleItems in Hit as [Hin Hvis].
    rewrite (Hall it Hin) in Hvis. discriminate.
Qed.

Lemma visibleItems_empty_query (arr : list (option Command.CommandItemProps)) :
  Command.visibleItems p "" arr = Command.presentItems arr.
Proof.
  induction arr as [|[x|] arr IH]; simpl; try rewrite IH; reflexivity.
Qed.

Lemma defaultFilter_spec (v q : string) :
  Command.defaultFilter true v q = true
  <-> Command.occursIn (Js.toLowerCase q) (Js.toLowerCase v).
Proof.
  unfold Command.defaultFilter. simpl.
  destruct (String.length q =? 0)%nat eqn:Hq.
  - apply length_zero_iff_empty in Hq. subst q. simpl.
    split; [intros _|reflexivity]. now exists "", (Js.toLowerCase v).
  - apply includes_occursIn.
Qed.

End Visibility.

(** C1 (as amended): after [setQuery q] a registered item is visible
    exactly when [q] is empty or the active predicate accepts the item's
    [searchableText] joined with its keywords against [q]. The default
    predicate (with [shouldFilter] on) accepts exactly when the lower-cased
    query occurs in the lower-cased text, which includes every empty query.
    A caller's predicate takes the place of the default one, yet under the
    empty query every item stays visible whatever that predicate says. *)
Theorem C1_visible_after_setQuery :
  forall (p : Command.CommandProps) (q : string) (st : Command.CommandState)
         (it : Command.CommandItemProps),
    In (Some it) (Command.items st) ->
    let st' := Command.setQuery q st in
    (In it (Command.visibleItems p (Command.search st') (Command.items st'))
     <-> q = "" \/ Command.activeFilter p (Command.allSearchableText it) q = true)
    /\ (Command.filter p = None -> Command.shouldFilter p = true ->
        forall v, Command.activeFilter p v q = true
                  <-> Command.occursIn (Js.toLowerCase q) (Js.toLowerCase v))
    /\ (forall f, Command.filter p = Some f -> Command.activeFilter p = f)
    /\ (q = "" -> Command.isVisible p (Command.search st') it = true).
Proof.
  intros p q st it Hin st'. cbn [st' Command.setQuery Command.search Command.items].
  repeat split.
  - intros H. apply in_visibleItems in H as [_ H]. now apply isVisible_iff.
  - intros H. apply in_visibleItems. split; [exact Hin|]. now apply isVisible_iff.
  - unfold Command.activeFilter in *. rewrite H, H0 in *.
    now apply defaultFilter_spec.
  - unfold Command.activeFilter. rewrite H, H0. now apply defaultFilter_spec.
  - intros f Hf. unfold Command.activeFilter. now rewrite Hf.
  - intros ->. reflexivity.
Qed.

Lemma C1_visible_after_setQuery_witness :
  In Examples.mail
     (Command.visibleItems Examples.defaultProps "ma"
        (Command.items (Examples.palette Examples.calendar Examples.mail)))
  <-> "ma" = ""
      \/ Command.activeFilter Examples.defaultProps
           (Command.allSearchableText Examples.mail) "ma" = true.
Proof.
  exact (proj1 (C1_visible_after_setQuery Examples.defaultProps "ma"
                  (Examples.palette Examples.calendar Examples.mail)
                  Examples.mail
                  (or_intror (or_introl eq_refl)))).
Defined.

(** C1 as stated fails: under a caller predicate that rejects everything,
    the empty query leaves [Calendar] visible although the predicate does
    not accept it. *)
Lemma C1_counterexample :
  let st' := Command.setQuery "" (Examples.palette Examples.calendar Examples.mail) in
  ~ (In Examples.calendar
        (Command.visibleItems Examples.rejectAll (Command.search st')
           (Command.items st'))
     <-> Command.activeFilter Examples.rejectAll
           (Command.allSearchableText Examples.calendar) "" = true).
Proof.
  cbv zeta. intros [H _].
  assert (In Examples.calendar
            (Command.visibleItems Examples.rejectAll ""
               (Command.items (Examples.palette Examples.calendar Examples.mail))))
    as Hin by (simpl; now left).
  specialize (H Hin). discriminate H.
Qed.

(** ** Overlay geometry *)

Section Geometry.

Local Open Scope Q_scope.

Import Overlay.

Ltac unfold_resolve :=
  cbv [resolvePosition tooltipPosition dropdownPosition hoverCardPosition
       resolveWith alignLeftRight alignTopBottom sideSwitch isTopBottom
       isLeftRight centeredTop triggerTop pos_top pos_left right bottom].

(** The three components compute the same position from the same
    measurements. *)
Lemma resolvePosition_component_independent
    (c : Component) (trigger content : Rect) (side : Side) (align : Align)
    (sideOffset : Q) :
  resolvePosition c trigger content side align sideOffset
  = resolvePosition TooltipC trigger content side align sideOffset.
Proof. destruct c, side, align; reflexivity. Qed.

(** C2: for each of the three overlays and every trigger rectangle,
    content rectangle, side, align and offset, the resolved position puts
    the content before or after the trigger on the primary axis at
    distance [sideOffset] (top: [trigger.top - content.height - offset];
    bottom: [trigger.bottom + offset]; left:
    [trigger.left - content.width - offset]; right:
    [trigger.right + offset]); on the cross axis, start makes the content's
    near edge coincide with the trigger's, center makes the two midpoints
    coincide, end makes the far edges coincide. *)
Theorem C2_resolvePosition :
  forall (c : Component) (trigger content : Rect) (side : Side)
         (align : Align) (sideOffset : Q),
    let pos := resolvePosition c trigger content side align sideOffset in
    match side with
    | SideTop => pos_top pos == top trigger - height content - sideOffset
    | SideBottom => pos_top pos == bottom trigger + sideOffset
    | SideLeft => pos_left pos == left trigger - width content - sideOffset
    | SideRight => pos_left pos == right trigger + sideOffset
    end
    /\ match side, align with
       | (SideTop | SideBottom), AlignStart => pos_left pos == left trigger
       | (SideTop | SideBottom), AlignCenter =>
           pos_left pos + width content / 2 == left trigger + width trigger / 2
       | (SideTop | SideBottom), AlignEnd =>
           pos_left pos + width content == right trigger
       | (SideLeft | SideRight), AlignStart => pos_top pos == top trigger
       | (SideLeft | SideRight), AlignCenter =>
           pos_top pos + height content / 2 == top trigger + height trigger / 2
       | (SideLeft | SideRight), AlignEnd =>
           pos_top pos + height content == bottom trigger
       end.
Proof.
  intros c trigger content side align sideOffset pos. subst pos.
  destruct c, side, align; unfold_resolve; split;
    solve [reflexivity | ring | field].
Qed.

(** The primary-axis coordinate moves with the offset and the cross-axis
    coordinate does not depend on it. *)
Lemma resolvePosition_offset_cross_axis
    (c : Component) (trigger content : Rect) (side : Side) (align : Align)
    (o1 o2 : Q) :
  let p1 := resolvePosition c trigger content side align o1 in
  let p2 := resolvePosition c trigger content side align o2 in
  if isTopBottom side then pos_left p1 = pos_left p2
  else pos_top p1 = pos_top p2.
Proof. destruct c, side, align; reflexivity. Qed.

(** *** The positioning pass *)

(** The pass is skipped exactly when the overlay is closed or a ref is
    empty. *)
Lemma layoutEffect_skips (c : Component) (open : bool)
    (triggerRef contentRef : option Rect) (side : Side) (align : Align)
    (sideOffset : Q) (position : Position) :
  open = false \/ triggerRef = None \/ contentRef = None ->
  layoutEffect c open triggerRef contentRef side align sideOffset position
  = position.
Proof.
  unfold layoutEffect. intros [->|[->| ->]]; try reflexivity.
  - now destruct open.
  - destruct open; [|reflexivity]. now destruct triggerRef.
Qed.

(** C9 (as amended): the positioning pass is skipped, leaving the position
    as it was, when the overlay is closed or the trigger or content element
    is not mounted (its ref is empty). A mounted element that measures as
    an all-zero rectangle is not treated as missing: the pass runs on the
    zero measurements and stores the position computed from them, for
    every input. *)
Theorem C9_layoutEffect :
  forall (c : Component) (open : bool) (triggerRef contentRef : option Rect)
         (side : Side) (align : Align) (sideOffset : Q) (position : Position),
    (open = false \/ triggerRef = None \/ contentRef = None ->
     layoutEffect c open triggerRef contentRef side align sideOffset position
     = position)
    /\ (forall trigger content,
          triggerRef = Some trigger -> contentRef = Some content ->
          open = true ->
          layoutEffect c open triggerRef contentRef side align sideOffset position
          = resolvePosition c trigger content side align sideOffset)
    /\ layoutEffect c true (Some zeroRect) (Some zeroRect) side align sideOffset
         position
       = resolvePosition c zeroRect zeroRect side align sideOffset.
Proof.
  intros. split; [apply layoutEffect_skips|]. split; [|reflexivity].
  intros trigger content -> -> ->. reflexivity.
Qed.

Lemma C9_layoutEffect_witness :
  Overlay.layoutEffect Overlay.DropdownMenuC false (Some Overlay.zeroRect) None
    Overlay.SideBottom Overlay.AlignStart 4
    {| Overlay.pos_top := 0; Overlay.pos_left := 0 |}
  = {| Overlay.pos_top := 0; Overlay.pos_left := 0 |}.
Proof.
  apply (proj1 (C9_layoutEffect Overlay.DropdownMenuC false
                  (Some Overlay.zeroRect) None
                  Overlay.SideBottom Overlay.AlignStart 4
                  {| Overlay.pos_top := 0; Overlay.pos_left := 0 |})).
  left. reflexivity.
Defined.

(** C9 as stated fails: with the tooltip open and both elements mounted
    but measuring as all-zero rectangles, the pass is not skipped; for
    side top and offset 4 it moves the position from (0, 0) to top -4. *)
Lemma C9_counterexample :
  let before := {| pos_top := 0; pos_left := 0 |} in
  let after :=
    layoutEffect TooltipC true (Some zeroRect) (Some zeroRect)
                 SideTop AlignCenter 4 before in
  after <> before /\ pos_top after == -4.
Proof.
  cbv zeta. split.
  - intros H. apply (f_equal pos_top) in H. vm_compute in H. discriminate H.
  - vm_compute. reflexivity.
Qed.

End Geometry.

(** ** Scrollbar thumb *)

Section Thumb.

Local Open Scope Q_scope.

Import ScrollBar.

Lemma gt_true_iff (a b : Q) : gt a b = true <-> b < a.
Proof.
  unfold gt. rewrite negb_true_iff, <- not_true_iff_false, Qle_bool_iff.
  split; [apply Qnot_le_lt | apply Qlt_not_le].
Qed.

Lemma gt_false_iff (a b : Q) : gt a b = false <-> a <= b.
Proof.
  unfold gt. rewrite negb_false_iff, Qle_bool_iff. reflexivity.
Qed.

(** C6 (as amended): for every geometry with [contentSize > 0] the thumb
    size, as a fraction of the track, is
    [max(viewportSize / contentSize, 1/10)], and it is 0 when
    [contentSize <= 0]; the thumb position is
    [(scrollOffset / (contentSize - viewportSize)) * (trackSize - thumbSize)]
    on a track of size 100 when [contentSize > viewportSize] and 0
    otherwise; for [viewportSize = 100], [contentSize = 400],
    [scrollOffset = 150] the position is one half of the available track. *)
Theorem C6_thumb_geometry :
  forall (scrollOffset viewportSize contentSize : Q),
    (0 < contentSize ->
     thumbSize viewportSize contentSize / 100
     == Qmax (viewportSize / contentSize) (1 # 10))
    /\ (contentSize <= 0 -> thumbSize viewportSize contentSize == 0)
    /\ (viewportSize < contentSize ->
        thumbPosition scrollOffset viewportSize contentSize
        == (scrollOffset / (contentSize - viewportSize))
           * (100 - thumbSize viewportSize contentSize))
    /\ (contentSize <= viewportSize ->
        thumbPosition scrollOffset viewportSize contentSize == 0)
    /\ thumbPosition 150 100 400 / (100 - thumbSize 100 400) == 1 # 2.
Proof.
  intros s v c.
  split; [|split; [|split; [|split; [|vm_compute; reflexivity]]]].
  - intros Hc. unfold thumbSize.
    apply gt_true_iff in Hc. rewrite Hc.
    generalize (v / c). intros r.
    destruct (Q.max_spec (r * 100) 10) as [[Hlt ->]|[Hle ->]].
    + symmetry. etransitivity; [apply Q.max_r; lra | reflexivity].
    + symmetry. etransitivity; [apply Q.max_l; lra | field].
  - intros Hc. unfold thumbSize. apply gt_false_iff in Hc. rewrite Hc. reflexivity.
  - intros Hc. unfold thumbPosition. apply gt_true_iff in Hc. rewrite Hc. reflexivity.
  - intros Hc. unfold thumbPosition. apply gt_false_iff in Hc. rewrite Hc. reflexivity.
Qed.

Lemma C6_thumb_geometry_witness :
  thumbSize 100 400 / 100 == Qmax (100 / 400) (1 # 10)
  /\ thumbPosition 150 100 400
     == (150 / (400 - 100)) * (100 - thumbSize 100 400).
Proof.
  split.
  - apply (proj1 (C6_thumb_geometry 150 100 400)). reflexivity.
  - apply (proj1 (proj2 (proj2 (C6_thumb_geometry 150 100 400)))). reflexivity.
Defined.

(** C6 as stated fails: for the geometry with [viewportSize = 0] and
    [contentSize = 0] the thumb size is 0, which is below the floor of 10
    percent and differs from the maximum of anything with that floor. *)
Lemma C6_counterexample :
  thumbSize 0 0 == 0
  /\ ~ (10 <= thumbSize 0 0)
  /\ (forall x : Q, ~ (thumbSize 0 0 / 100 == Qmax x (1 # 10))).
Proof.
  split; [reflexivity|]. split.
  - vm_compute. intros H. apply H. reflexivity.
  - intros x H. pose proof (Q.le_max_r x (1 # 10)) as Hle.
    rewrite <- H in Hle. vm_compute in Hle. apply Hle. reflexivity.
Qed.

End Thumb.

(** ** Keyboard traversal of the palette *)

Section Traversal.

Import Command.

Variable p : CommandProps.

Lemma withSelected_same (st : CommandState) :
  withSelected (selectedIndex st) st = st.
Proof. destruct st; reflexivity. Qed.

Lemma visibleCount_withSelected (i : Z) (st : CommandState) :
  visibleCount p (withSelected i st) = visibleCount p st.
Proof. reflexivity. Qed.

Lemma visibleCount_nonneg (st : CommandState) : 0 <= visibleCount p st.
Proof. unfold visibleCount. lia. Qed.

Lemma arrowDown_withSelected (i : Z) (st : CommandState) :
  handleKeyDown p Js.ArrowDown (withSelected i st)
  = withSelected (if i + 1 >=? visibleCount p st then 0 else i + 1) st.
Proof. reflexivity. Qed.

(** [k] presses of ArrowDown from an index inside the visible list move
    it [k] places forward around the list. *)
Lemma iter_arrowDown (st : CommandState) (k : nat) :
  0 <= selectedIndex st < visibleCount p st ->
  Z.of_nat k <= visibleCount p st ->
  Nat.iter k (handleKeyDown p Js.ArrowDown) st
  = withSelected
      (if selectedIndex st + Z.of_nat k >=? visibleCount p st
       then selectedIndex st + Z.of_nat k - visibleCount p st
       else selectedIndex st + Z.of_nat k) st.
Proof.
  intros Hi. induction k as [|k IH]; intros Hk.
  - simpl Nat.iter. replace (selectedIndex st + Z.of_nat 0) with (selectedIndex st) by lia.
    destruct (Z.geb_spec (selectedIndex st) (visibleCount p st)); [lia|].
    symmetry. apply withSelected_same.
  - rewrite Nat.iter_succ, IH by lia. rewrite arrowDown_withSelected.
    f_equal.
    destruct (Z.geb_spec (selectedIndex st + Z.of_nat k) (visibleCount p st));
    repeat match goal with
           | |- context [?a >=? ?b] => destruct (Z.geb_spec a b)
           end; lia.
Qed.

Lemma visibleItems_app (q : string) (a b : list (option CommandItemProps)) :
  visibleItems p q (a ++ b) = (visibleItems p q a ++ visibleItems p q b)%list.
Proof.
  induction a as [|[x|] a IH]; simpl.
  - reflexivity.
  - destruct (isVisible p q x); simpl; now rewrite IH.
  - exact IH.
Qed.

Lemma firstVisible_head (q : string) (arr : list (option CommandItemProps))
    (it : CommandItemProps) :
  firstVisible p q arr it ->
  exists rest, visibleItems p q arr = it :: rest.
Proof.
  intros (pre & post & -> & Hpre & Hv).
  rewrite visibleItems_app, Hpre. simpl. rewrite Hv. eauto.
Qed.

End Traversal.

(** In every state whose selected index is a position of the list of the
    [N] visible items, as [handleKeyDown] reads it, ArrowDown at the last
    position gives the first, ArrowUp at the first gives the last, and [N]
    presses of ArrowDown bring the palette back to the state it started
    from. *)
Lemma arrowDown_cycle_in_visible_list :
  forall (p : Command.CommandProps) (st : Command.CommandState),
    let n := Command.visibleCount p st in
    0 <= Command.selectedIndex st < n ->
    (Command.selectedIndex st = n - 1 ->
     Command.selectedIndex (Command.handleKeyDown p Js.ArrowDown st) = 0)
    /\ (Command.selectedIndex st = 0 ->
        Command.selectedIndex (Command.handleKeyDown p Js.ArrowUp st) = n - 1)
    /\ (Command.selectedIndex st < n - 1 ->
        Command.selectedIndex (Command.handleKeyDown p Js.ArrowDown st)
        = Command.selectedIndex st + 1)
    /\ (0 < Command.selectedIndex st ->
        Command.selectedIndex (Command.handleKeyDown p Js.ArrowUp st)
        = Command.selectedIndex st - 1)
    /\ Nat.iter (Z.to_nat n) (Command.handleKeyDown p Js.ArrowDown) st = st
    /\ Command.enterTarget p
         (Nat.iter (Z.to_nat n) (Command.handleKeyDown p Js.ArrowDown) st)
       = Command.enterTarget p st.
Proof.
  intros p st n Hi.
  assert (Nat.iter (Z.to_nat n) (Command.handleKeyDown p Js.ArrowDown) st = st)
    as Hcycle.
  { rewrite iter_arrowDown by (fold n; lia). fold n.
    rewrite Z2Nat.id by lia.
    destruct (Z.geb_spec (Command.selectedIndex st + n) n); [|lia].
    replace (Command.selectedIndex st + n - n) with (Command.selectedIndex st)
      by lia.
    apply withSelected_same. }
  repeat split.
  - intros H. cbn. fold n.
    destruct (Z.geb_spec (Command.selectedIndex st + 1) n); [reflexivity|lia].
  - intros H. cbn. fold n. rewrite H. reflexivity.
  - intros H. cbn. fold n.
    destruct (Z.geb_spec (Command.selectedIndex st + 1) n); [lia|reflexivity].
  - intros H. cbn. fold n.
    destruct (Z.ltb_spec (Command.selectedIndex st - 1) 0); [lia|reflexivity].
  - exact Hcycle.
  - now rewrite Hcycle.
Qed.

(** C7 on the code: the keys treat the selected index as a position among
    the visible items, while an item compares it with its registration
    index ([isSelected]) and the pointer stores the registration index
    ([handleMouseEnter]). With [Calendar], [Mail] and [Gmail] registered
    in that order and the query "mail", two items are visible. Hovering
    [Gmail] selects it, with index 2. After two presses of ArrowDown, the
    number of visible items, the index is 1: the item shown as selected is
    [Mail] and no longer [Gmail], while [Enter] would click [Gmail]. *)
Theorem C7_cycle_after_hover_diverges :
  let p := Examples.defaultProps in
  let st0 := Command.hover p 2
               (Command.setQuery "mail" (Command.initial Examples.threeItems)) in
  let st2 := Nat.iter 2 (Command.handleKeyDown p Js.ArrowDown) st0 in
  Command.visibleItems p (Command.search st0) (Command.items st0)
  = [Examples.mail; Examples.gmail]
  /\ Command.selectedIndex st0 = 2
  /\ Command.highlighted false p st0 Examples.gmail
  /\ Command.selectedIndex st2 = 1
  /\ Command.highlighted false p st2 Examples.mail
  /\ ~ Command.highlighted false p st2 Examples.gmail
  /\ Command.enterTarget p st2 = Some Examples.gmail.
Proof.
  cbv zeta. split; [reflexivity|]. split; [reflexivity|].
  split; [exists 2; split; reflexivity|]. split; [reflexivity|].
  split; [exists 1; split; reflexivity|]. split; [|reflexivity].
  intros (i & Hget & Hs).
  unfold Command.isSelected in Hs. apply andb_prop in Hs as [Hi _].
  change ((1 =? i) = true) in Hi. apply Z.eqb_eq in Hi. subst i.
  vm_compute in Hget. discriminate Hget.
Qed.

(** ** Selection bookkeeping of the palette *)

Section SelectionInvariant.

Import Command.

Variable p : CommandProps.

Lemma visibleItems_all (q : string) (vis : list CommandItemProps) :
  (forall it, In it vis -> isVisible p q it = true) ->
  visibleItems p q (map Some vis) = vis.
Proof.
  induction vis as [|x vis IH]; cbn; intros Hall; [reflexivity|].
  rewrite (Hall x) by now left. f_equal. apply IH.
  intros it Hin. apply Hall. now right.
Qed.

Lemma visiblePrefix_visibleItems (q : string) (vis : list CommandItemProps)
    (rest : list (option CommandItemProps)) :
  (forall it, In it vis -> isVisible p q it = true) ->
  (forall it, In (Some it) rest -> isVisible p q it = false) ->
  visibleItems p q (map Some vis ++ rest) = vis.
Proof.
  intros Hall Hrest. apply visibleItems_nil_iff in Hrest.
  now rewrite visibleItems_app, visibleItems_all, Hrest, app_nil_r.
Qed.

(** Inside the leading visible entries the registry and the list of
    visible items hold the same item at the same index. *)
Lemma array_item_prefix (vis : list CommandItemProps)
    (rest : list (option CommandItemProps)) (i : Z) :
  0 <= i < Z.of_nat (List.length vis) ->
  Js.array_item (map Some vis ++ rest) i = Js.array_get vis i.
Proof.
  intros Hi. unfold Js.array_item, Js.array_get.
  destruct (Z.ltb_spec i 0); [lia|].
  rewrite nth_error_app1 by (rewrite length_map; lia).
  rewrite nth_error_map.
  now destruct (nth_error vis (Z.to_nat i)).
Qed.

(** A visible item of the registry sits among the leading entries. *)
Lemma visible_item_in_prefix (q : string) (vis : list CommandItemProps)
    (rest : list (option CommandItemProps)) (i : Z) (it : CommandItemProps) :
  (forall it, In (Some it) rest -> isVisible p q it = false) ->
  Js.array_item (map Some vis ++ rest) i = Some it ->
  isVisible p q it = true ->
  0 <= i < Z.of_nat (List.length vis).
Proof.
  intros Hrest Hget Hvis. unfold Js.array_item, Js.array_get in Hget.
  destruct (Z.ltb_spec i 0); [discriminate|].
  destruct (Nat.ltb_spec (Z.to_nat i) (List.length vis)) as [Hlt|Hge]; [lia|].
  rewrite nth_error_app2 in Hget by (rewrite length_map; exact Hge).
  destruct (nth_error rest (Z.to_nat i - List.length (map Some vis)))
    as [[x|]|] eqn:Hnth; try discriminate.
  injection Hget as ->.
  apply nth_error_In in Hnth. rewrite (Hrest it Hnth) in Hvis. discriminate.
Qed.

Lemma interact_keeps_items (st : CommandState) (e : Interaction) :
  items (interact p st e) = items st.
Proof.
  destruct e as [k|q|i]; [destruct k; reflexivity|reflexivity|].
  cbn. unfold hover.
  destruct (Js.array_item (items st) i) as [it|]; [|reflexivity].
  destruct (isVisible p (search st) it); [|reflexivity].
  unfold handleMouseEnter. now destruct (disabled it).
Qed.

(** Where the visible items lead the registry, no interaction takes the
    selected index out of the list of visible items. *)
Lemma interact_keeps_position (st : CommandState) (e : Interaction) :
  (visiblePrefix p st -> 1 <= visibleCount p st ->
   0 <= selectedIndex st < visibleCount p st) ->
  visiblePrefix p (interact p st e) -> 1 <= visibleCount p (interact p st e) ->
  0 <= selectedIndex (interact p st e) < visibleCount p (interact p st e).
Proof.
  intros IH Hpre Hn. destruct e as [k|q|i].
  - assert (visibleCount p (interact p st (Key k)) = visibleCount p st) as Hc
      by (destruct k; reflexivity).
    assert (visiblePrefix p st) as Hpre0 by (destruct k; exact Hpre).
    rewrite Hc in *. specialize (IH Hpre0 Hn).
    destruct k; cbn; try exact IH;
      repeat match goal with
             | |- context [?a >=? ?b] => destruct (Z.geb_spec a b)
             | |- context [?a <? ?b] => destruct (Z.ltb_spec a b)
             end; lia.
  - cbn in *. lia.
  - cbn in *. unfold hover in *.
    destruct (Js.array_item (items st) i) as [it|] eqn:Hget; [|now apply IH].
    destruct (isVisible p (search st) it) eqn:Hvis; [|now apply IH].
    unfold handleMouseEnter in *.
    destruct (disabled it); [now apply IH|].
    destruct Hpre as (vis & rest & Hitems & Hall & Hrest). cbn in *.
    unfold visibleCount. cbn. rewrite Hitems in *.
    rewrite (visiblePrefix_visibleItems _ _ _ Hall Hrest).
    exact (visible_item_in_prefix _ _ _ _ _ Hrest Hget Hvis).
Qed.

Lemma interactions_keep_position (arr : list (option CommandItemProps))
    (es : list Interaction) :
  let st := interactions p (initial arr) es in
  visiblePrefix p st -> 1 <= visibleCount p st ->
  0 <= selectedIndex st < visibleCount p st.
Proof.
  unfold interactions. induction es as [|e es IH] using rev_ind.
  - cbn. intros _ Hn. cbn in Hn. lia.
  - rewrite fold_left_app. cbn [fold_left]. now apply interact_keeps_position.
Qed.

(** Where the visible items lead the registry, an index inside the list
    of visible items names one item, whichever way it is read. *)
Lemma position_selects (st : CommandState) :
  visiblePrefix p st ->
  0 <= selectedIndex st < visibleCount p st ->
  exists it, selects p st it.
Proof.
  intros (vis & rest & Hitems & Hall & Hrest) Hi.
  unfold visibleCount in Hi. unfold selects, enterTarget.
  rewrite Hitems in *.
  rewrite (visiblePrefix_visibleItems _ _ _ Hall Hrest) in *.
  rewrite (array_item_prefix vis rest _ Hi).
  unfold Js.array_get. destruct (Z.ltb_spec (selectedIndex st) 0); [lia|].
  destruct (nth_error vis (Z.to_nat (selectedIndex st))) as [it|] eqn:Hnth.
  - exists it. split; [reflexivity|]. split; [|reflexivity].
    apply Hall. now apply nth_error_In in Hnth.
  - apply nth_error_None in Hnth. lia.
Qed.

End SelectionInvariant.

(** C3 (as amended): wherever an item's registration index is also its
    position among the visible items (the visible items lead the
    registry), the palette driven by keys, query changes and the pointer
    keeps this invariant: whenever at least one visible item exists, the
    selected index refers to a visible item. That item may be disabled: a
    disabled item is selected by the keys and by the reset like any
    other, and only its activation is suppressed. Whenever the query
    changes, the event that changes the visible set, the index is put at
    0, and this selects the first visible item whenever the first
    registered item is visible under the new query. *)
Theorem C3_selection_invariant :
  forall (p : Command.CommandProps)
         (arr : list (option Command.CommandItemProps))
         (es : list Command.Interaction),
    let st := Command.interactions p (Command.initial arr) es in
    (Command.visiblePrefix p st -> 1 <= Command.visibleCount p st ->
     exists it,
       Command.selects p st it
       /\ Command.activateSelected p st
          = (if Command.disabled it then None
             else Some (Command.searchableText it)))
    /\ (forall q, Command.selectedIndex (Command.setQuery q st) = 0
                  /\ Command.search (Command.setQuery q st) = q)
    /\ (forall q it,
          Js.array_item (Command.items st) 0 = Some it ->
          Command.isVisible p q it = true ->
          Command.selects p (Command.setQuery q st) it
          /\ Command.firstVisible p q (Command.items st) it).
Proof.
  intros p arr es st. split; [|split].
  - intros Hpre Hn.
    pose proof (interactions_keep_position p arr es Hpre Hn) as Hi.
    destruct (position_selects p st Hpre Hi) as (it & Hsel).
    exists it. split; [exact Hsel|].
    destruct Hsel as (_ & _ & Htarget).
    unfold Command.activateSelected. now rewrite Htarget.
  - intros q. split; reflexivity.
  - intros q it Hget Hvis.
    assert (exists post, Command.items st = Some it :: post) as [post Hitems].
    { unfold Js.array_item, Js.array_get in Hget. cbn in Hget.
      destruct (Command.items st) as [|[x|] post]; try discriminate.
      injection Hget as ->. now exists post. }
    assert (Command.firstVisible p q (Command.items st) it) as Hfirst
      by (exists [], post; auto).
    split; [|exact Hfirst]. split; [exact Hget|]. split; [exact Hvis|].
    destruct (firstVisible_head p q _ it Hfirst) as [rest Hrest].
    unfold Command.enterTarget. cbn. now rewrite Hrest.
Qed.

Lemma C3_selection_invariant_witness :
  exists it,
    Command.selects Examples.defaultProps
      (Command.interactions Examples.defaultProps
         (Command.initial [Some Examples.disabledCalendar; Some Examples.mail])
         [Command.Hover 1; Command.Key Js.ArrowDown]) it
    /\ Command.activateSelected Examples.defaultProps
         (Command.interactions Examples.defaultProps
            (Command.initial [Some Examples.disabledCalendar; Some Examples.mail])
            [Command.Hover 1; Command.Key Js.ArrowDown])
       = (if Command.disabled it then None
          else Some (Command.searchableText it)).
Proof.
  apply (proj1 (C3_selection_invariant Examples.defaultProps
                  [Some Examples.disabledCalendar; Some Examples.mail]
                  [Command.Hover 1; Command.Key Js.ArrowDown])).
  - exists [Examples.disabledCalendar; Examples.mail], [].
    split; [reflexivity|]. split; [|intros it []].
    intros it _. reflexivity.
  - vm_compute. discriminate.
Defined.

(** C3 as stated fails: with a disabled [Calendar] registered before an
    enabled [Mail], after [setQuery ""] a visible item that is not disabled
    exists, yet the selected index 0 refers to the disabled [Calendar]:
    [Enter] reads it so, a later render of the items reads it so, and a
    first render shows no item selected at all. *)
Lemma C3_counterexample :
  let st := Command.setQuery ""
              (Examples.palette Examples.disabledCalendar Examples.mail) in
  Command.hasEnabledVisible Examples.defaultProps st
  /\ ~ Command.refersToEnabledVisible Examples.defaultProps st.
Proof.
  cbv zeta. split.
  - exists Examples.mail. split; [simpl; auto | reflexivity].
  - intros (it & Hsel & _ & Hen).
    assert (it = Examples.disabledCalendar) as ->.
    { destruct Hsel as [([|] & i & Hget & Hs)|Htarget].
      - unfold Command.isSelected in Hs. apply andb_prop in Hs as [Hi _].
        discriminate Hi.
      - unfold Command.isSelected in Hs. apply andb_prop in Hs as [Hi _].
        change ((0 =? i) = true) in Hi. apply Z.eqb_eq in Hi. subst i.
        vm_compute in Hget. injection Hget as <-. reflexivity.
      - vm_compute in Htarget. injection Htarget as <-. reflexivity. }
    discriminate Hen.
Qed.

(** ** Empty-state flag *)

Section EmptyFlag.

Import CommandEmpty.

Lemma checkEmpty_iff (p : Command.CommandProps) (q : string)
    (arr : list (option Command.CommandItemProps)) :
  Command.checkEmpty p q arr = true
  <-> (0 < String.length q)%nat
      /\ List.length (Command.visibleItems p q arr) = 0%nat.
Proof.
  unfold Command.checkEmpty.
  destruct (String.length q =? 0)%nat eqn:Hq.
  - apply Nat.eqb_eq in Hq. rewrite Hq. simpl. split; [discriminate|lia].
  - apply Nat.eqb_neq in Hq.
    rewrite andb_true_iff, Nat.ltb_lt, Nat.eqb_eq. reflexivity.
Qed.







End EmptyFlag.




(** ** Timers *)

Section TimerFacts.

Context {A : Type}.

Lemma insertByDue_In (t x : Timers.timer A) (l : list (Timers.timer A)) :
  In x (Timers.insertByDue t l) <-> x = t \/ In x l.
Proof.
  induction l as [|u l IH]; simpl.
  - intuition congruence.
  - destruct (Timers.due t <=? Timers.due u); simpl.
    + intuition congruence.
    + rewrite IH. intuition congruence.
Qed.

Lemma sortByDue_In (x : Timers.timer A) (l : list (Timers.timer A)) :
  In x (Timers.sortByDue l) <-> In x l.
Proof.
  induction l as [|u l IH]; simpl.
  - tauto.
  - rewrite insertByDue_In, IH. intuition congruence.
Qed.

(** Every callback that fires belonged to a pending timer. *)
Lemma elapse_fired_pending (dt : Z) (q : Timers.queue A) (cb : A) :
  In cb (fst (Timers.elapse dt q)) ->
  exists t, In t (Timers.pending q) /\ Timers.callback t = cb.
Proof.
  cbn. rewrite in_map_iff. intros (t & Hcb & Hin).
  apply sortByDue_In, filter_In in Hin as [Hin _]. eauto.
Qed.

(** With nothing pending, time passes without any callback. *)
Lemma elapse_nothing_pending (dt : Z) (q : Timers.queue A) :
  Timers.pending q = [] ->
  Timers.elapse dt q
  = ([], {| Timers.now := Timers.now q + Z.max dt 0;
            Timers.nextId := Timers.nextId q;
            Timers.pending := [] |}).
Proof. unfold Timers.elapse. intros ->. reflexivity. Qed.

(** A single timer scheduled [d] ahead does not fire within [dt < d]. *)
Lemma elapse_single_early (cb : A) (d dt : Z) (q : Timers.queue A) :
  Timers.pending q = [] -> 0 < d -> dt < d ->
  let '(id, q1) := Timers.setTimeout cb d q in
  fst (Timers.elapse dt q1) = []
  /\ Timers.pending (snd (Timers.elapse dt q1))
     = [{| Timers.tid := id; Timers.due := Timers.now q + d;
           Timers.callback := cb |}]
  /\ Timers.nextId (snd (Timers.elapse dt q1)) = Pos.succ (Timers.nextId q).
Proof.
  intros Hq Hd Hdt. cbn. rewrite Hq. cbn.
  replace (Z.max d 0) with d by lia.
  replace (Timers.now q + d <=? Timers.now q + Z.max dt 0) with false
    by (symmetry; apply Z.leb_gt; lia).
  cbn. auto.
Qed.

End TimerFacts.

(** ** Timers of the hover card *)

Section HoverCardInvariant.

Import HoverCard.

Variable p : HoverCardProps.

Lemma clearRef_pending (r : option positive) (q : Timers.queue Callback)
    (t : Timers.timer Callback) :
  In t (Timers.pending (clearRef r q))
  <-> In t (Timers.pending q) /\ r <> Some (Timers.tid t).
Proof.
  destruct r as [id|]; cbn.
  - rewrite filter_In, negb_true_iff, Pos.eqb_neq. split.
    + intros [H1 H2]. split; [exact H1|]. intros H. injection H as H.
      apply H2. symmetry. exact H.
    + intros [H1 H2]. split; [exact H1|]. intros Heq. apply H2.
      now rewrite Heq.
  - split; [intros H; split; [exact H|discriminate] | tauto].
Qed.

Lemma clearRef_keeps_clock (r : option positive) (q : Timers.queue Callback) :
  Timers.now (clearRef r q) = Timers.now q
  /\ Timers.nextId (clearRef r q) = Timers.nextId q
  /\ (List.length (Timers.pending (clearRef r q))
      <= List.length (Timers.pending q))%nat.
Proof.
  destruct r as [id|]; cbn; repeat split; auto. apply filter_length_le.
Qed.

Lemma owned_cleared (s : HoverCardState) :
  timersOwned s ->
  Timers.pending
    (clearRef (closeTimeoutRef s) (clearRef (openTimeoutRef s) (timers s)))
  = [].
Proof.
  intros Hown.
  destruct (Timers.pending _) as [|t l] eqn:Hp; [reflexivity|].
  assert (In t (Timers.pending
                  (clearRef (closeTimeoutRef s)
                     (clearRef (openTimeoutRef s) (timers s)))))
    as Hin by (rewrite Hp; now left).
  apply clearRef_pending in Hin as [Hin Hc].
  apply clearRef_pending in Hin as [Hin Ho].
  destruct (Hown t Hin); contradiction.
Qed.

Lemma setOpen_invariant (v : bool) (s : HoverCardState) :
  timersOwned s -> oneOwnedTimer (setOpen p v s).
Proof.
  intros Hown. pose proof (owned_cleared s Hown) as Hclr.
  unfold setOpen, oneOwnedTimer, timersOwned.
  destruct v; cbn; rewrite Hclr; cbn; (split; [|lia]);
    intros t [<-|[]]; cbn; auto.
Qed.

Lemma cancelClose_invariant (s : HoverCardState) :
  oneOwnedTimer s -> oneOwnedTimer (cancelClose s).
Proof.
  intros [Hown Hlen]. unfold cancelClose, oneOwnedTimer, timersOwned. cbn.
  split.
  - intros t Hin. apply clearRef_pending in Hin as [Hin Hc].
    destruct (Hown t Hin); [now left|contradiction].
  - pose proof (clearRef_keeps_clock (closeTimeoutRef s) (timers s)). lia.
Qed.

Lemma fold_runCallback_keeps (cbs : list Callback) (s : HoverCardState) :
  let r := fold_left (runCallback p) cbs s in
  timers r = timers s
  /\ openTimeoutRef r = openTimeoutRef s
  /\ closeTimeoutRef r = closeTimeoutRef s.
Proof.
  revert s. induction cbs as [|[v] cbs IH]; intros s; cbn; [auto|].
  destruct (IH (runCallback p s (Apply v))) as (H1 & H2 & H3).
  cbn in *. auto.
Qed.

Lemma elapse_invariant (dt : Z) (s : HoverCardState) :
  oneOwnedTimer s -> oneOwnedTimer (elapse p dt s).
Proof.
  intros [Hown Hlen]. unfold elapse, oneOwnedTimer, timersOwned.
  cbn [Timers.elapse].
  match goal with
  | |- context [fold_left (runCallback p) ?cbs ?s0] =>
      destruct (fold_runCallback_keeps cbs s0) as (H1 & H2 & H3)
  end.
  cbn in H1, H2, H3. cbv zeta in *. rewrite H1, H2, H3. cbn. split.
  - intros t Hin. apply filter_In in Hin as [Hin _]. now apply Hown.
  - etransitivity; [apply filter_length_le|exact Hlen].
Qed.

Lemma step_invariant (s : HoverCardState) (e : Event) :
  oneOwnedTimer s -> oneOwnedTimer (step p s e).
Proof.
  intros Hs. destruct e; unfold step, handleMouseEnter, handleMouseLeave.
  - apply setOpen_invariant, Hs.
  - apply setOpen_invariant, Hs.
  - now apply cancelClose_invariant.
  - apply setOpen_invariant, Hs.
  - now apply elapse_invariant.
Qed.

Lemma run_invariant (es : list Event) :
  oneOwnedTimer (run p (initial p) es).
Proof.
  unfold run. induction es as [|e es IH] using rev_ind.
  - split; [intros t []|cbn; lia].
  - rewrite fold_left_app. cbn [fold_left]. now apply step_invariant.
Qed.

End HoverCardInvariant.

(** ** Delayed opening *)

Section DelayedOpen.

Lemma leb_early (now d t : Z) :
  0 < d -> t < d -> (now + Z.max d 0 <=? now + Z.max t 0) = false.
Proof. intros. apply Z.leb_gt. lia. Qed.

(** Tooltip: enter, wait less than the delay, leave, wait any time. *)
Lemma tooltip_enter_leave (p : Tooltip.TooltipProps) (s : Tooltip.TooltipState)
    (t t' : Z) :
  0 < Tooltip.delayDuration p ->
  t < Tooltip.delayDuration p ->
  Timers.pending (Tooltip.timers s) = [] ->
  let s1 := Tooltip.handleMouseEnter p s in
  let s2 := Tooltip.elapse p t s1 in
  let s3 := Tooltip.handleMouseLeave p s2 in
  let s4 := Tooltip.elapse p t' s3 in
  Tooltip.notified s1 = Tooltip.notified s
  /\ Tooltip.notified s2 = Tooltip.notified s
  /\ Tooltip.uncontrolledOpen s2 = Tooltip.uncontrolledOpen s
  /\ Timers.pending (Tooltip.timers s2) <> []
  /\ Timers.pending (Tooltip.timers s3) = []
  /\ Tooltip.notified s4 = (Tooltip.notified s ++ [false])%list
  /\ Tooltip.uncontrolledOpen s4
     = (if Tooltip.isControlled p then Tooltip.uncontrolledOpen s else false).
Proof.
  intros Hd Ht Hq.
  destruct s as [uo ref [now nid pend] notif]. cbn in Hq. subst pend.
  unfold Tooltip.handleMouseEnter.
  replace (Tooltip.delayDuration p >? 0) with true
    by (symmetry; apply Z.gtb_lt; lia).
  cbn. rewrite (leb_early now _ t Hd Ht). cbn.
  rewrite Pos.eqb_refl. cbn.
  repeat split; try reflexivity. discriminate.
Qed.

(** Hover card: the same sequence; the close that the leave schedules is
    the only callback that can still fire. *)
Lemma hoverCard_enter_leave (p : HoverCard.HoverCardProps)
    (s : HoverCard.HoverCardState) (t t' : Z) :
  0 < HoverCard.openDelay p ->
  t < HoverCard.openDelay p ->
  Timers.pending (HoverCard.timers s) = [] ->
  let s1 := HoverCard.handleMouseEnter p s in
  let s2 := HoverCard.elapse p t s1 in
  let s3 := HoverCard.handleMouseLeave p s2 in
  let s4 := HoverCard.elapse p t' s3 in
  HoverCard.notified s1 = HoverCard.notified s
  /\ HoverCard.notified s2 = HoverCard.notified s
  /\ HoverCard.uncontrolledOpen s2 = HoverCard.uncontrolledOpen s
  /\ Timers.pending (HoverCard.timers s2) <> []
  /\ (forall tm, In tm (Timers.pending (HoverCard.timers s3)) ->
                 Timers.callback tm = HoverCard.Apply false)
  /\ (exists l, HoverCard.notified s4 = (HoverCard.notified s ++ l)%list
                /\ ~ In true l)
  /\ (HoverCard.uncontrolledOpen s = false ->
      HoverCard.uncontrolledOpen s4 = false).
Proof.
  intros Hd Ht Hq.
  destruct s as [uo oref cref [now nid pend] notif]. cbn in Hq. subst pend.
  destruct oref as [o|], cref as [c|]; cbn;
    rewrite (leb_early now _ t Hd Ht); cbn;
    rewrite Pos.eqb_refl; cbn;
    (split; [reflexivity|]); (split; [reflexivity|]); (split; [reflexivity|]);
    (split; [discriminate|]);
    (split; [intros tm [<-|[]]; reflexivity|]);
    destruct (now + Z.max t 0 + Z.max (HoverCard.closeDelay p) 0
              <=? now + Z.max t 0 + Z.max t' 0); cbn;
    (split;
     [ first [ exists [false]; split; [reflexivity|]; intros [H|[]]; discriminate
             | exists []; split; [now rewrite app_nil_r|]; intros [] ]
     | intros ->; now destruct (HoverCard.isControlled p) ]).
Qed.

(** In a state whose pending timers are all named by the refs, [setOpen]
    acts as it does with nothing pending: it clears them first. *)
Lemma setOpen_owned (p : HoverCard.HoverCardProps) (v : bool)
    (s : HoverCard.HoverCardState) :
  HoverCard.timersOwned s ->
  HoverCard.setOpen p v s
  = HoverCard.setOpen p v
      {| HoverCard.uncontrolledOpen := HoverCard.uncontrolledOpen s;
         HoverCard.openTimeoutRef := None;
         HoverCard.closeTimeoutRef := None;
         HoverCard.timers :=
           {| Timers.now := Timers.now (HoverCard.timers s);
              Timers.nextId := Timers.nextId (HoverCard.timers s);
              Timers.pending := [] |};
         HoverCard.notified := HoverCard.notified s |}.
Proof.
  intros Hown. pose proof (owned_cleared s Hown) as Hclr.
  destruct (clearRef_keeps_clock (HoverCard.closeTimeoutRef s)
              (HoverCard.clearRef (HoverCard.openTimeoutRef s)
                 (HoverCard.timers s))) as (Hn1 & Hi1 & _).
  destruct (clearRef_keeps_clock (HoverCard.openTimeoutRef s)
              (HoverCard.timers s)) as (Hn2 & Hi2 & _).
  unfold HoverCard.setOpen. cbn [HoverCard.closeTimeoutRef
    HoverCard.openTimeoutRef HoverCard.timers HoverCard.clearRef
    HoverCard.uncontrolledOpen HoverCard.notified].
  remember (HoverCard.clearRef (HoverCard.closeTimeoutRef s)
              (HoverCard.clearRef (HoverCard.openTimeoutRef s)
                 (HoverCard.timers s))) as q0 eqn:Hq0.
  destruct q0 as [now nid pend]. cbn in Hclr, Hn1, Hi1.
  rewrite <- Hn2, <- Hi2, <- Hn1, <- Hi1, Hclr. reflexivity.
Qed.

(** Hover card, from any state in which the refs name every pending
    timer: the same sequence never opens the card. *)
Lemma hoverCard_enter_leave_owned (p : HoverCard.HoverCardProps)
    (s : HoverCard.HoverCardState) (t t' : Z) :
  0 < HoverCard.openDelay p ->
  t < HoverCard.openDelay p ->
  HoverCard.timersOwned s ->
  let s2 := HoverCard.elapse p t (HoverCard.handleMouseEnter p s) in
  let s3 := HoverCard.handleMouseLeave p s2 in
  let s4 := HoverCard.elapse p t' s3 in
  HoverCard.notified s2 = HoverCard.notified s
  /\ HoverCard.uncontrolledOpen s2 = HoverCard.uncontrolledOpen s
  /\ (forall tm, In tm (Timers.pending (HoverCard.timers s3)) ->
                 Timers.callback tm = HoverCard.Apply false)
  /\ (exists l, HoverCard.notified s4 = (HoverCard.notified s ++ l)%list
                /\ ~ In true l)
  /\ (HoverCard.uncontrolledOpen s = false ->
      HoverCard.uncontrolledOpen s4 = false).
Proof.
  intros Hd Ht Hown. unfold HoverCard.handleMouseEnter.
  rewrite (setOpen_owned p true s Hown).
  match goal with
  | |- context [HoverCard.setOpen p true ?s0] =>
      destruct (hoverCard_enter_leave p s0 t t' Hd Ht eq_refl)
        as (_ & H2 & H2' & _ & H3 & H4 & H5)
  end.
  exact (conj H2 (conj H2' (conj H3 (conj H4 H5)))).
Qed.

(** The same for every state the hover card reaches from its mount. *)
Lemma hoverCard_enter_leave_reachable (p : HoverCard.HoverCardProps)
    (es : list HoverCard.Event) (t t' : Z) :
  0 < HoverCard.openDelay p ->
  t < HoverCard.openDelay p ->
  let s := HoverCard.run p (HoverCard.initial p) es in
  let s4 := HoverCard.elapse p t'
              (HoverCard.handleMouseLeave p
                 (HoverCard.elapse p t (HoverCard.handleMouseEnter p s))) in
  (exists l, HoverCard.notified s4 = (HoverCard.notified s ++ l)%list
             /\ ~ In true l)
  /\ (HoverCard.uncontrolledOpen s = false ->
      HoverCard.uncontrolledOpen s4 = false).
Proof.
  intros Hd Ht s.
  destruct (run_invariant p es) as [Hown _].
  destruct (hoverCard_enter_leave_owned p s t t' Hd Ht Hown)
    as (_ & _ & _ & H4 & H5).
  split; assumption.
Qed.

(** Tooltip: a second enter before the first timer has fired leaves that
    timer without a handle. Whatever the delay, a leave that follows
    before the delay has elapsed does not cancel it, and the tooltip
    opens when it fires. *)
Lemma tooltip_reenter_leaks (p : Tooltip.TooltipProps) (t1 t2 : Z) :
  Tooltip.controlledOpen p = None ->
  0 < Tooltip.delayDuration p ->
  0 <= t1 -> 0 <= t2 -> t1 + t2 < Tooltip.delayDuration p ->
  let s2 := Tooltip.handleMouseEnter p
              (Tooltip.elapse p t1
                 (Tooltip.handleMouseEnter p (Tooltip.initial p))) in
  let s3 := Tooltip.handleMouseLeave p (Tooltip.elapse p t2 s2) in
  let s4 := Tooltip.elapse p (Tooltip.delayDuration p) s3 in
  Tooltip.open p s3 = false
  /\ Tooltip.open p s4 = true
  /\ Tooltip.notified s4 = [false; true].
Proof.
  intros Hc Hd H1 H2 Ht.
  destruct p as [c dopen pd prov]. cbn in Hc. subst c.
  unfold Tooltip.handleMouseEnter, Tooltip.handleMouseLeave, Tooltip.elapse,
    Tooltip.open, Tooltip.initial.
  set (d := Tooltip.delayDuration _) in *. clearbody d.
  replace (d >? 0) with true by (symmetry; apply Z.gtb_lt; lia).
  cbn.
  repeat (match goal with
          | |- context [?a <=? ?b] =>
              first [ replace (a <=? b) with false
                        by (symmetry; apply Z.leb_gt; lia)
                    | replace (a <=? b) with true
                        by (symmetry; apply Z.leb_le; lia) ]
          end; cbn).
  repeat split; reflexivity.
Qed.

End DelayedOpen.

(** C4 on the code: the tooltip's [handleMouseEnter] stores the handle of
    the timer it schedules over the handle it held, without clearing that
    one, so the leave can cancel only the latest timer. With a delay of
    700 ms, a pointer enter, a second pointer enter 100 ms later and a
    pointer leave 100 ms after that, all before the delay has elapsed, the
    first timer is still pending after the leave; when it fires the
    tooltip is told to open and opens. The hover card, whose [setOpen]
    clears the pending timers before it schedules, stays closed under the
    same events. *)
Theorem C4_tooltip_reenter_opens :
  let p := Examples.tooltipProps in
  let s2 := Tooltip.handleMouseEnter p
              (Tooltip.elapse p 100
                 (Tooltip.handleMouseEnter p (Tooltip.initial p))) in
  let s3 := Tooltip.handleMouseLeave p (Tooltip.elapse p 100 s2) in
  let s4 := Tooltip.elapse p 700 s3 in
  let h := Examples.hoverCardProps in
  let c4 := HoverCard.run h (HoverCard.initial h)
              [HoverCard.TriggerEnter; HoverCard.Elapse 100;
               HoverCard.TriggerEnter; HoverCard.Elapse 100;
               HoverCard.TriggerLeave; HoverCard.Elapse 700] in
  Tooltip.delayDuration p = 700
  /\ Tooltip.open p s3 = false
  /\ Tooltip.timeoutRef s3 = None
  /\ Timers.pending (Tooltip.timers s3)
     = [{| Timers.tid := 1%positive; Timers.due := 700;
           Timers.callback := Tooltip.CallSetOpen true |}]
  /\ Tooltip.open p s4 = true
  /\ Tooltip.notified s4 = [false; true]
  /\ HoverCard.openDelay h = 700
  /\ HoverCard.open h c4 = false
  /\ HoverCard.notified c4 = [false].
Proof. cbv zeta. repeat split; reflexivity. Qed.

(** ** Dismissal of the dropdown menu *)

Section Dismissal.

Import DropdownMenu.

Variable p : DropdownMenuProps.

Lemma setOpen_keepsEffects (v : bool) : keepsEffects (setOpen p v).
Proof. intros s. cbn. auto. Qed.

Lemma handleClickOutside_keepsEffects (t : Target) :
  keepsEffects (handleClickOutside p t).
Proof.
  intros s. unfold handleClickOutside.
  destruct (contentRef p s && _ && triggerRef s && _); cbn; auto.
Qed.

Lemma handleEscape_keepsEffects (k : Js.Key) : keepsEffects (handleEscape p k).
Proof. intros s. destruct k; cbn; auto. Qed.

Lemma triggerClick_keepsEffects : keepsEffects (triggerClick p).
Proof. intros s. cbn. auto. Qed.

Lemma triggerKeyDown_keepsEffects (k : Js.Key) :
  keepsEffects (triggerKeyDown p k).
Proof. intros s. destruct k; cbn; auto. Qed.

Lemma dispatch_keepsEffects (l : Listener)
    (h : DropdownMenuState -> DropdownMenuState) :
  keepsEffects h -> keepsEffects (dispatch l h).
Proof.
  intros Hh s. unfold dispatch.
  assert (forall ls acc,
             mounted acc = mounted s /\ triggerRef acc = triggerRef s
             /\ effectOpen acc = effectOpen s
             /\ docListeners acc = docListeners s ->
             let r := fold_left
                        (fun acc x => if listener_eqb x l then h acc else acc)
                        ls acc in
             mounted r = mounted s /\ triggerRef r = triggerRef s
             /\ effectOpen r = effectOpen s
             /\ docListeners r = docListeners s) as Hfold.
  { induction ls as [|x ls IH]; intros acc Hacc; [exact Hacc|].
    cbn. apply IH. destruct (listener_eqb x l); [|exact Hacc].
    destruct (Hh acc) as (H1 & H2 & H3 & H4).
    destruct Hacc as (A1 & A2 & A3 & A4).
    repeat split; congruence. }
  apply (Hfold (docListeners s) s). auto.
Qed.

(** A commit brings the listeners in line with [open]. *)
Lemma commit_settles (s : DropdownMenuState) :
  coherent s -> settled p (commit p s).
Proof.
  unfold coherent, settled, listenersMatchOpen, commit, dismissalEffect, open.
  destruct s as [uo m tr eo ls f n]. cbn. intros ->.
  destruct p as [[[|]|] d], uo, eo as [[|]|]; cbn; auto.
Qed.

Lemma settled_coherent (s : DropdownMenuState) : settled p s -> coherent s.
Proof.
  unfold settled, coherent, listenersMatchOpen. intros (_ & -> & ->).
  now destruct (open p s).
Qed.

Lemma commit_keeps_triggerRef (s : DropdownMenuState) :
  triggerRef (commit p s) = triggerRef s.
Proof.
  unfold commit, dismissalEffect. cbn.
  destruct (effectOpen s) as [o|]; [|reflexivity].
  now destruct (Bool.eqb _ o).
Qed.

(** Every event leaves the menu settled and the trigger in place. *)
Lemma step_settled (s : DropdownMenuState) (e : Event) :
  settled p s ->
  settled p (step p s e) /\ triggerRef (step p s e) = triggerRef s.
Proof.
  intros Hs. apply settled_coherent in Hs. unfold step.
  set (h := match e with
            | TriggerClick => triggerClick p
            | TriggerKeyDown k => triggerKeyDown p k
            | DocMouseDown t => dispatch OnMouseDown (handleClickOutside p t)
            | DocKeyDown k => dispatch OnKeyDown (handleEscape p k)
            end).
  assert (keepsEffects h) as Hh.
  { destruct e; subst h.
    - apply triggerClick_keepsEffects.
    - apply triggerKeyDown_keepsEffects.
    - apply dispatch_keepsEffects, handleClickOutside_keepsEffects.
    - apply dispatch_keepsEffects, handleEscape_keepsEffects. }
  replace (match e with
           | TriggerClick => triggerClick p s
           | TriggerKeyDown k => triggerKeyDown p k s
           | DocMouseDown t => dispatch OnMouseDown (handleClickOutside p t) s
           | DocKeyDown k => dispatch OnKeyDown (handleEscape p k) s
           end) with (h s) by (now destruct e).
  destruct (Hh s) as (H1 & H2 & H3 & H4). split.
  - apply commit_settles. unfold coherent in *. now rewrite H3, H4.
  - now rewrite commit_keeps_triggerRef.
Qed.

Lemma mount_settled (hasTrigger : bool) :
  settled p (mount p hasTrigger)
  /\ triggerRef (mount p hasTrigger) = hasTrigger.
Proof.
  split.
  - apply commit_settles. reflexivity.
  - unfold mount. now rewrite commit_keeps_triggerRef.
Qed.

Lemma run_settled (hasTrigger : bool) (es : list Event) :
  settled p (run p (mount p hasTrigger) es)
  /\ triggerRef (run p (mount p hasTrigger) es) = hasTrigger.
Proof.
  unfold run. induction es as [|e es IH] using rev_ind.
  - apply mount_settled.
  - rewrite fold_left_app. cbn [fold_left]. destruct IH as [IH1 IH2].
    destruct (step_settled _ e IH1) as [H1 H2]. split; [exact H1|congruence].
Qed.

End Dismissal.

Section DismissalEvents.

Import DropdownMenu.

Variable p : DropdownMenuProps.

Lemma commit_settled_id (s : DropdownMenuState) :
  settled p s -> commit p s = s.
Proof.
  unfold settled, commit, dismissalEffect, mountEffect.
  destruct s as [uo m tr eo ls f n]. cbn. intros (-> & -> & _).
  now rewrite Bool.eqb_reflx.
Qed.

Lemma unmount_removes_listeners (s : DropdownMenuState) :
  settled p s -> docListeners (unmount s) = [].
Proof.
  unfold settled, listenersMatchOpen, unmount, runCleanup. cbn.
  intros (_ & -> & ->). now destruct (open p s).
Qed.

(** While closed the menu has no listener, so [document] events change
    nothing. *)
Lemma closed_ignores_document (s : DropdownMenuState) :
  settled p s -> open p s = false ->
  forall t k, step p s (DocMouseDown t) = s /\ step p s (DocKeyDown k) = s.
Proof.
  intros Hs Ho t k. pose proof Hs as (_ & _ & Hl).
  unfold listenersMatchOpen in Hl. rewrite Ho in Hl.
  unfold step, dispatch. rewrite Hl. cbn [fold_left].
  split; now apply commit_settled_id.
Qed.

(** While open, a pointer-down inside the content or the trigger is not a
    dismissal. *)
Lemma inside_click_keeps_open (s : DropdownMenuState) (t : Target) :
  settled p s -> open p s = true -> t <> Outside ->
  step p s (DocMouseDown t) = s.
Proof.
  intros Hs Ho Ht. pose proof Hs as (_ & _ & Hl).
  unfold listenersMatchOpen in Hl. rewrite Ho in Hl.
  unfold step, dispatch. rewrite Hl. cbn [fold_left listener_eqb].
  assert (handleClickOutside p t s = s) as ->.
  { unfold handleClickOutside. destruct t; try congruence;
      now rewrite ?andb_false_r. }
  now apply commit_settled_id.
Qed.

Lemma open_state_shape (s : DropdownMenuState) :
  settled p s -> open p s = true ->
  s = {| uncontrolledOpen := uncontrolledOpen s;
         mounted := true;
         triggerRef := triggerRef s;
         effectOpen := Some true;
         docListeners := [OnMouseDown; OnKeyDown];
         focused := focused s;
         notified := notified s |}.
Proof.
  unfold settled, listenersMatchOpen. intros (Hm & He & Hl) Ho.
  rewrite Ho in *. destruct s; cbn in *. congruence.
Qed.

(** While open, a pointer-down outside both elements asks once for the
    menu to close; an uncontrolled menu closes and drops its listeners. *)
Lemma clickOutside_closes (s : DropdownMenuState) :
  settled p s -> triggerRef s = true -> open p s = true ->
  notified (clickOutside p s) = (notified s ++ [false])%list
  /\ (controlledOpen p = None ->
      open p (clickOutside p s) = false
      /\ docListeners (clickOutside p s) = []).
Proof.
  intros Hs Ht Ho. rewrite (open_state_shape s Hs Ho).
  destruct s as [uo m tr eo ls f n]. cbn in Ht. subst tr.
  unfold open in Ho. cbn in Ho.
  unfold clickOutside, step, dispatch, handleClickOutside, contentRef, open.
  destruct p as [[c|] d]; cbn in *; subst; cbn.
  - split; [reflexivity|discriminate].
  - split; [reflexivity|]. intros _. split; reflexivity.
Qed.

(** While open, Escape asks once for the menu to close and moves the
    focus to the trigger; an uncontrolled menu closes and drops its
    listeners. *)
Lemma pressEscape_closes (s : DropdownMenuState) :
  settled p s -> triggerRef s = true -> open p s = true ->
  notified (pressEscape p s) = (notified s ++ [false])%list
  /\ focused (pressEscape p s) = FocusTrigger
  /\ (controlledOpen p = None ->
      open p (pressEscape p s) = false
      /\ docListeners (pressEscape p s) = []).
Proof.
  intros Hs Ht Ho. rewrite (open_state_shape s Hs Ho).
  destruct s as [uo m tr eo ls f n]. cbn in Ht. subst tr.
  unfold open in Ho. cbn in Ho.
  unfold pressEscape, step, dispatch, handleEscape, open.
  destruct p as [[c|] d]; cbn in *; subst; cbn.
  - split; [reflexivity|]. split; [reflexivity|discriminate].
  - split; [reflexivity|]. split; [reflexivity|]. intros _. split; reflexivity.
Qed.

End DismissalEvents.

(** C5: in every state the menu reaches from its mount (with a trigger in
    the tree) through trigger and [document] events, the two dismissal
    listeners are on [document] exactly while the menu is open, and
    unmounting removes them. While the menu is open, a pointer-down
    outside both the content and the trigger requests the close exactly
    once and an uncontrolled menu becomes closed; further outside clicks
    on the closed menu change nothing; a pointer-down inside the content
    or the trigger does not dismiss; Escape requests the close, closes an
    uncontrolled menu, and moves keyboard focus to the trigger. *)
Theorem C5_dismissal :
  forall (p : DropdownMenu.DropdownMenuProps) (es : list DropdownMenu.Event),
    let s := DropdownMenu.run p (DropdownMenu.mount p true) es in
    DropdownMenu.listenersMatchOpen p s
    /\ DropdownMenu.docListeners (DropdownMenu.unmount s) = []
    /\ (DropdownMenu.open p s = false ->
        forall t k,
          DropdownMenu.step p s (DropdownMenu.DocMouseDown t) = s
          /\ DropdownMenu.step p s (DropdownMenu.DocKeyDown k) = s)
    /\ (DropdownMenu.open p s = true ->
        DropdownMenu.notified (DropdownMenu.clickOutside p s)
        = (DropdownMenu.notified s ++ [false])%list
        /\ DropdownMenu.notified (DropdownMenu.pressEscape p s)
           = (DropdownMenu.notified s ++ [false])%list
        /\ DropdownMenu.focused (DropdownMenu.pressEscape p s)
           = DropdownMenu.FocusTrigger
        /\ DropdownMenu.step p s
             (DropdownMenu.DocMouseDown DropdownMenu.InsideContent) = s
        /\ DropdownMenu.step p s
             (DropdownMenu.DocMouseDown DropdownMenu.InsideTrigger) = s
        /\ (DropdownMenu.controlledOpen p = None ->
            DropdownMenu.open p (DropdownMenu.clickOutside p s) = false
            /\ DropdownMenu.docListeners (DropdownMenu.clickOutside p s) = []
            /\ (forall n,
                   Nat.iter n (DropdownMenu.clickOutside p)
                     (DropdownMenu.clickOutside p s)
                   = DropdownMenu.clickOutside p s)
            /\ DropdownMenu.open p (DropdownMenu.pressEscape p s) = false
            /\ DropdownMenu.docListeners (DropdownMenu.pressEscape p s) = [])).
Proof.
  intros p es s. destruct (run_settled p true es) as [Hs Ht]. fold s in Hs, Ht.
  split; [apply Hs|]. split; [now apply (unmount_removes_listeners p)|].
  split; [now apply closed_ignores_document|].
  intros Ho.
  destruct (clickOutside_closes p s Hs Ht Ho) as [Hc1 Hc2].
  destruct (pressEscape_closes p s Hs Ht Ho) as (He1 & He2 & He3).
  split; [exact Hc1|]. split; [exact He1|]. split; [exact He2|].
  split; [apply inside_click_keeps_open; auto; discriminate|].
  split; [apply inside_click_keeps_open; auto; discriminate|].
  intros Hu. destruct (Hc2 Hu) as [Hc3 Hc4]. destruct (He3 Hu) as [He4 He5].
  split; [exact Hc3|]. split; [exact Hc4|]. split; [|split; assumption].
  assert (DropdownMenu.settled p (DropdownMenu.clickOutside p s)) as Hs1
    by exact (proj1 (step_settled p s _ Hs)).
  induction n as [|n IH]; [reflexivity|].
  rewrite Nat.iter_succ, IH.
  apply (closed_ignores_document p _ Hs1 Hc3 DropdownMenu.Outside Js.Escape).
Qed.

Lemma C5_dismissal_witness :
  let p := {| DropdownMenu.controlledOpen := None;
              DropdownMenu.defaultOpen := false |} in
  let s := DropdownMenu.run p (DropdownMenu.mount p true)
             [DropdownMenu.TriggerClick] in
  DropdownMenu.open p (DropdownMenu.clickOutside p s) = false
  /\ DropdownMenu.docListeners (DropdownMenu.clickOutside p s) = []
  /\ DropdownMenu.focused (DropdownMenu.pressEscape p s)
     = DropdownMenu.FocusTrigger.
Proof.
  cbv zeta.
  pose proof (proj2 (proj2 (proj2
    (C5_dismissal {| DropdownMenu.controlledOpen := None;
                     DropdownMenu.defaultOpen := false |}
                  [DropdownMenu.TriggerClick]))) eq_refl) as H.
  destruct H as (_ & _ & Hf & _ & _ & Hu).
  destruct (Hu eq_refl) as (Ho & Hl & _).
  exact (conj Ho (conj Hl Hf)).
Defined.

(** ** Activation of dropdown menu items *)

Section Items.

Import DropdownMenu.

Variable p : DropdownMenuProps.

(** [handleClick] itself: the caller's handler is called first, and the
    close is requested exactly when the event comes back with its default
    not prevented. *)
Lemma handleClick_closes_unless_prevented (ip : DropdownMenuItemProps)
    (e : SyntheticEvent) (w : World) :
  let e1 := match onClick ip with Some f => f e | None => e end in
  let '(e', w') := handleClick p ip e w in
  e' = e1
  /\ calls w' = (calls w ++ match onClick ip with
                            | Some _ => [CalledOnClick]
                            | None => []
                            end)%list
  /\ notified (menu w')
     = (notified (menu w)
        ++ if defaultPrevented e1 then [] else [false])%list.
Proof.
  unfold handleClick, callOptional.
  destruct (onClick ip) as [f|]; cbn.
  - destruct (defaultPrevented (f e)); cbn; now rewrite ?app_nil_r.
  - destruct (defaultPrevented e); cbn; now rewrite ?app_nil_r.
Qed.

(** Through [handleKeyDown] the event reaches [handleClick] with its
    default already prevented, so no close is requested. *)
Lemma handleKeyDown_never_closes (ip : DropdownMenuItemProps) (k : Js.Key)
    (e : SyntheticEvent) (w : World) :
  (forall f e0, onClick ip = Some f ->
                defaultPrevented e0 = true -> defaultPrevented (f e0) = true) ->
  menu (snd (handleKeyDown p ip k e w)) = menu w.
Proof.
  intros Hkeep. unfold handleKeyDown, handleClick, callOptional.
  destruct k; cbn; destruct (onClick ip) as [f|] eqn:Hf; cbn;
    try rewrite (Hkeep f (preventDefault e) eq_refl eq_refl); cbn;
    destruct (onKeyDown ip); reflexivity.
Qed.

Lemma commit_keeps_open_state (s : DropdownMenuState) :
  uncontrolledOpen (commit p s) = uncontrolledOpen s
  /\ notified (commit p s) = notified s.
Proof.
  unfold commit, dismissalEffect. cbn.
  destruct (effectOpen s) as [o|]; [|split; reflexivity].
  destruct (Bool.eqb _ o); split; reflexivity.
Qed.


End Items.

(** C10 on the code: with the menu open, pressing Enter on a plain item
    that has no handler props leaves the menu open, and so does a click on
    a plain item rendered as the component's own button when the caller
    passed an [onClick] that does not prevent the default, although that
    handler is called. The sibling paths behave as the claim says: a click
    on a plain item without [onClick], and a click on an [asChild] item
    with the same handler, both close the menu. *)
Theorem C10_item_activation_diverges :
  let p := Examples.menuProps in
  let w := Examples.openMenu in
  DropdownMenu.open p (DropdownMenu.menu w) = true
  /\ DropdownMenu.open p
       (DropdownMenu.menu
          (DropdownMenu.activateItem p Examples.plainItem
             (DropdownMenu.ByKey Js.Enter) w)) = true
  /\ DropdownMenu.open p
       (DropdownMenu.menu
          (DropdownMenu.activateItem p Examples.plainItem
             (DropdownMenu.ByKey Js.Space) w)) = true
  /\ DropdownMenu.open p
       (DropdownMenu.menu
          (DropdownMenu.activateItem p Examples.itemWithHandler
             DropdownMenu.ByClick w)) = true
  /\ DropdownMenu.calls
       (DropdownMenu.activateItem p Examples.itemWithHandler
          DropdownMenu.ByClick w) = [DropdownMenu.CalledOnClick]
  /\ DropdownMenu.open p
       (DropdownMenu.menu
          (DropdownMenu.activateItem p Examples.plainItem
             DropdownMenu.ByClick w)) = false
  /\ DropdownMenu.open p
       (DropdownMenu.menu
          (DropdownMenu.activateItem p Examples.childItemWithHandler
             DropdownMenu.ByClick w)) = false.
Proof. cbv zeta. repeat split; vm_compute; reflexivity. Qed.

(** * Further properties of the components *)

(** ** The item registry *)

Section Registry.

Context {A : Type}.

Lemma array_set_nat_same (arr : list (option A)) (i : nat) (x : A) :
  nth_error (Js.array_set_nat arr i x) i = Some (Some x).
Proof.
  revert arr; induction i as [|i IH]; intros [|y arr]; cbn; auto.
Qed.

Lemma nth_error_nil_item (j : nat) :
  match nth_error (@nil (option A)) j with
  | Some (Some x) => Some x
  | _ => None
  end = None.
Proof. destruct j; reflexivity. Qed.

Lemma array_set_nat_other (arr : list (option A)) (i j : nat) (x : A) :
  j <> i ->
  match nth_error (Js.array_set_nat arr i x) j with
  | Some (Some y) => Some y
  | _ => None
  end
  = match nth_error arr j with
    | Some (Some y) => Some y
    | _ => None
    end.
Proof.
  revert arr j; induction i as [|i IH]; intros [|y arr] [|j] Hj; cbn;
    try congruence; try reflexivity.
  - now rewrite nth_error_nil_item.
  - rewrite IH by congruence. now rewrite !nth_error_nil_item.
  - apply IH. congruence.
Qed.

Lemma array_set_nat_length (arr : list (option A)) (i : nat) (x : A) :
  List.length (Js.array_set_nat arr i x) = Nat.max (List.length arr) (S i).
Proof.
  revert arr; induction i as [|i IH]; intros [|y arr]; cbn;
    rewrite ?IH; cbn; lia.
Qed.

End Registry.

(** X1: [registerItem(element, index)] with an element and an index that
    is not negative makes that element the one read at [index], leaves
    what is read at every other index as it was, grows the array just far
    enough to hold [index], and touches neither the query nor the selected
    index; with a [null] element or a negative index the registry is
    unchanged. *)
Theorem registerItem_lookup :
  forall (el : Command.CommandItemProps) (i : Z) (st : Command.CommandState),
    0 <= i ->
    let st' := Command.registerItem (Some el) i st in
    Js.array_item (Command.items st') i = Some el
    /\ (forall j, j <> i ->
                  Js.array_item (Command.items st') j
                  = Js.array_item (Command.items st) j)
    /\ List.length (Command.items st')
       = Nat.max (List.length (Command.items st)) (S (Z.to_nat i))
    /\ Command.search st' = Command.search st
    /\ Command.selectedIndex st' = Command.selectedIndex st
    /\ Command.registerItem None i st = st
    /\ (forall k, k < 0 ->
                  Command.items (Command.registerItem (Some el) k st)
                  = Command.items st).
Proof.
  intros el i st Hi st'. subst st'. cbn.
  unfold Js.array_item, Js.array_get, Js.array_set.
  destruct (Z.ltb_spec i 0) as [|_]; [lia|].
  split; [now rewrite array_set_nat_same|]. split.
  - intros j Hj. destruct (Z.ltb_spec j 0) as [|Hj0]; [reflexivity|].
    apply array_set_nat_other. intros H. apply Hj.
    apply Z2Nat.inj in H; lia.
  - split; [apply array_set_nat_length|].
    repeat split. intros k Hk.
    destruct (Z.ltb_spec k 0); [reflexivity|lia].
Qed.

Lemma registerItem_lookup_witness :
  Js.array_item
    (Command.items
       (Command.registerItem (Some Examples.mail) 3
          (Command.initial [Some Examples.calendar]))) 3
  = Some Examples.mail.
Proof.
  apply (proj1 (registerItem_lookup Examples.mail 3
                  (Command.initial [Some Examples.calendar])
                  ltac:(lia))).
Defined.

(** ** The default filter *)

Section DefaultFilter.

(** Lower-casing neither empties a text nor fills an empty one. *)
Lemma toLowerCase_empty (s : string) :
  (String.length (Js.toLowerCase s) =? 0)%nat = (String.length s =? 0)%nat.
Proof. destruct s; reflexivity. Qed.

Lemma isAscii_app (a b : string) :
  Js.isAscii (a ++ b) = Js.isAscii a && Js.isAscii b.
Proof.
  induction a as [|c a IH]; cbn; [reflexivity|].
  now rewrite IH, andb_assoc.
Qed.

Lemma lower_ascii_idempotent (c : ascii) :
  Js.lower_ascii (Js.lower_ascii c) = Js.lower_ascii c.
Proof.
  destruct c as [[|] [|] [|] [|] [|] [|] [|] [|]]; vm_compute; reflexivity.
Qed.

Lemma toLowerCase_idempotent (s : string) :
  Js.toLowerCase (Js.toLowerCase s) = Js.toLowerCase s.
Proof.
  induction s as [|c s IH]; cbn; [reflexivity|].
  now rewrite lower_ascii_idempotent, IH.
Qed.

(** On ASCII text lower-casing works character by character, so it
    distributes over concatenation. *)
Lemma toLowerCase_app (a b : string) :
  Js.isAscii a = true -> Js.isAscii b = true ->
  Js.toLowerCase (a ++ b) = Js.toLowerCase a ++ Js.toLowerCase b.
Proof.
  intros _ _. induction a as [|c a IH]; cbn; [reflexivity|]. now rewrite IH.
Qed.

Lemma occursIn_toLowerCase (sub s : string) :
  Js.isAscii s = true ->
  Command.occursIn sub s ->
  Command.occursIn (Js.toLowerCase sub) (Js.toLowerCase s).
Proof.
  intros Hs (pre & post & ->).
  rewrite !isAscii_app in Hs.
  apply andb_true_iff in Hs as [Hpre Hs].
  apply andb_true_iff in Hs as [Hsub Hpost].
  exists (Js.toLowerCase pre), (Js.toLowerCase post).
  rewrite toLowerCase_app; [|assumption|now rewrite isAscii_app, Hsub, Hpost].
  now rewrite toLowerCase_app.
Qed.

Lemma append_assoc (a b c : string) : (a ++ b) ++ c = a ++ (b ++ c).
Proof. induction a as [|x a IH]; cbn; [reflexivity|]. now rewrite IH. Qed.

Lemma occursIn_trans (a b c : string) :
  Command.occursIn a b -> Command.occursIn b c -> Command.occursIn a c.
Proof.
  intros (p1 & q1 & ->) (p2 & q2 & ->).
  exists (p2 ++ p1), (q1 ++ q2). now rewrite !append_assoc.
Qed.

Lemma occursIn_join (sep part : string) (parts : list string) :
  In part parts -> Command.occursIn part (Js.join sep parts).
Proof.
  unfold Js.join. induction parts as [|x parts IH]; [intros []|].
  intros [->|Hin].
  - destruct parts as [|y parts]; cbn.
    + exists "", "". cbn. clear. induction part; cbn; congruence.
    + exists "", (sep ++ String.concat sep (y :: parts)). reflexivity.
  - destruct parts as [|y parts]; [destruct Hin|].
    destruct (IH Hin) as (pre & post & Heq).
    exists (x ++ sep ++ pre), post.
    change (String.concat sep (x :: y :: parts))
      with (x ++ sep ++ String.concat sep (y :: parts)).
    rewrite Heq. now rewrite !append_assoc.
Qed.

End DefaultFilter.

(** X2: the default filter is insensitive to case in both arguments: two
    texts with the same lower-casing and two queries with the same
    lower-casing get the same answer, and lower-casing the arguments
    beforehand changes nothing. *)
Theorem defaultFilter_case_insensitive :
  forall (shouldFilter : bool) (v v' q q' : string),
    Js.toLowerCase v = Js.toLowerCase v' ->
    Js.toLowerCase q = Js.toLowerCase q' ->
    Command.defaultFilter shouldFilter v q
    = Command.defaultFilter shouldFilter v' q'
    /\ Command.defaultFilter shouldFilter (Js.toLowerCase v) (Js.toLowerCase q)
       = Command.defaultFilter shouldFilter v q.
Proof.
  intros sf v v' q q' Hv Hq.
  assert ((String.length q =? 0)%nat = (String.length q' =? 0)%nat) as Hlen
    by (rewrite <- (toLowerCase_empty q), Hq; apply toLowerCase_empty).
  unfold Command.defaultFilter. split.
  - now rewrite Hlen, Hv, Hq.
  - now rewrite toLowerCase_empty, !toLowerCase_idempotent.
Qed.

Lemma defaultFilter_case_insensitive_witness :
  Command.defaultFilter true "Mail" "ma"
  = Command.defaultFilter true "MAIL" "MA".
Proof.
  apply (proj1 (defaultFilter_case_insensitive true "Mail" "MAIL" "ma" "MA"
                  eq_refl eq_refl)).
Defined.

(** X3: with no caller predicate, an item whose searchable text and
    keywords are made of ASCII characters is visible whenever the query as
    typed occurs in its searchable text or in one of its keywords. *)
Theorem query_in_text_or_keyword_visible :
  forall (p : Command.CommandProps) (q : string)
         (it : Command.CommandItemProps),
    Command.filter p = None ->
    Js.isAscii (Command.allSearchableText it) = true ->
    (Command.occursIn q (Command.searchableText it)
     \/ exists k, In k (Command.keywords it) /\ Command.occursIn q k) ->
    Command.isVisible p q it = true.
Proof.
  intros p q it Hf Hascii Hocc.
  assert (Command.occursIn q (Command.allSearchableText it)) as Hall.
  { unfold Command.allSearchableText.
    destruct Hocc as [H|(k & Hk & H)].
    - eapply occursIn_trans; [exact H|]. apply occursIn_join. now left.
    - eapply occursIn_trans; [exact H|]. apply occursIn_join. now right. }
  apply isVisible_iff. right.
  unfold Command.activeFilter. rewrite Hf.
  destruct (Command.shouldFilter p); [|reflexivity].
  apply defaultFilter_spec. now apply occursIn_toLowerCase.
Qed.

Lemma query_in_text_or_keyword_visible_witness :
  Command.isVisible Examples.defaultProps "post"
    {| Command.disabled := false; Command.value := Some "Mail";
       Command.keywords := ["inbox"; "postbox"];
       Command.children := Command.ROther |} = true.
Proof.
  apply (query_in_text_or_keyword_visible Examples.defaultProps "post"
           {| Command.disabled := false; Command.value := Some "Mail";
              Command.keywords := ["inbox"; "postbox"];
              Command.children := Command.ROther |} eq_refl eq_refl).
  right. exists "postbox". split; [simpl; auto|]. exists "", "box". reflexivity.
Defined.

(** X4: with [shouldFilter] off and no caller predicate nothing is ever
    filtered out: for every query the visible items are all the registered
    ones, and the empty-state check answers true only for a non-empty
    query over a registry that holds no element. *)
Theorem shouldFilter_off_shows_all :
  forall (p : Command.CommandProps) (q : string)
         (arr : list (option Command.CommandItemProps)),
    Command.filter p = None -> Command.shouldFilter p = false ->
    Command.visibleItems p q arr = Command.presentItems arr
    /\ (Command.checkEmpty p q arr = true
        <-> (0 < String.length q)%nat /\ Command.presentItems arr = []).
Proof.
  intros p q arr Hf Hs.
  assert (forall it, Command.isVisible p q it = true) as Hvis.
  { intros it. unfold Command.isVisible, Command.activeFilter.
    rewrite Hf, Hs. now destruct (String.length q =? 0)%nat. }
  assert (Command.visibleItems p q arr = Command.presentItems arr) as Heq.
  { induction arr as [|[x|] arr IH]; cbn; [reflexivity| |exact IH].
    now rewrite Hvis, IH. }
  split; [exact Heq|].
  rewrite checkEmpty_iff, Heq. split; intros [H1 H2]; split; auto.
  - now apply length_zero_iff_nil.
  - now rewrite H2.
Qed.

Lemma shouldFilter_off_shows_all_witness :
  Command.visibleItems
    {| Command.filter := None; Command.shouldFilter := false |} "zz"
    [Some Examples.calendar; None; Some Examples.mail]
  = [Examples.calendar; Examples.mail].
Proof.
  apply (proj1 (shouldFilter_off_shows_all
                  {| Command.filter := None; Command.shouldFilter := false |}
                  "zz" [Some Examples.calendar; None; Some Examples.mail]
                  eq_refl eq_refl)).
Defined.

(** ** Enter and the arrow keys *)

(** X5: Enter passes a value to [onSelect] only for an item that is
    registered, visible under the current query and not disabled, and the
    value is that item's searchable text; when no item is visible Enter
    reaches no callback, whatever the selected index. *)
Theorem activateSelected_sound :
  forall (p : Command.CommandProps) (st : Command.CommandState),
    (forall v, Command.activateSelected p st = Some v ->
               exists it, In (Some it) (Command.items st)
                          /\ Command.isVisible p (Command.search st) it = true
                          /\ Command.disabled it = false
                          /\ v = Command.searchableText it)
    /\ (Command.visibleCount p st = 0 -> Command.activateSelected p st = None).
Proof.
  intros p st. unfold Command.activateSelected, Command.enterTarget,
    Command.handleSelect, Js.array_get. split.
  - intros v.
    destruct (Command.selectedIndex st <? 0); [discriminate|].
    destruct (nth_error _ _) as [it|] eqn:Hnth; [|discriminate].
    destruct (Command.disabled it) eqn:Hd; [discriminate|].
    intros H. injection H as <-.
    apply nth_error_In, in_visibleItems in Hnth as [Hin Hvis].
    exists it. auto.
  - unfold Command.visibleCount. intros Hn.
    destruct (Command.visibleItems p (Command.search st) (Command.items st));
      [|cbn in Hn; lia].
    destruct (Command.selectedIndex st <? 0); [reflexivity|].
    now destruct (Z.to_nat (Command.selectedIndex st)).
Qed.

Lemma activateSelected_sound_witness :
  Command.activateSelected Examples.defaultProps
    (Command.setQuery "zz" (Examples.palette Examples.calendar Examples.mail))
  = None.
Proof.
  apply (proj2 (activateSelected_sound Examples.defaultProps
                  (Command.setQuery "zz"
                     (Examples.palette Examples.calendar Examples.mail)))).
  reflexivity.
Defined.

Section ArrowKeys.

Import Command.

Variable p : CommandProps.

Lemma arrowUp_withSelected (i : Z) (st : CommandState) :
  handleKeyDown p Js.ArrowUp (withSelected i st)
  = withSelected (if i - 1 <? 0 then visibleCount p st - 1 else i - 1) st.
Proof. reflexivity. Qed.

Lemma handleKeyDown_as_withSelected (k : Js.Key) (st : CommandState) :
  handleKeyDown p k st
  = withSelected (selectedIndex (handleKeyDown p k st)) st.
Proof.
  destruct k; cbn; try reflexivity; symmetry; apply withSelected_same.
Qed.

(** [k] presses of ArrowUp from an index inside the visible list move it
    [k] places backward around the list. *)
Lemma iter_arrowUp (st : CommandState) (k : nat) :
  0 <= selectedIndex st < visibleCount p st ->
  Z.of_nat k <= visibleCount p st ->
  Nat.iter k (handleKeyDown p Js.ArrowUp) st
  = withSelected
      (if selectedIndex st - Z.of_nat k <? 0
       then selectedIndex st - Z.of_nat k + visibleCount p st
       else selectedIndex st - Z.of_nat k) st.
Proof.
  intros Hi. induction k as [|k IH]; intros Hk.
  - simpl Nat.iter.
    replace (selectedIndex st - Z.of_nat 0) with (selectedIndex st) by lia.
    destruct (Z.ltb_spec (selectedIndex st) 0); [lia|].
    symmetry. apply withSelected_same.
  - rewrite Nat.iter_succ, IH by lia. rewrite arrowUp_withSelected.
    f_equal.
    destruct (Z.ltb_spec (selectedIndex st - Z.of_nat k) 0);
    repeat match goal with
           | |- context [?a <? ?b] => destruct (Z.ltb_spec a b)
           end; lia.
Qed.

End ArrowKeys.

(** X6: while the selected index lies inside the list of the [N] visible
    items, ArrowUp undoes ArrowDown and ArrowDown undoes ArrowUp, and [N]
    presses of ArrowUp bring the palette back to the state it started
    from. *)
Theorem arrowUp_inverts_arrowDown :
  forall (p : Command.CommandProps) (st : Command.CommandState),
    let n := Command.visibleCount p st in
    0 <= Command.selectedIndex st < n ->
    Command.handleKeyDown p Js.ArrowUp (Command.handleKeyDown p Js.ArrowDown st)
    = st
    /\ Command.handleKeyDown p Js.ArrowDown
         (Command.handleKeyDown p Js.ArrowUp st) = st
    /\ Nat.iter (Z.to_nat n) (Command.handleKeyDown p Js.ArrowUp) st = st.
Proof.
  intros p st n Hi. split; [|split].
  - subst n. destruct st as [s i arr].
    unfold Command.handleKeyDown, Command.withSelected, Command.visibleCount
      in *. cbn in *.
    set (n := Z.of_nat _) in *. f_equal.
    destruct (Z.geb_spec (i + 1) n);
      match goal with
      | |- context [?a <? ?b] => destruct (Z.ltb_spec a b)
      end; lia.
  - subst n. destruct st as [s i arr].
    unfold Command.handleKeyDown, Command.withSelected, Command.visibleCount
      in *. cbn in *.
    set (n := Z.of_nat _) in *. f_equal.
    destruct (Z.ltb_spec (i - 1) 0);
      match goal with
      | |- context [?a >=? ?b] => destruct (Z.geb_spec a b)
      end; lia.
  - rewrite iter_arrowUp by (fold n; lia). fold n.
    rewrite Z2Nat.id by lia.
    destruct (Z.ltb_spec (Command.selectedIndex st - n) 0); [|lia].
    replace (Command.selectedIndex st - n + n) with (Command.selectedIndex st)
      by lia.
    apply withSelected_same.
Qed.

Lemma arrowUp_inverts_arrowDown_witness :
  Command.handleKeyDown Examples.defaultProps Js.ArrowUp
    (Command.handleKeyDown Examples.defaultProps Js.ArrowDown
       (Examples.palette Examples.calendar Examples.mail))
  = Examples.palette Examples.calendar Examples.mail.
Proof.
  apply (proj1 (arrowUp_inverts_arrowDown Examples.defaultProps
                  (Examples.palette Examples.calendar Examples.mail)
                  ltac:(vm_compute; split; [discriminate | reflexivity]))).
Defined.

Section KeyboardInvariant.

Import Command.

Variable p : CommandProps.

Lemma step_keeps_items (st : CommandState) (e : Event) :
  items (step p st e) = items st.
Proof. destruct e as [k|q]; [destruct k|]; reflexivity. Qed.

Lemma step_indexInRange (st : CommandState) (e : Event) :
  indexInRange p st -> indexInRange p (step p st e).
Proof.
  unfold indexInRange. intros [H1 H0].
  pose proof (visibleCount_nonneg p st) as Hn.
  destruct e as [k|q].
  - assert (visibleCount p (step p st (KeyDown k)) = visibleCount p st) as ->
      by (destruct k; reflexivity).
    destruct k; cbn; try (split; assumption);
      repeat match goal with
             | |- context [?a >=? ?b] => destruct (Z.geb_spec a b)
             | |- context [?a <? ?b] => destruct (Z.ltb_spec a b)
             end; lia.
  - cbn. pose proof (visibleCount_nonneg p (setQuery q st)). lia.
Qed.

Lemma run_indexInRange (arr : list (option CommandItemProps))
    (es : list Event) :
  indexInRange p (run p (initial arr) es).
Proof.
  unfold run. induction es as [|e es IH] using rev_ind.
  - cbn. unfold indexInRange. cbn.
    pose proof (visibleCount_nonneg p (initial arr)). cbn in *. lia.
  - rewrite fold_left_app. cbn [fold_left]. now apply step_indexInRange.
Qed.

End KeyboardInvariant.

(** X7: driven only by keys and by changes of the query (no pointer
    hover), the palette keeps its selected index inside the list of
    visible items whenever that list is not empty, so Enter then always
    has a visible item to act on; when the list is empty the index is -1
    or 0. *)
Theorem keyboard_selection_in_range :
  forall (p : Command.CommandProps)
         (arr : list (option Command.CommandItemProps))
         (es : list Command.Event),
    let st := Command.run p (Command.initial arr) es in
    Command.indexInRange p st
    /\ (1 <= Command.visibleCount p st ->
        exists it, Command.enterTarget p st = Some it
                   /\ Command.isVisible p (Command.search st) it = true).
Proof.
  intros p arr es st. pose proof (run_indexInRange p arr es) as Hr. fold st in Hr.
  split; [exact Hr|]. intros Hn. destruct Hr as [Hr _]. specialize (Hr Hn).
  unfold Command.enterTarget, Js.array_get, Command.visibleCount in *.
  destruct (Z.ltb_spec (Command.selectedIndex st) 0); [lia|].
  destruct (nth_error (Command.visibleItems p (Command.search st)
                         (Command.items st))
                      (Z.to_nat (Command.selectedIndex st))) as [it|] eqn:Hnth.
  - exists it. split; [reflexivity|].
    now apply nth_error_In, in_visibleItems in Hnth.
  - apply nth_error_None in Hnth. lia.
Qed.

Lemma keyboard_selection_in_range_witness :
  exists it,
    Command.enterTarget Examples.defaultProps
      (Command.run Examples.defaultProps
         (Command.initial [Some Examples.calendar; Some Examples.mail])
         [Command.KeyDown Js.End_; Command.SetQuery "ma";
          Command.KeyDown Js.ArrowUp]) = Some it
    /\ Command.isVisible Examples.defaultProps "ma" it = true.
Proof.
  apply (proj2 (keyboard_selection_in_range Examples.defaultProps
                  [Some Examples.calendar; Some Examples.mail]
                  [Command.KeyDown Js.End_; Command.SetQuery "ma";
                   Command.KeyDown Js.ArrowUp])).
  vm_compute. discriminate.
Defined.

(** ** Group visibility *)

Section GroupVisibility.

Import CommandGroup.

Lemma checkVisibility_iff (p : Command.CommandProps) (q : string)
    (group : list Command.CommandItemProps) :
  checkVisibility p q group = true
  <-> exists it, In it group /\ Command.isVisible p q it = true.
Proof.
  unfold checkVisibility. rewrite Nat.ltb_lt.
  induction group as [|x group IH]; cbn.
  - split; [lia|intros (it & [] & _)].
  - rewrite negb_involutive.
    destruct (Command.isVisible p q x) eqn:Hx; cbn.
    + split; [intros _; exists x; auto | lia].
    + rewrite IH. split.
      * intros (it & Hin & Hv). exists it. auto.
      * intros (it & [->|Hin] & Hv); [congruence|]. exists it. auto.
Qed.

Lemma group_clear_owned (s : CommandGroupState) :
  ownsTimers s ->
  Timers.pending
    (match timeout s with
     | Some id => Timers.clearTimeout id (timers s)
     | None => timers s
     end) = [].
Proof.
  unfold ownsTimers. intros Hown.
  destruct (timeout s) as [id|] eqn:Ht.
  - cbn. induction (Timers.pending (timers s)) as [|t l IH]; [reflexivity|].
    cbn. assert (Some id = Some (Timers.tid t)) as Hid by (apply Hown; now left).
    injection Hid as <-. rewrite Pos.eqb_refl. cbn.
    apply IH. intros t' Hin. apply Hown. now right.
  - destruct (Timers.pending (timers s)) as [|t l]; [reflexivity|].
    specialize (Hown t (or_introl eq_refl)). discriminate.
Qed.

End GroupVisibility.

(** X8: a group reacts to the query in two ways. When the query becomes
    empty the group is shown at once and no check stays scheduled. When it
    becomes a non-empty query the group keeps its previous visibility for
    less than 10 ms, and from 10 ms on it is shown exactly when one of the
    items below it is visible under that query. *)
Theorem group_visibility :
  forall (p : Command.CommandProps) (group : list Command.CommandItemProps)
         (q : string) (s : CommandGroup.CommandGroupState) (dt : Z),
    CommandGroup.ownsTimers s ->
    (q = "" ->
     CommandGroup.hasVisibleItems (CommandGroup.searchEffect q s) = true
     /\ Timers.pending (CommandGroup.timers (CommandGroup.searchEffect q s))
        = [])
    /\ (q <> "" -> dt < 10 ->
        CommandGroup.hasVisibleItems
          (CommandGroup.elapse p q group dt (CommandGroup.searchEffect q s))
        = CommandGroup.hasVisibleItems s)
    /\ (q <> "" -> 10 <= dt ->
        (CommandGroup.hasVisibleItems
           (CommandGroup.elapse p q group dt (CommandGroup.searchEffect q s))
         = true
         <-> exists it, In it group /\ Command.isVisible p q it = true)).
Proof.
  intros p group q s dt Hown.
  pose proof (group_clear_owned s Hown) as Hclear.
  unfold CommandGroup.searchEffect, CommandGroup.elapse.
  set (q0 := match CommandGroup.timeout s with
             | Some id => Timers.clearTimeout id (CommandGroup.timers s)
             | None => CommandGroup.timers s
             end) in *.
  split; [|split].
  - intros ->. cbn. auto.
  - intros Hq Hdt.
    destruct (String.length q =? 0)%nat eqn:Hlen;
      [apply length_zero_iff_empty in Hlen; contradiction|].
    cbn. rewrite Hclear. cbn.
    replace (Timers.now q0 + 10 <=? Timers.now q0 + Z.max dt 0) with false
      by (symmetry; apply Z.leb_gt; lia).
    reflexivity.
  - intros Hq Hdt.
    destruct (String.length q =? 0)%nat eqn:Hlen;
      [apply length_zero_iff_empty in Hlen; contradiction|].
    cbn. rewrite Hclear. cbn.
    replace (Timers.now q0 + 10 <=? Timers.now q0 + Z.max dt 0) with true
      by (symmetry; apply Z.leb_le; lia).
    cbn. apply checkVisibility_iff.
Qed.

Lemma group_visibility_witness :
  CommandGroup.hasVisibleItems
    (CommandGroup.elapse Examples.defaultProps "ma"
       [Examples.calendar; Examples.mail] 10
       (CommandGroup.searchEffect "ma" CommandGroup.initial)) = true.
Proof.
  apply (proj2 (proj2 (group_visibility Examples.defaultProps
                         [Examples.calendar; Examples.mail] "ma"
                         CommandGroup.initial 10
                         ltac:(intros t H; destruct H)))
           ltac:(discriminate) ltac:(lia)).
  exists Examples.mail. split; [simpl; auto | reflexivity].
Defined.

(** ** Scrollbar: the thumb on the track, dragging, track clicks *)

Section ScrollbarFacts.

Local Open Scope Q_scope.

Import ScrollBar.

Lemma clampScroll_inside (x v c : Q) :
  0 <= x -> x <= c - v -> clampScroll x v c == x.
Proof.
  intros H0 H1. unfold clampScroll.
  assert (Qmin x (c - v) == x) as Hmin by (apply Q.min_l; exact H1).
  transitivity (Qmax 0 x).
  - apply Q.max_compat; [reflexivity|exact Hmin].
  - apply Q.max_r. exact H0.
Qed.

Lemma clampScroll_range (x v c : Q) :
  0 <= clampScroll x v c
  /\ (v <= c -> clampScroll x v c <= c - v)
  /\ (c <= v -> clampScroll x v c == 0).
Proof.
  unfold clampScroll. split; [apply Q.le_max_l|]. split.
  - intros Hvc. apply Q.max_lub; [lra|apply Q.le_min_r].
  - intros Hcv. apply Q.max_l.
    eapply Qle_trans; [apply Q.le_min_r|lra].
Qed.

Lemma ratio_bounds (v c : Q) :
  0 < c -> v < c -> v / c < 1 /\ (0 <= v -> 0 <= v / c).
Proof.
  intros Hc Hv. split.
  - apply Qlt_shift_div_r; [exact Hc|lra].
  - intros H0. apply Qle_shift_div_l; [exact Hc|lra].
Qed.

Lemma thumbSize_bounds (v c : Q) :
  0 < c -> v < c -> 10 <= thumbSize v c /\ thumbSize v c < 100.
Proof.
  intros Hc Hv. unfold thumbSize.
  replace (gt c 0) with true by (symmetry; now apply gt_true_iff).
  destruct (ratio_bounds v c Hc Hv) as [Hr _].
  split; [apply Q.le_max_r|].
  apply Q.max_lub_lt; [|reflexivity].
  generalize dependent (v / c). intros r Hr. lra.
Qed.

Lemma shown_content_exceeds (o : Orientation) (v c : Q) :
  showVerticalScrollbar o c v = true \/ showHorizontalScrollbar o c v = true ->
  v < c.
Proof.
  unfold showVerticalScrollbar, showHorizontalScrollbar.
  intros [H|H]; apply andb_prop in H as [H _]; now apply gt_true_iff.
Qed.

End ScrollbarFacts.

(** X9: whenever [ScrollArea] renders a scrollbar for an axis (the content
    is larger than the viewport and the orientation allows the bar), with
    a viewport size that is not negative and a scroll offset between 0 and
    [contentSize - viewportSize], the thumb lies on the track: its size is
    at least 10 and below 100 percent, its position is not negative, and
    position plus size does not exceed 100 percent. *)
Theorem thumb_stays_on_track :
  forall (o : ScrollBar.Orientation) (s v c : Q),
    (ScrollBar.showVerticalScrollbar o c v = true
     \/ ScrollBar.showHorizontalScrollbar o c v = true) ->
    (0 <= v)%Q -> (0 <= s)%Q -> (s <= c - v)%Q ->
    (10 <= ScrollBar.thumbSize v c)%Q
    /\ (ScrollBar.thumbSize v c < 100)%Q
    /\ (0 <= ScrollBar.thumbPosition s v c)%Q
    /\ (ScrollBar.thumbPosition s v c + ScrollBar.thumbSize v c <= 100)%Q.
Proof.
  intros o s v c Hshow Hv Hs0 Hs1.
  pose proof (shown_content_exceeds o v c Hshow) as Hvc.
  assert (0 < c)%Q as Hc by lra.
  destruct (thumbSize_bounds v c Hc Hvc) as [Ht0 Ht1].
  split; [exact Ht0|]. split; [exact Ht1|].
  unfold ScrollBar.thumbPosition.
  replace (ScrollBar.gt c v) with true
    by (symmetry; now apply gt_true_iff).
  generalize dependent (ScrollBar.thumbSize v c). intros t Ht0 Ht1.
  assert (0 <= s / (c - v))%Q as Hr0
    by (apply Qle_shift_div_l; lra).
  assert (s / (c - v) <= 1)%Q as Hr1
    by (apply Qle_shift_div_r; lra).
  generalize dependent (s / (c - v))%Q. intros r Hr0 Hr1.
  split; nra.
Qed.

Lemma thumb_stays_on_track_witness :
  (ScrollBar.thumbPosition 300 100 400 + ScrollBar.thumbSize 100 400 <= 100)%Q.
Proof.
  apply (thumb_stays_on_track ScrollBar.Vertical 300 100 400
           (or_introl eq_refl)
           ltac:(vm_compute; discriminate)
           ltac:(vm_compute; discriminate)
           ltac:(vm_compute; discriminate)).
Defined.

(** X10: for a scrollbar whose length is not zero, the scroll offset
    written by a click on the track never leaves the valid range: it is
    never negative, never above [contentSize - viewportSize] when the
    content is at least as large as the viewport, and 0 when the content
    is smaller. The same holds for the offset written while dragging the
    thumb, provided the thumb does not fill the track (the divisor of
    [scrollRatio] is not zero). *)
Theorem written_scroll_in_range :
  forall (startScroll delta scrollbarSize clickPos v c current : Q),
    ~ scrollbarSize == 0 ->
    let d := ScrollBar.dragScroll startScroll delta scrollbarSize v c in
    let k := ScrollBar.trackClickScroll true clickPos scrollbarSize v c current in
    ((0 <= k)%Q /\ ((v <= c)%Q -> (k <= c - v)%Q) /\ ((c <= v)%Q -> k == 0))
    /\ (~ ScrollBar.scrollRatioDivisor scrollbarSize v c == 0 ->
        (0 <= d)%Q /\ ((v <= c)%Q -> (d <= c - v)%Q) /\ ((c <= v)%Q -> d == 0)).
Proof.
  intros s0 delta S x v c cur _ d k. subst d k.
  unfold ScrollBar.dragScroll, ScrollBar.trackClickScroll.
  split; [|intros _]; apply clampScroll_range.
Qed.

Lemma written_scroll_in_range_witness :
  (ScrollBar.dragScroll 250 1000 200 100 400 <= 400 - 100)%Q.
Proof.
  apply (proj1 (proj2 (proj2
           (written_scroll_in_range 250 1000 200 0 100 400 0
              ltac:(vm_compute; discriminate))
           ltac:(vm_compute; discriminate)))
           ltac:(vm_compute; discriminate)).
Defined.

(** X11: the thumb follows the pointer. For content larger than the
    viewport, a drag that is not cut off by the clamp moves the thumb, in
    percent of the track, by exactly the pointer's travel divided by the
    scrollbar's length. *)
Theorem drag_moves_thumb_with_pointer :
  forall (startScroll delta scrollbarSize v c : Q),
    (0 < c)%Q -> (v < c)%Q -> (0 < scrollbarSize)%Q ->
    let ratio := ((c - v)
                  / (scrollbarSize * (1 - ScrollBar.thumbSize v c / 100)))%Q in
    (0 <= startScroll + delta * ratio)%Q ->
    (startScroll + delta * ratio <= c - v)%Q ->
    ScrollBar.thumbPosition
      (ScrollBar.dragScroll startScroll delta scrollbarSize v c) v c
    == (ScrollBar.thumbPosition startScroll v c
        + delta / scrollbarSize * 100)%Q.
Proof.
  intros s0 delta S v c Hc Hvc HS ratio H0 H1.
  pose proof (clampScroll_inside _ v c H0 H1) as Hclamp.
  destruct (thumbSize_bounds v c Hc Hvc) as [Ht0 Ht1].
  unfold ScrollBar.thumbPosition, ScrollBar.dragScroll.
  replace (ScrollBar.gt c v) with true
    by (symmetry; now apply gt_true_iff).
  fold ratio. rewrite Hclamp. subst ratio.
  generalize dependent (ScrollBar.thumbSize v c). intros t _ _ _ Ht0 Ht1.
  field. repeat split; lra.
Qed.

Lemma drag_moves_thumb_with_pointer_witness :
  ScrollBar.thumbPosition (ScrollBar.dragScroll 0 75 200 100 400) 100 400
  == (ScrollBar.thumbPosition 0 100 400 + 75 / 200 * 100)%Q.
Proof.
  apply (drag_moves_thumb_with_pointer 0 75 200 100 400);
    vm_compute; first [reflexivity | discriminate].
Defined.

(** X12: a click on the track centres the thumb on the clicked point.
    For content larger than the viewport whose thumb is not held at the
    10 percent floor, a click that is not cut off by the clamp leaves the
    middle of the thumb at the clicked fraction of the track; a click
    whose target is not the scrollbar element itself changes nothing. *)
Theorem track_click_centres_thumb :
  forall (clickPos scrollbarSize v c current : Q),
    (0 < c)%Q -> (v < c)%Q -> (c <= 10 * v)%Q -> (0 < scrollbarSize)%Q ->
    let target := (clickPos / scrollbarSize * c - v / 2)%Q in
    (0 <= target)%Q -> (target <= c - v)%Q ->
    let s' := ScrollBar.trackClickScroll true clickPos scrollbarSize v c current in
    (ScrollBar.thumbPosition s' v c + ScrollBar.thumbSize v c / 2
     == clickPos / scrollbarSize * 100)%Q
    /\ ScrollBar.trackClickScroll false clickPos scrollbarSize v c current
       = current.
Proof.
  intros x S v c cur Hc Hvc Hfloor HS target H0 H1 s'.
  split; [|reflexivity]. subst s'.
  pose proof (clampScroll_inside _ v c H0 H1) as Hclamp.
  assert (ScrollBar.thumbSize v c == v / c * 100)%Q as Hts.
  { unfold ScrollBar.thumbSize.
    replace (ScrollBar.gt c 0) with true by (symmetry; now apply gt_true_iff).
    apply Q.max_l.
    assert ((1 # 10) <= v / c)%Q as Hr
      by (apply Qle_shift_div_l; [exact Hc|lra]).
    generalize dependent (v / c)%Q. intros r Hr. lra. }
  unfold ScrollBar.thumbPosition, ScrollBar.trackClickScroll.
  replace (ScrollBar.gt c v) with true
    by (symmetry; now apply gt_true_iff).
  fold target. rewrite Hclamp, Hts. subst target.
  field. split; lra.
Qed.

Lemma track_click_centres_thumb_witness :
  (ScrollBar.thumbPosition
     (ScrollBar.trackClickScroll true 100 200 100 400 0) 100 400
   + ScrollBar.thumbSize 100 400 / 2
   == 100 / 200 * 100)%Q.
Proof.
  apply (proj1 (track_click_centres_thumb 100 200 100 400 0
                  ltac:(reflexivity) ltac:(reflexivity)
                  ltac:(vm_compute; discriminate) ltac:(reflexivity)
                  ltac:(vm_compute; discriminate)
                  ltac:(vm_compute; discriminate))).
Defined.

(** ** Progress bar and class names *)

(** X13: for a maximum other than 0 the progress percentage always lies
    between 0 and 100, and so does the indicator's shift. For a positive
    maximum it equals [value / max * 100] while the value lies between 0
    and the maximum, is 0 for values below 0 and 100 for values above the
    maximum, and it never decreases when the value grows. *)
Theorem percentage_clamped :
  forall (value value' max : Q),
    ~ max == 0 ->
    (0 <= Progress.percentage value max)%Q
    /\ (Progress.percentage value max <= 100)%Q
    /\ (0 <= Progress.translateX value max)%Q
    /\ (Progress.translateX value max <= 100)%Q
    /\ ((0 < max)%Q ->
        ((0 <= value)%Q -> (value <= max)%Q ->
         Progress.percentage value max == (value / max * 100)%Q)
        /\ ((value <= 0)%Q -> Progress.percentage value max == 0)
        /\ ((max <= value)%Q -> Progress.percentage value max == 100)
        /\ ((value <= value')%Q ->
            (Progress.percentage value max
             <= Progress.percentage value' max)%Q)).
Proof.
  intros value value' max _.
  assert (forall x, 0 <= Qmin (Qmax x 0) 100 /\ Qmin (Qmax x 0) 100 <= 100)%Q
    as Hrange.
  { intros x. split; [|apply Q.le_min_r].
    apply Q.min_glb; [apply Q.le_max_r|discriminate]. }
  unfold Progress.translateX, Progress.percentage.
  destruct (Hrange (value / max * 100)%Q) as [H0 H1].
  split; [exact H0|]. split; [exact H1|]. split; [lra|]. split; [lra|].
  intros Hmax.
  assert (forall a b, (a <= b)%Q -> (a / max * 100 <= b / max * 100)%Q) as Hmono.
  { intros a b Hab. apply Qmult_le_compat_r; [|discriminate].
    unfold Qdiv. apply Qmult_le_compat_r; [exact Hab|].
    apply Qlt_le_weak, Qinv_lt_0_compat, Hmax. }
  assert (0 / max * 100 == 0)%Q as Hzero by (field; lra).
  assert (max / max * 100 == 100)%Q as Hfull by (field; lra).
  split; [|split; [|split]].
  - intros Hv0 Hv1.
    pose proof (Hmono 0%Q value Hv0) as Ha. pose proof (Hmono value max Hv1) as Hb.
    rewrite Hzero in Ha. rewrite Hfull in Hb.
    generalize dependent (value / max * 100)%Q. intros x _ _ Ha Hb.
    transitivity (Qmax x 0%Q); [apply Q.min_l|apply Q.max_l; exact Ha].
    eapply Qle_trans; [|exact Hb]. apply Q.max_lub; lra.
  - intros Hv. pose proof (Hmono value 0%Q Hv) as Ha. rewrite Hzero in Ha.
    generalize dependent (value / max * 100)%Q. intros x _ _ Ha.
    transitivity (Qmax x 0%Q); [apply Q.min_l|apply Q.max_r; exact Ha].
    apply Q.max_lub; lra.
  - intros Hv. pose proof (Hmono max value Hv) as Ha. rewrite Hfull in Ha.
    generalize dependent (value / max * 100)%Q. intros x _ _ Ha.
    apply Q.min_r. eapply Qle_trans; [exact Ha|apply Q.le_max_l].
  - intros Hv. pose proof (Hmono value value' Hv) as Ha.
    apply Q.min_le_compat_r, Q.max_le_compat_r. exact Ha.
Qed.

Lemma percentage_clamped_witness :
  Progress.percentage 30 120 == (30 / 120 * 100)%Q.
Proof.
  apply (proj1 (proj2 (proj2 (proj2 (proj2
           (percentage_clamped 30 30 120 ltac:(discriminate)))))
           ltac:(reflexivity)));
    vm_compute; discriminate.
Defined.

Section ClassNames.

Import Progress.

Lemma keepTruthy_app (a b : list ClassValue) :
  keepTruthy (a ++ b) = (keepTruthy a ++ keepTruthy b)%list.
Proof.
  induction a as [|[s|] a IH]; cbn; [reflexivity| |exact IH].
  destruct (Js.truthy_string s); cbn; now rewrite IH.
Qed.

Lemma keepTruthy_In (s : string) (l : list ClassValue) :
  In s (keepTruthy l) <-> In (Some s) l /\ Js.truthy_string s = true.
Proof.
  induction l as [|[x|] l IH]; cbn.
  - tauto.
  - destruct (Js.truthy_string x) eqn:Hx; cbn; rewrite IH; split.
    + intros [->|[H1 H2]]; auto.
    + intros [[H|H] Ht]; [injection H as ->; now left | now right].
    + intros [H1 H2]; auto.
    + intros [[H|H] Ht]; [injection H as ->; congruence | now split].
  - rewrite IH. split.
    + intros [H1 H2]; auto.
    + intros [[H|H] Ht]; [discriminate | now split].
Qed.

Lemma join_empty_iff (parts : list string) :
  (forall s, In s parts -> Js.truthy_string s = true) ->
  Js.join " " parts = "" -> parts = [].
Proof.
  destruct parts as [|x parts]; [reflexivity|]. intros Hall Hj.
  assert (Js.truthy_string x = true) as Hx by (apply Hall; now left).
  destruct x as [|c x]; [discriminate|].
  unfold Js.join in Hj. destruct parts; cbn in Hj; discriminate.
Qed.

End ClassNames.

(** X14: [cn] ignores its falsy arguments ([undefined], [null], [false]
    and the empty string): removing one anywhere leaves the result
    unchanged. The result is the empty string exactly when every argument
    is falsy, and every truthy argument occurs in the result. *)
Theorem cn_ignores_falsy :
  forall (before after : list Progress.ClassValue) (c : Progress.ClassValue),
    Progress.truthy c = false ->
    Progress.cn (before ++ c :: after) = Progress.cn (before ++ after)
    /\ (Progress.cn (before ++ after) = ""
        <-> forall x, In x (before ++ after) -> Progress.truthy x = false)
    /\ (forall s, In (Some s) (before ++ after) ->
                  Js.truthy_string s = true ->
                  Command.occursIn s (Progress.cn (before ++ after))).
Proof.
  intros before after c Hc. unfold Progress.cn. split; [|split].
  - rewrite !keepTruthy_app. f_equal. f_equal. cbn.
    destruct c as [s|]; [|reflexivity]. cbn in Hc. now rewrite Hc.
  - set (l := (before ++ after)%list). split.
    + intros Hj.
      assert (Progress.keepTruthy l = []) as Hnil.
      { apply join_empty_iff; [|exact Hj].
        intros s Hs. now apply keepTruthy_In in Hs. }
      intros [s|] Hin; [|reflexivity]. cbn.
      destruct (Js.truthy_string s) eqn:Hs; [|reflexivity].
      assert (In s (Progress.keepTruthy l)) as Habs
        by (apply keepTruthy_In; auto).
      rewrite Hnil in Habs. destruct Habs.
    + intros Hall.
      assert (Progress.keepTruthy l = []) as ->; [|reflexivity].
      destruct (Progress.keepTruthy l) as [|s r] eqn:Hk; [reflexivity|].
      assert (In s (Progress.keepTruthy l)) as Hin by (rewrite Hk; now left).
      apply keepTruthy_In in Hin as [Hin Ht].
      specialize (Hall (Some s) Hin). cbn in Hall. congruence.
  - intros s Hin Ht. apply occursIn_join. apply keepTruthy_In. auto.
Qed.

Lemma cn_ignores_falsy_witness :
  Progress.cn ([Some "bg-primary"] ++ None :: [Some "h-full"])
  = Progress.cn ([Some "bg-primary"] ++ [Some "h-full"]).
Proof.
  apply (proj1 (cn_ignores_falsy [Some "bg-primary"] [Some "h-full"] None
                  eq_refl)).
Defined.

(** ** Collapsible *)

Section CollapsibleFacts.

Import Collapsible.

Lemma idle_shape (s : ContentState) :
  idle s ->
  s = {| height := height s; isAnimating := false; timer := timer s;
         timers := {| Timers.now := Timers.now (timers s);
                      Timers.nextId := Timers.nextId (timers s);
                      Timers.pending := [] |};
         frames := [] |}.
Proof.
  unfold idle. destruct s as [h a t [now nid pend] f]. cbn.
  intros (-> & -> & ->). reflexivity.
Qed.

Lemma clear_nothing (A : Type) (t : option positive) (now : Z) (nid : positive) :
  match t with
  | Some id =>
      Timers.clearTimeout id
        {| Timers.now := now; Timers.nextId := nid;
           Timers.pending := @nil (Timers.timer A) |}
  | None => {| Timers.now := now; Timers.nextId := nid; Timers.pending := [] |}
  end
  = {| Timers.now := now; Timers.nextId := nid; Timers.pending := [] |}.
Proof. now destruct t. Qed.

(** Opening from rest: the measured height is shown while the animation
    runs, and 200 ms later the height is [auto] and the content is at rest
    again. *)
Lemma open_lifecycle (forceMount : bool) (h : Q) (s : ContentState) (dt : Z) :
  idle s -> 200 <= dt ->
  let o1 := layoutEffect true forceMount h s in
  let o2 := elapse dt o1 in
  render true forceMount o1 = Some (HeightPx h)
  /\ render true forceMount o2 = Some HeightAuto
  /\ idle o2.
Proof.
  intros Hidle Hdt. rewrite (idle_shape s Hidle).
  unfold layoutEffect, elapse, render, mounted, idle. cbn.
  rewrite clear_nothing. cbn.
  replace (Timers.now (timers s) + 200 <=? Timers.now (timers s) + Z.max dt 0)
    with true by (symmetry; apply Z.leb_le; lia).
  cbn. auto.
Qed.

(** Closing from rest without [forceMount]: the component returns [null]
    at once; no animation starts and nothing is scheduled. *)
Lemma close_unmounts (h : Q) (s : ContentState) :
  idle s ->
  let c1 := layoutEffect false false h s in
  render false false c1 = None /\ idle c1 /\ height c1 = height s.
Proof.
  intros Hidle. rewrite (idle_shape s Hidle).
  unfold layoutEffect, render, mounted, idle. cbn.
  rewrite clear_nothing. cbn. auto.
Qed.

(** Closing from rest with [forceMount]: the measured height is shown
    first, the second animation frame sets the height to 0, and 200 ms
    after the close the content is at rest with height 0. *)
Lemma close_lifecycle (h : Q) (s : ContentState) (dt : Z) :
  idle s -> 200 <= dt ->
  let c1 := layoutEffect false true h s in
  let c2 := animationFrame c1 in
  let c3 := animationFrame c2 in
  let c4 := elapse dt c3 in
  render false true c1 = Some (HeightPx h)
  /\ render false true c2 = Some (HeightPx h)
  /\ render false true c3 = Some (HeightPx 0)
  /\ render false true c4 = Some (HeightPx 0)
  /\ idle c4.
Proof.
  intros Hidle Hdt. rewrite (idle_shape s Hidle).
  unfold layoutEffect, animationFrame, elapse, render, mounted, idle. cbn.
  rewrite clear_nothing. cbn.
  replace (Timers.now (timers s) + 200 <=? Timers.now (timers s) + Z.max dt 0)
    with true by (symmetry; apply Z.leb_le; lia).
  cbn. repeat split; reflexivity.
Qed.

End CollapsibleFacts.

(** X15: the content of a collapsible over one open and close, starting
    at rest. On opening, the measured height is rendered during the
    animation and 200 ms later the height is [auto]. On the following
    close, without [forceMount] the content is unmounted at once and no
    animation or timer is started; with [forceMount] the measured height
    is rendered first, the second animation frame brings it to 0, and
    200 ms after the close the content rests at height 0. *)
Theorem collapsible_content_round_trip :
  forall (forceMount : bool) (h h' : Q) (s : Collapsible.ContentState)
         (dt : Z),
    Collapsible.idle s -> 200 <= dt ->
    let o1 := Collapsible.layoutEffect true forceMount h s in
    let o2 := Collapsible.elapse dt o1 in
    let c1 := Collapsible.layoutEffect false forceMount h' o2 in
    let c3 := Collapsible.animationFrame (Collapsible.animationFrame c1) in
    let c4 := Collapsible.elapse dt c3 in
    Collapsible.render true forceMount o1 = Some (Collapsible.HeightPx h)
    /\ Collapsible.render true forceMount o2 = Some Collapsible.HeightAuto
    /\ (forceMount = false ->
        Collapsible.render false forceMount c1 = None
        /\ Collapsible.idle c1)
    /\ (forceMount = true ->
        Collapsible.render false forceMount c1
        = Some (Collapsible.HeightPx h')
        /\ Collapsible.render false forceMount c3
           = Some (Collapsible.HeightPx 0)
        /\ Collapsible.render false forceMount c4
           = Some (Collapsible.HeightPx 0)
        /\ Collapsible.idle c4).
Proof.
  intros fm h h' s dt Hidle Hdt.
  destruct (open_lifecycle fm h s dt Hidle Hdt) as (Ho1 & Ho2 & Hidle2).
  cbv zeta. split; [exact Ho1|]. split; [exact Ho2|]. split.
  - intros ->.
    destruct (close_unmounts h' _ Hidle2) as (Hc & Hi & _). auto.
  - intros ->.
    destruct (close_lifecycle h' _ dt Hidle2 Hdt) as (H1 & _ & H3 & H4 & H5).
    auto.
Qed.

Lemma collapsible_content_round_trip_witness :
  Collapsible.render false false
    (Collapsible.layoutEffect false false 80
       (Collapsible.elapse 200
          (Collapsible.layoutEffect true false 80 Collapsible.initialContent)))
  = None.
Proof.
  apply (proj1 (proj1 (proj2 (proj2
           (collapsible_content_round_trip false 80 80
              Collapsible.initialContent 200
              ltac:(repeat split) ltac:(lia)))) eq_refl)).
Defined.

(** X16: clicks on a collapsible's trigger. A disabled collapsible ignores
    every click. Otherwise a trigger without an [onClick] prop toggles: an
    uncontrolled collapsible flips its open state and reports the new
    value, and two clicks restore the state it had; a cloned child whose
    handler prevents the default does not toggle. *)
Theorem collapsible_trigger_toggles :
  forall (p : Collapsible.CollapsibleProps) (tp : Collapsible.TriggerProps)
         (s : Collapsible.CollapsibleState),
    (Collapsible.disabled p = true -> Collapsible.click p tp s = s)
    /\ (Collapsible.disabled p = false -> Collapsible.onClick tp = None ->
        Collapsible.notified (Collapsible.click p tp s)
        = (Collapsible.notified s ++ [negb (Collapsible.open p s)])%list
        /\ (Collapsible.controlledOpen p = None ->
            Collapsible.open p (Collapsible.click p tp s)
            = negb (Collapsible.open p s)
            /\ Collapsible.open p
                 (Collapsible.click p tp (Collapsible.click p tp s))
               = Collapsible.open p s))
    /\ (forall f, Collapsible.asChild tp = true ->
                  Collapsible.onClick tp = Some f ->
                  DropdownMenu.defaultPrevented (f DropdownMenu.freshEvent)
                  = true ->
                  Collapsible.click p tp s = s).
Proof.
  intros p tp s.
  unfold Collapsible.click, Collapsible.elementOnClick, Collapsible.handleClick,
    Collapsible.setOpen, Collapsible.open, Collapsible.isControlled.
  split; [|split].
  - intros ->. destruct (Collapsible.asChild tp), (Collapsible.onClick tp) as [f|];
      cbn; try reflexivity;
      destruct (DropdownMenu.defaultPrevented (f DropdownMenu.freshEvent));
      reflexivity.
  - intros -> ->. destruct (Collapsible.asChild tp); cbn;
      (split; [reflexivity|]); intros ->; cbn;
      now rewrite negb_involutive.
  - intros f -> -> Hf. cbn. now rewrite Hf.
Qed.

Lemma collapsible_trigger_toggles_witness :
  let p := {| Collapsible.controlledOpen := None;
              Collapsible.defaultOpen := false;
              Collapsible.disabled := false |} in
  let tp := {| Collapsible.asChild := false; Collapsible.onClick := None |} in
  Collapsible.open p (Collapsible.click p tp (Collapsible.initial p))
  = negb (Collapsible.open p (Collapsible.initial p)).
Proof.
  cbv zeta.
  exact (proj1 (proj2 (proj1 (proj2
           (collapsible_trigger_toggles
              {| Collapsible.controlledOpen := None;
                 Collapsible.defaultOpen := false;
                 Collapsible.disabled := false |}
              {| Collapsible.asChild := false; Collapsible.onClick := None |}
              (Collapsible.initial
                 {| Collapsible.controlledOpen := None;
                    Collapsible.defaultOpen := false;
                    Collapsible.disabled := false |})))
           eq_refl eq_refl) eq_refl)).
Defined.

(** ** Tooltip and hover card: opening, closing, cancelling *)

(** X17: a tooltip with nothing pending opens on hover. With a positive
    delay, [onOpenChange(true)] is issued once the delay has elapsed after
    the pointer entered, exactly once, and the timer queue is empty again;
    with a delay of 0 or less it is issued at once and no timer is used.
    In both cases an uncontrolled tooltip is then open. *)
Theorem tooltip_opens_after_delay :
  forall (p : Tooltip.TooltipProps) (s : Tooltip.TooltipState) (dt : Z),
    Timers.pending (Tooltip.timers s) = [] ->
    (0 < Tooltip.delayDuration p -> Tooltip.delayDuration p <= dt ->
     let s' := Tooltip.elapse p dt (Tooltip.handleMouseEnter p s) in
     Tooltip.notified s' = (Tooltip.notified s ++ [true])%list
     /\ Timers.pending (Tooltip.timers s') = []
     /\ (Tooltip.controlledOpen p = None -> Tooltip.open p s' = true))
    /\ (Tooltip.delayDuration p <= 0 ->
        let s' := Tooltip.handleMouseEnter p s in
        Tooltip.notified s' = (Tooltip.notified s ++ [true])%list
        /\ Timers.pending (Tooltip.timers s') = []
        /\ (Tooltip.controlledOpen p = None -> Tooltip.open p s' = true)).
Proof.
  intros p s dt Hq.
  destruct s as [uo ref [now nid pend] notif]. cbn in Hq. subst pend.
  assert (forall b, Tooltip.controlledOpen p = None ->
                    (match Tooltip.controlledOpen p with
                     | Some c => c
                     | None => if Tooltip.isControlled p then b else true
                     end) = true) as Hopen
    by (intros b Hc; unfold Tooltip.isControlled; now rewrite Hc).
  unfold Tooltip.handleMouseEnter.
  split.
  - intros Hd Hdt.
    replace (Tooltip.delayDuration p >? 0) with true
      by (symmetry; apply Z.gtb_lt; lia).
    cbn.
    replace (now + Z.max (Tooltip.delayDuration p) 0 <=? now + Z.max dt 0)
      with true by (symmetry; apply Z.leb_le; lia).
    cbn. split; [reflexivity|]. split; [reflexivity|]. apply Hopen.
  - intros Hd.
    replace (Tooltip.delayDuration p >? 0) with false
      by (symmetry; rewrite Z.gtb_ltb; apply Z.ltb_ge; lia).
    cbn. split; [reflexivity|]. split; [reflexivity|]. apply Hopen.
Qed.

Lemma tooltip_opens_after_delay_witness :
  let p := {| Tooltip.controlledOpen := None; Tooltip.defaultOpen := false;
              Tooltip.propDelayDuration := Some 300;
              Tooltip.providerDelayDuration := 0 |} in
  Tooltip.notified
    (Tooltip.elapse p 300 (Tooltip.handleMouseEnter p (Tooltip.initial p)))
  = (Tooltip.notified (Tooltip.initial p) ++ [true])%list.
Proof.
  cbv zeta.
  exact (proj1 (proj1 (tooltip_opens_after_delay
           {| Tooltip.controlledOpen := None; Tooltip.defaultOpen := false;
              Tooltip.propDelayDuration := Some 300;
              Tooltip.providerDelayDuration := 0 |}
           (Tooltip.initial
              {| Tooltip.controlledOpen := None; Tooltip.defaultOpen := false;
                 Tooltip.propDelayDuration := Some 300;
                 Tooltip.providerDelayDuration := 0 |})
           300 eq_refl) ltac:(reflexivity) ltac:(cbn; lia))).
Defined.

(** X18: whatever sequence of pointer events and waits a hover card goes
    through after mounting, at most one timer is pending at any moment,
    and unmounting cancels it: after the unmount cleanup the timer queue
    is empty and no amount of time makes the card notify or change its
    state. *)
Theorem hoverCard_single_timer :
  forall (p : HoverCard.HoverCardProps) (es : list HoverCard.Event) (dt : Z),
    let s := HoverCard.run p (HoverCard.initial p) es in
    (List.length (Timers.pending (HoverCard.timers s)) <= 1)%nat
    /\ Timers.pending (HoverCard.timers (HoverCard.unmount s)) = []
    /\ HoverCard.notified (HoverCard.elapse p dt (HoverCard.unmount s))
       = HoverCard.notified s
    /\ HoverCard.uncontrolledOpen (HoverCard.elapse p dt (HoverCard.unmount s))
       = HoverCard.uncontrolledOpen s.
Proof.
  intros p es dt s. destruct (run_invariant p es) as [Hown Hlen].
  fold s in Hown, Hlen.
  pose proof (owned_cleared s Hown) as Hclr.
  split; [exact Hlen|]. split; [exact Hclr|].
  unfold HoverCard.elapse, HoverCard.unmount.
  cbn [HoverCard.timers HoverCard.uncontrolledOpen HoverCard.notified
       HoverCard.openTimeoutRef HoverCard.closeTimeoutRef].
  rewrite (elapse_nothing_pending dt _ Hclr). cbn. auto.
Qed.

(** X19: a hover card with nothing pending opens and closes after its
    delays. Once the open delay has elapsed after the pointer entered the
    trigger, [onOpenChange(true)] has been issued exactly once and an
    uncontrolled card is open; once the close delay has elapsed after the
    pointer then left, [onOpenChange(false)] has followed exactly once and
    an uncontrolled card is closed, with no timer left. *)
Theorem hoverCard_opens_then_closes :
  forall (p : HoverCard.HoverCardProps) (s : HoverCard.HoverCardState)
         (dt dt' : Z),
    Timers.pending (HoverCard.timers s) = [] ->
    HoverCard.openDelay p <= dt -> HoverCard.closeDelay p <= dt' ->
    let s1 := HoverCard.elapse p dt (HoverCard.handleMouseEnter p s) in
    let s2 := HoverCard.elapse p dt' (HoverCard.handleMouseLeave p s1) in
    HoverCard.notified s1 = (HoverCard.notified s ++ [true])%list
    /\ HoverCard.notified s2 = (HoverCard.notified s ++ [true; false])%list
    /\ Timers.pending (HoverCard.timers s2) = []
    /\ (HoverCard.controlledOpen p = None ->
        HoverCard.open p s1 = true /\ HoverCard.open p s2 = false).
Proof.
  intros p s dt dt' Hq Hdt Hdt'.
  destruct s as [uo oref cref [now nid pend] notif]. cbn in Hq. subst pend.
  unfold HoverCard.open, HoverCard.handleMouseEnter, HoverCard.handleMouseLeave.
  destruct oref as [o|], cref as [c|]; cbn;
    replace (now + Z.max (HoverCard.openDelay p) 0 <=? now + Z.max dt 0)
      with true by (symmetry; apply Z.leb_le; lia);
    cbn;
    replace (now + Z.max dt 0 + Z.max (HoverCard.closeDelay p) 0
             <=? now + Z.max dt 0 + Z.max dt' 0)
      with true by (symmetry; apply Z.leb_le; lia);
    cbn; rewrite <- app_assoc; cbn;
    (split; [reflexivity|]); (split; [reflexivity|]); (split; [reflexivity|]);
    intros Hc; unfold HoverCard.isControlled; rewrite Hc; split; reflexivity.
Qed.

Lemma hoverCard_opens_then_closes_witness :
  let p := {| HoverCard.controlledOpen := None; HoverCard.defaultOpen := false;
              HoverCard.openDelay := 700; HoverCard.closeDelay := 300 |} in
  HoverCard.notified
    (HoverCard.elapse p 300
       (HoverCard.handleMouseLeave p
          (HoverCard.elapse p 700
             (HoverCard.handleMouseEnter p (HoverCard.initial p)))))
  = (HoverCard.notified (HoverCard.initial p) ++ [true; false])%list.
Proof.
  cbv zeta.
  exact (proj1 (proj2 (hoverCard_opens_then_closes
           {| HoverCard.controlledOpen := None; HoverCard.defaultOpen := false;
              HoverCard.openDelay := 700; HoverCard.closeDelay := 300 |}
           (HoverCard.initial
              {| HoverCard.controlledOpen := None;
                 HoverCard.defaultOpen := false;
                 HoverCard.openDelay := 700; HoverCard.closeDelay := 300 |})
           700 300 eq_refl ltac:(cbn; lia) ltac:(cbn; lia)))).
Defined.

(** X20: a close that is still pending is called off by coming back. When
    the pointer leaves a hover card that has nothing else pending and,
    before the close delay has elapsed, enters the content, the close
    timer is removed and the card never notifies or changes afterwards;
    when it re-enters the trigger instead, the only callback that can
    still fire is an opening one, so [onOpenChange(false)] is never
    issued. *)
Theorem hoverCard_reentry_cancels_close :
  forall (p : HoverCard.HoverCardProps) (s : HoverCard.HoverCardState)
         (t dt : Z),
    Timers.pending (HoverCard.timers s) = [] ->
    0 < HoverCard.closeDelay p -> t < HoverCard.closeDelay p ->
    let s2 := HoverCard.elapse p t (HoverCard.handleMouseLeave p s) in
    let viaContent := HoverCard.cancelClose s2 in
    let viaTrigger := HoverCard.handleMouseEnter p s2 in
    Timers.pending (HoverCard.timers s2) <> []
    /\ Timers.pending (HoverCard.timers viaContent) = []
    /\ HoverCard.notified (HoverCard.elapse p dt viaContent)
       = HoverCard.notified s
    /\ HoverCard.uncontrolledOpen (HoverCard.elapse p dt viaContent)
       = HoverCard.uncontrolledOpen s
    /\ (exists l, HoverCard.notified (HoverCard.elapse p dt viaTrigger)
                  = (HoverCard.notified s ++ l)%list
                  /\ ~ In false l)
    /\ (HoverCard.uncontrolledOpen s = true ->
        HoverCard.uncontrolledOpen (HoverCard.elapse p dt viaTrigger) = true).
Proof.
  intros p s t dt Hq Hd Ht.
  destruct s as [uo oref cref [now nid pend] notif]. cbn in Hq. subst pend.
  unfold HoverCard.handleMouseEnter, HoverCard.handleMouseLeave.
  destruct oref as [o|], cref as [c|]; cbn;
    rewrite (leb_early now _ t Hd Ht); cbn;
    rewrite Pos.eqb_refl; cbn;
    (split; [discriminate|]); (split; [reflexivity|]);
    (split; [reflexivity|]); (split; [reflexivity|]);
    destruct (now + Z.max t 0 + Z.max (HoverCard.openDelay p) 0
              <=? now + Z.max t 0 + Z.max dt 0); cbn;
    (split;
     [ first [ exists [true]; split; [reflexivity|]; intros [H|[]]; discriminate
             | exists []; split; [now rewrite app_nil_r|]; intros [] ]
     | intros ->; now destruct (HoverCard.isControlled p) ]).
Qed.

Lemma hoverCard_reentry_cancels_close_witness :
  let p := {| HoverCard.controlledOpen := None; HoverCard.defaultOpen := true;
              HoverCard.openDelay := 700; HoverCard.closeDelay := 300 |} in
  Timers.pending
    (HoverCard.timers
       (HoverCard.cancelClose
          (HoverCard.elapse p 299
             (HoverCard.handleMouseLeave p (HoverCard.initial p))))) = [].
Proof.
  cbv zeta.
  exact (proj1 (proj2 (hoverCard_reentry_cancels_close
           {| HoverCard.controlledOpen := None; HoverCard.defaultOpen := true;
              HoverCard.openDelay := 700; HoverCard.closeDelay := 300 |}
           (HoverCard.initial
              {| HoverCard.controlledOpen := None;
                 HoverCard.defaultOpen := true;
                 HoverCard.openDelay := 700; HoverCard.closeDelay := 300 |})
           299 0 eq_refl ltac:(reflexivity) ltac:(reflexivity)))).
Defined.

(** ** Overlay position: offset and translation *)

(** X21: the side offset acts on the primary axis only. A larger offset
    moves the content further from the trigger (up for side top, down for
    bottom, left for left, right for right) and leaves the cross-axis
    coordinate unchanged. *)
Theorem offset_moves_primary_axis_only :
  forall (c : Overlay.Component) (trigger content : Overlay.Rect)
         (side : Overlay.Side) (align : Overlay.Align) (o1 o2 : Q),
    (o1 <= o2)%Q ->
    let p1 := Overlay.resolvePosition c trigger content side align o1 in
    let p2 := Overlay.resolvePosition c trigger content side align o2 in
    match side with
    | Overlay.SideTop => (Overlay.pos_top p2 <= Overlay.pos_top p1)%Q
    | Overlay.SideBottom => (Overlay.pos_top p1 <= Overlay.pos_top p2)%Q
    | Overlay.SideLeft => (Overlay.pos_left p2 <= Overlay.pos_left p1)%Q
    | Overlay.SideRight => (Overlay.pos_left p1 <= Overlay.pos_left p2)%Q
    end
    /\ (if Overlay.isTopBottom side
        then Overlay.pos_left p1 = Overlay.pos_left p2
        else Overlay.pos_top p1 = Overlay.pos_top p2).
Proof.
  intros c trigger content side align o1 o2 Ho p1 p2. subst p1 p2.
  split.
  - destruct c, side, align;
      cbv [Overlay.resolvePosition Overlay.tooltipPosition
           Overlay.dropdownPosition Overlay.hoverCardPosition
           Overlay.resolveWith Overlay.alignLeftRight Overlay.alignTopBottom
           Overlay.sideSwitch Overlay.isTopBottom Overlay.isLeftRight
           Overlay.centeredTop Overlay.triggerTop Overlay.pos_top
           Overlay.pos_left Overlay.right Overlay.bottom];
      lra.
  - destruct c, side, align; reflexivity.
Qed.

Lemma offset_moves_primary_axis_only_witness :
  (Overlay.pos_top
     (Overlay.resolvePosition Overlay.TooltipC
        {| Overlay.top := 100; Overlay.left := 50;
           Overlay.width := 40; Overlay.height := 20 |}
        {| Overlay.top := 0; Overlay.left := 0;
           Overlay.width := 80; Overlay.height := 30 |}
        Overlay.SideTop Overlay.AlignCenter 8)
   <= Overlay.pos_top
        (Overlay.resolvePosition Overlay.TooltipC
           {| Overlay.top := 100; Overlay.left := 50;
              Overlay.width := 40; Overlay.height := 20 |}
           {| Overlay.top := 0; Overlay.left := 0;
              Overlay.width := 80; Overlay.height := 30 |}
           Overlay.SideTop Overlay.AlignCenter 4))%Q.
Proof.
  apply (proj1 (offset_moves_primary_axis_only Overlay.TooltipC
                  {| Overlay.top := 100; Overlay.left := 50;
                     Overlay.width := 40; Overlay.height := 20 |}
                  {| Overlay.top := 0; Overlay.left := 0;
                     Overlay.width := 80; Overlay.height := 30 |}
                  Overlay.SideTop Overlay.AlignCenter 4 8
                  ltac:(vm_compute; discriminate))).
Defined.

(** X22: the overlay moves with its trigger and ignores where the content
    currently sits. Shifting the trigger rectangle by [(dx, dy)] shifts the
    resolved position by the same amount, and two content rectangles with
    the same width and height give the same position. *)
Theorem position_follows_trigger :
  forall (c : Overlay.Component) (trigger content content' : Overlay.Rect)
         (side : Overlay.Side) (align : Overlay.Align) (sideOffset dx dy : Q),
    let moved := {| Overlay.top := Overlay.top trigger + dy;
                    Overlay.left := Overlay.left trigger + dx;
                    Overlay.width := Overlay.width trigger;
                    Overlay.height := Overlay.height trigger |} in
    let pos := Overlay.resolvePosition c trigger content side align sideOffset in
    let pos' := Overlay.resolvePosition c moved content side align sideOffset in
    (Overlay.pos_top pos' == Overlay.pos_top pos + dy)%Q
    /\ (Overlay.pos_left pos' == Overlay.pos_left pos + dx)%Q
    /\ (Overlay.width content' = Overlay.width content ->
        Overlay.height content' = Overlay.height content ->
        Overlay.resolvePosition c trigger content' side align sideOffset = pos).
Proof.
  intros c trigger content content' side align o dx dy moved pos pos'.
  subst moved pos pos'. split; [|split].
  - destruct c, side, align;
      cbv [Overlay.resolvePosition Overlay.tooltipPosition
           Overlay.dropdownPosition Overlay.hoverCardPosition
           Overlay.resolveWith Overlay.alignLeftRight Overlay.alignTopBottom
           Overlay.sideSwitch Overlay.isTopBottom Overlay.isLeftRight
           Overlay.centeredTop Overlay.triggerTop Overlay.pos_top
           Overlay.pos_left Overlay.right Overlay.bottom
           Overlay.top Overlay.left Overlay.width Overlay.height];
      ring.
  - destruct c, side, align;
      cbv [Overlay.resolvePosition Overlay.tooltipPosition
           Overlay.dropdownPosition Overlay.hoverCardPosition
           Overlay.resolveWith Overlay.alignLeftRight Overlay.alignTopBottom
           Overlay.sideSwitch Overlay.isTopBottom Overlay.isLeftRight
           Overlay.centeredTop Overlay.triggerTop Overlay.pos_top
           Overlay.pos_left Overlay.right Overlay.bottom
           Overlay.top Overlay.left Overlay.width Overlay.height];
      ring.
  - intros Hw Hh.
    destruct c, side, align;
      cbv [Overlay.resolvePosition Overlay.tooltipPosition
           Overlay.dropdownPosition Overlay.hoverCardPosition
           Overlay.resolveWith Overlay.alignLeftRight Overlay.alignTopBottom
           Overlay.sideSwitch Overlay.isTopBottom Overlay.isLeftRight
           Overlay.centeredTop Overlay.triggerTop];
      rewrite ?Hw, ?Hh; reflexivity.
Qed.

(** ** The dropdown trigger *)

Section TriggerElement.

Import DropdownMenu.

Variable p : DropdownMenuProps.

(** A key other than Escape passes the [document] listeners unnoticed. *)
Lemma dispatch_other_key (k : Js.Key) (s : DropdownMenuState) :
  k <> Js.Escape -> dispatch OnKeyDown (handleEscape p k) s = s.
Proof.
  intros Hk. unfold dispatch.
  assert (forall ls x,
             fold_left (fun acc l => if listener_eqb l OnKeyDown
                                     then handleEscape p k acc else acc)
                       ls x = x) as Hfold.
  { induction ls as [|l ls IH]; intros x; cbn; [reflexivity|].
    destruct (listener_eqb l OnKeyDown); [|apply IH].
    replace (handleEscape p k x) with x
      by (destruct k; first [reflexivity | congruence]).
    apply IH. }
  apply Hfold.
Qed.

Lemma other_key_bubbles_unnoticed (k : Js.Key) (s : DropdownMenuState) :
  k <> Js.Escape -> step p s (DocKeyDown k) = commit p s.
Proof. intros Hk. unfold step. now rewrite dispatch_other_key. Qed.

(** The shape of a state between events, by its open state. *)
Lemma settled_shape (s : DropdownMenuState) :
  settled p s ->
  s = {| uncontrolledOpen := uncontrolledOpen s;
         mounted := true;
         triggerRef := triggerRef s;
         effectOpen := Some (open p s);
         docListeners := if open p s then [OnMouseDown; OnKeyDown] else [];
         focused := focused s;
         notified := notified s |}.
Proof.
  unfold settled, listenersMatchOpen. intros (Hm & He & Hl).
  destruct s; cbn in *. congruence.
Qed.

End TriggerElement.

(** X23: the trigger of an uncontrolled dropdown menu, between events.
    When the handlers of the rendered trigger are the component's own (the
    trigger is a cloned child, or it has no [onClick], respectively no
    [onKeyDown], among its props): a click asks for the opposite of the
    current open state, reports it, and the menu takes it, so two clicks
    restore the state; Enter, Space and ArrowDown leave the menu open;
    Escape, which the trigger's handler ignores, reaches the [document]
    listener of an open menu and closes it, with the focus on the
    trigger; ArrowUp, Home, End and other keys leave the menu exactly as
    it was. When the trigger is the component's button and has an
    [onClick] among its props, that handler takes the place of the
    component's and a click leaves the menu exactly as it was. *)
Theorem dropdown_trigger_toggles :
  forall (p : DropdownMenu.DropdownMenuProps) (tp : DropdownMenu.TriggerProps)
         (s : DropdownMenu.DropdownMenuState),
    DropdownMenu.controlledOpen p = None ->
    DropdownMenu.settled p s ->
    DropdownMenu.triggerRef s = true ->
    let s1 := DropdownMenu.clickTrigger p tp s in
    let s2 := DropdownMenu.clickTrigger p tp s1 in
    ((DropdownMenu.trigger_asChild tp = true
      \/ DropdownMenu.trigger_onClick tp = None) ->
     DropdownMenu.open p s1 = negb (DropdownMenu.open p s)
     /\ DropdownMenu.notified s1
        = (DropdownMenu.notified s ++ [negb (DropdownMenu.open p s)])%list
     /\ DropdownMenu.open p s2 = DropdownMenu.open p s)
    /\ ((DropdownMenu.trigger_asChild tp = true
         \/ DropdownMenu.trigger_onKeyDown tp = None) ->
        (forall k, k = Js.Enter \/ k = Js.Space \/ k = Js.ArrowDown ->
                   DropdownMenu.open p (DropdownMenu.keyDownTrigger p tp k s)
                   = true)
        /\ DropdownMenu.open p (DropdownMenu.keyDownTrigger p tp Js.Escape s)
           = false
        /\ (DropdownMenu.open p s = true ->
            DropdownMenu.focused (DropdownMenu.keyDownTrigger p tp Js.Escape s)
            = DropdownMenu.FocusTrigger
            /\ DropdownMenu.notified
                 (DropdownMenu.keyDownTrigger p tp Js.Escape s)
               = (DropdownMenu.notified s ++ [false])%list)
        /\ (forall k, k = Js.ArrowUp \/ k = Js.Home \/ k = Js.End_
                      \/ k = Js.OtherKey ->
                      DropdownMenu.keyDownTrigger p tp k s = s))
    /\ (DropdownMenu.trigger_asChild tp = false ->
        DropdownMenu.trigger_onClick tp <> None -> s1 = s).
Proof.
  intros p tp s Hc Hs Ht s1 s2. subst s1 s2.
  rewrite (settled_shape p s Hs).
  destruct p as [c d]. cbn in Hc. subst c.
  destruct s as [uo m tr eo ls f n]. cbn in Ht. subst tr.
  destruct tp as [ac oc ok].
  unfold DropdownMenu.clickTrigger, DropdownMenu.keyDownTrigger,
    DropdownMenu.triggerElementOnClick, DropdownMenu.triggerElementOnKeyDown.
  cbn [DropdownMenu.trigger_asChild DropdownMenu.trigger_onClick
       DropdownMenu.trigger_onKeyDown DropdownMenu.open
       DropdownMenu.controlledOpen DropdownMenu.uncontrolledOpen
       DropdownMenu.notified].
  split; [|split].
  - intros Hp.
    assert (ac = true \/ (ac = false /\ oc = None)) as [->|[-> ->]]
      by (destruct ac; [now left|right; split; [reflexivity|]];
          destruct Hp as [Hp|Hp]; [discriminate Hp|exact Hp]).
    + destruct uo; repeat split; reflexivity.
    + destruct uo; repeat split; reflexivity.
  - intros Hp.
    assert (ac = true \/ (ac = false /\ ok = None)) as [->|[-> ->]]
      by (destruct ac; [now left|right; split; [reflexivity|]];
          destruct Hp as [Hp|Hp]; [discriminate Hp|exact Hp]).
    + split; [intros k [->|[->| ->]]; destruct uo; cbn;
                rewrite ?andb_false_r; reflexivity|].
      split; [destruct uo; reflexivity|].
      split; [intros ->; split; reflexivity|].
      intros k [->|[->|[->| ->]]]; destruct uo; reflexivity.
    + split; [intros k [->|[->| ->]]; destruct uo; reflexivity|].
      split; [destruct uo; reflexivity|].
      split; [intros ->; split; reflexivity|].
      intros k [->|[->|[->| ->]]]; destruct uo; reflexivity.
  - intros Ha Ho. cbn in Ha, Ho. subst ac.
    destruct oc as [g|]; [|congruence]. destruct uo; reflexivity.
Qed.

Lemma dropdown_trigger_toggles_witness :
  DropdownMenu.open Examples.menuProps
    (DropdownMenu.keyDownTrigger Examples.menuProps Examples.plainTrigger
       Js.Escape (DropdownMenu.menu Examples.openMenu)) = false.
Proof.
  exact (proj1 (proj2 (proj1 (proj2
           (dropdown_trigger_toggles Examples.menuProps Examples.plainTrigger
              (DropdownMenu.menu Examples.openMenu) eq_refl
              ltac:(vm_compute; repeat split; reflexivity) eq_refl))
           (or_intror eq_refl)))).
Defined.

(** ** Blur-fade reveal *)

Section Reveal.

Import BlurFade.

Lemma run_not_observing (s : BlurFadeState) (entries : list bool) :
  observing s = false -> run s entries = s.
Proof.
  intros Ho. unfold run. induction entries as [|e entries IH]; [reflexivity|].
  cbn. unfold onEntry at 2. rewrite Ho. exact IH.
Qed.

Lemma run_observing (s : BlurFadeState) (entries : list bool) :
  observing s = true ->
  isVisible (run s entries) = isVisible s || existsb (fun b => b) entries
  /\ observing (run s entries) = negb (existsb (fun b => b) entries).
Proof.
  revert s. induction entries as [|e entries IH]; intros s Ho.
  - cbn. rewrite orb_false_r. auto.
  - unfold run. cbn [fold_left existsb]. unfold onEntry at 2 4. rewrite Ho.
    destruct e.
    + fold (run {| isVisible := true; observing := false |} entries).
      rewrite run_not_observing by reflexivity. cbn.
      now rewrite orb_true_r.
    + fold (run s entries). cbn. now apply IH.
Qed.

End Reveal.

(** X24: a blur-fade element that waits for the viewport ([inView]) is
    hidden until the observer first reports it as intersecting and is
    visible from then on, and the observer stops watching at that moment;
    without [inView] it is visible from the start. Once visible it never
    becomes hidden again, whatever the observer reports. *)
Theorem blurFade_reveals_once :
  forall (inView : bool) (entries more : list bool),
    let s := BlurFade.run (BlurFade.mount inView true) entries in
    BlurFade.isVisible s = negb inView || existsb (fun b => b) entries
    /\ BlurFade.observing s = inView && negb (existsb (fun b => b) entries)
    /\ (BlurFade.isVisible s = true ->
        BlurFade.isVisible (BlurFade.run s more) = true).
Proof.
  intros inView entries more s. subst s.
  assert (forall st l, BlurFade.isVisible st = true ->
                       BlurFade.isVisible (BlurFade.run st l) = true) as Hmono.
  { intros st l Hv. destruct (BlurFade.observing st) eqn:Ho.
    - destruct (run_observing st l Ho) as [-> _]. now rewrite Hv.
    - now rewrite run_not_observing. }
  split; [|split; [|apply Hmono]].
  - destruct inView.
    + now destruct (run_observing (BlurFade.mount true true) entries eq_refl).
    + now rewrite run_not_observing.
  - destruct inView.
    + now destruct (run_observing (BlurFade.mount true true) entries eq_refl).
    + now rewrite run_not_observing.
Qed.

Lemma blurFade_reveals_once_witness :
  BlurFade.isVisible
    (BlurFade.run
       (BlurFade.run (BlurFade.mount true true) [false; true]) [false; false])
  = true.
Proof.
  apply (proj2 (proj2 (blurFade_reveals_once true [false; true]
                         [false; false]))).
  reflexivity.
Defined.

(** ** Tooltip: focus, blur and unmount against a pending open *)

(** X25: for a tooltip with a positive delay and nothing pending, after
    the pointer has entered and less than the delay has passed: a blur
    reports a close but leaves the opening timer in place, so the tooltip
    still opens when the delay runs out; unmounting the trigger removes
    the timer, and then nothing is reported however long one waits. *)
Theorem tooltip_blur_and_unmount :
  forall (p : Tooltip.TooltipProps) (s : Tooltip.TooltipState) (t dt : Z),
    Timers.pending (Tooltip.timers s) = [] ->
    0 < Tooltip.delayDuration p -> 0 <= t < Tooltip.delayDuration p ->
    Tooltip.delayDuration p <= t + dt ->
    let hovering := Tooltip.elapse p t (Tooltip.handleMouseEnter p s) in
    let blurred := Tooltip.handleBlur p hovering in
    let gone := Tooltip.unmount hovering in
    Tooltip.notified blurred = (Tooltip.notified s ++ [false])%list
    /\ Tooltip.notified (Tooltip.elapse p dt blurred)
       = (Tooltip.notified s ++ [false; true])%list
    /\ Timers.pending (Tooltip.timers gone) = []
    /\ Tooltip.notified (Tooltip.elapse p dt gone) = Tooltip.notified s.
Proof.
  intros p s t dt Hq Hd Ht Hdt.
  destruct s as [uo ref [now nid pend] notif]. cbn in Hq. subst pend.
  unfold Tooltip.handleMouseEnter, Tooltip.handleBlur, Tooltip.unmount.
  replace (Tooltip.delayDuration p >? 0) with true
    by (symmetry; apply Z.gtb_lt; lia).
  cbn. rewrite (leb_early now _ t Hd (proj2 Ht)). cbn.
  replace (now + Z.max (Tooltip.delayDuration p) 0
           <=? now + Z.max t 0 + Z.max dt 0)
    with true by (symmetry; apply Z.leb_le; lia).
  cbn. rewrite Pos.eqb_refl. cbn. rewrite <- app_assoc. cbn.
  repeat split; reflexivity.
Qed.

Lemma tooltip_blur_and_unmount_witness :
  let p := {| Tooltip.controlledOpen := None; Tooltip.defaultOpen := false;
              Tooltip.propDelayDuration := None;
              Tooltip.providerDelayDuration := 500 |} in
  Timers.pending
    (Tooltip.timers
       (Tooltip.unmount
          (Tooltip.elapse p 100
             (Tooltip.handleMouseEnter p (Tooltip.initial p))))) = [].
Proof.
  cbv zeta.
  exact (proj1 (proj2 (proj2 (tooltip_blur_and_unmount
           {| Tooltip.controlledOpen := None; Tooltip.defaultOpen := false;
              Tooltip.propDelayDuration := None;
              Tooltip.providerDelayDuration := 500 |}
           (Tooltip.initial
              {| Tooltip.controlledOpen := None; Tooltip.defaultOpen := false;
                 Tooltip.propDelayDuration := None;
                 Tooltip.providerDelayDuration := 500 |})
           100 400 eq_refl ltac:(reflexivity) ltac:(cbn; lia)
           ltac:(cbn; lia))))).
Defined.

(** ** Dropdown items: the paths that reach [handleClick] *)

(** X26: a click on a plain item whose rendered [onClick] is the
    component's [handleClick] (the item is a cloned child, or it has no
    [onClick] prop) closes an uncontrolled menu exactly when the caller's
    handler, if any, left the event's default in place; when the handler
    prevented the default the open state and the notifications are
    untouched. *)
Theorem item_click_closes_unless_prevented :
  forall (p : DropdownMenu.DropdownMenuProps)
         (ip : DropdownMenu.DropdownMenuItemProps) (w : DropdownMenu.World),
    DropdownMenu.controlledOpen p = None ->
    DropdownMenu.asChild ip = true \/ DropdownMenu.onClick ip = None ->
    let prevented :=
      match DropdownMenu.onClick ip with
      | Some f => DropdownMenu.defaultPrevented (f DropdownMenu.freshEvent)
      | None => false
      end in
    let w' := DropdownMenu.activateItem p ip DropdownMenu.ByClick w in
    DropdownMenu.open p (DropdownMenu.menu w')
    = (if prevented then DropdownMenu.open p (DropdownMenu.menu w) else false)
    /\ DropdownMenu.notified (DropdownMenu.menu w')
       = (DropdownMenu.notified (DropdownMenu.menu w)
          ++ if prevented then [] else [false])%list.
Proof.
  intros p ip w Hc Hpath prevented w'. subst prevented w'.
  assert (DropdownMenu.elementOnClick p ip DropdownMenu.freshEvent w
          = DropdownMenu.handleClick p ip DropdownMenu.freshEvent w) as Hel.
  { unfold DropdownMenu.elementOnClick.
    destruct Hpath as [->| ->]; [reflexivity|].
    now destruct (DropdownMenu.asChild ip). }
  unfold DropdownMenu.activateItem, DropdownMenu.clickItem. rewrite Hel.
  pose proof (handleClick_closes_unless_prevented p ip
                DropdownMenu.freshEvent w) as Hh.
  unfold DropdownMenu.handleClick, DropdownMenu.callOptional in *.
  unfold DropdownMenu.committed, DropdownMenu.open. rewrite Hc.
  destruct (DropdownMenu.onClick ip) as [f|]; cbn in *;
    [destruct (DropdownMenu.defaultPrevented (f DropdownMenu.freshEvent))|];
    cbn in *;
    rewrite ?(proj1 (commit_keeps_open_state p _)),
            ?(proj2 (commit_keeps_open_state p _));
    cbn; unfold DropdownMenu.isControlled; rewrite ?Hc, ?app_nil_r;
    split; reflexivity.
Qed.

Lemma item_click_closes_unless_prevented_witness :
  DropdownMenu.open Examples.menuProps
    (DropdownMenu.menu
       (DropdownMenu.activateItem Examples.menuProps
          Examples.childItemWithHandler DropdownMenu.ByClick
          Examples.openMenu)) = false.
Proof.
  exact (proj1 (item_click_closes_unless_prevented Examples.menuProps
                  Examples.childItemWithHandler Examples.openMenu
                  eq_refl (or_introl eq_refl))).
Defined.

Lemma handleKeyDown_leaves_prevented (p : DropdownMenu.DropdownMenuProps)
    (ip : DropdownMenu.DropdownMenuItemProps) (k : Js.Key)
    (e : DropdownMenu.SyntheticEvent) (w : DropdownMenu.World) :
  (forall f e0, DropdownMenu.onClick ip = Some f ->
                DropdownMenu.defaultPrevented e0 = true ->
                DropdownMenu.defaultPrevented (f e0) = true) ->
  (forall f e0, DropdownMenu.onKeyDown ip = Some f ->
                DropdownMenu.defaultPrevented e0 = true ->
                DropdownMenu.defaultPrevented (f e0) = true) ->
  DropdownMenu.clicksButton k = true ->
  DropdownMenu.defaultPrevented
    (fst (DropdownMenu.handleKeyDown p ip k e w)) = true.
Proof.
  intros Hclick Hkey Hb.
  assert (DropdownMenu.defaultPrevented
            (fst (DropdownMenu.handleClick p ip
                    (DropdownMenu.preventDefault e) w)) = true) as Hc.
  { unfold DropdownMenu.handleClick, DropdownMenu.callOptional.
    destruct (DropdownMenu.onClick ip) as [f|] eqn:Hf; cbn.
    - rewrite (Hclick f (DropdownMenu.preventDefault e) eq_refl eq_refl). cbn.
      apply (Hclick f _ eq_refl). reflexivity.
    - reflexivity. }
  unfold DropdownMenu.handleKeyDown.
  destruct k; try discriminate Hb;
    destruct (DropdownMenu.handleClick p ip (DropdownMenu.preventDefault e) w)
      as [e1 w1]; cbn in Hc; unfold DropdownMenu.callOptional;
    destruct (DropdownMenu.onKeyDown ip) as [g|] eqn:Hg; cbn;
    first [ apply (Hkey g _ eq_refl); exact Hc | exact Hc ].
Qed.

(** X27: keys pressed on a plain item whose rendered [onKeyDown] is the
    component's [handleKeyDown] (the item is a cloned child, or it has no
    [onKeyDown] prop), provided the caller's handlers cannot undo a
    prevented default. No key other than Escape closes the menu or
    reports a change of the open state: Enter and Space reach
    [handleClick] only after [preventDefault], and the other keys reach no
    handler that asks for a change. Escape, which the item's handler
    ignores, goes on to the [document] listener of the open menu: an
    uncontrolled menu closes, the change is reported once, and the focus
    moves to the trigger. *)
Theorem item_keys_never_close :
  forall (p : DropdownMenu.DropdownMenuProps)
         (ip : DropdownMenu.DropdownMenuItemProps) (k : Js.Key)
         (w : DropdownMenu.World),
    DropdownMenu.asChild ip = true \/ DropdownMenu.onKeyDown ip = None ->
    (forall f e, DropdownMenu.onClick ip = Some f ->
                 DropdownMenu.defaultPrevented e = true ->
                 DropdownMenu.defaultPrevented (f e) = true) ->
    (forall f e, DropdownMenu.onKeyDown ip = Some f ->
                 DropdownMenu.defaultPrevented e = true ->
                 DropdownMenu.defaultPrevented (f e) = true) ->
    let w' := DropdownMenu.activateItem p ip (DropdownMenu.ByKey k) w in
    (k <> Js.Escape ->
     DropdownMenu.open p (DropdownMenu.menu w')
     = DropdownMenu.open p (DropdownMenu.menu w)
     /\ DropdownMenu.notified (DropdownMenu.menu w')
        = DropdownMenu.notified (DropdownMenu.menu w))
    /\ (k = Js.Escape ->
        DropdownMenu.controlledOpen p = None ->
        DropdownMenu.settled p (DropdownMenu.menu w) ->
        DropdownMenu.triggerRef (DropdownMenu.menu w) = true ->
        DropdownMenu.open p (DropdownMenu.menu w) = true ->
        DropdownMenu.open p (DropdownMenu.menu w') = false
        /\ DropdownMenu.notified (DropdownMenu.menu w')
           = (DropdownMenu.notified (DropdownMenu.menu w) ++ [false])%list
        /\ DropdownMenu.focused (DropdownMenu.menu w')
           = DropdownMenu.FocusTrigger).
Proof.
  intros p ip k w Hpath Hclick Hkey w'. subst w'.
  assert (forall s s', DropdownMenu.uncontrolledOpen s'
                       = DropdownMenu.uncontrolledOpen s ->
                       DropdownMenu.open p s' = DropdownMenu.open p s) as Hopen
    by (intros s s' H; unfold DropdownMenu.open; now rewrite H).
  assert (DropdownMenu.elementOnKeyDown p ip k DropdownMenu.freshEvent w
          = DropdownMenu.handleKeyDown p ip k DropdownMenu.freshEvent w) as Hel.
  { unfold DropdownMenu.elementOnKeyDown.
    destruct Hpath as [->| ->]; [reflexivity|].
    now destruct (DropdownMenu.asChild ip). }
  pose proof (handleKeyDown_never_closes p ip k DropdownMenu.freshEvent w
                Hclick) as Hmenu.
  unfold DropdownMenu.activateItem, DropdownMenu.keyDownItem. rewrite Hel.
  destruct (DropdownMenu.handleKeyDown p ip k DropdownMenu.freshEvent w)
    as [e1 w1] eqn:Hk. cbn [snd] in Hmenu.
  assert (DropdownMenu.clicksButton k = true ->
          DropdownMenu.defaultPrevented e1 = true) as Hprev.
  { intros Hb.
    pose proof (handleKeyDown_leaves_prevented p ip k DropdownMenu.freshEvent
                  w Hclick Hkey Hb) as H.
    now rewrite Hk in H. }
  assert ((if DropdownMenu.clicksButton k
              && negb (DropdownMenu.defaultPrevented e1)
              && negb (DropdownMenu.asChild ip)
           then DropdownMenu.clickItem p ip
                  (DropdownMenu.bubbleKeyDown p k (DropdownMenu.committed p w1))
           else DropdownMenu.bubbleKeyDown p k (DropdownMenu.committed p w1))
          = DropdownMenu.bubbleKeyDown p k (DropdownMenu.committed p w1)) as ->.
  { destruct (DropdownMenu.clicksButton k); [|reflexivity].
    now rewrite (Hprev eq_refl). }
  unfold DropdownMenu.bubbleKeyDown, DropdownMenu.committed.
  cbn [DropdownMenu.menu]. rewrite Hmenu. split.
  - intros Hne. rewrite (other_key_bubbles_unnoticed p k _ Hne).
    split; [apply Hopen|].
    + now rewrite !(proj1 (commit_keeps_open_state p _)).
    + now rewrite !(proj2 (commit_keeps_open_state p _)).
  - intros -> Hc Hs Ht Ho. rewrite (commit_settled_id p _ Hs).
    destruct (pressEscape_closes p _ Hs Ht Ho) as (Hn & Hf & Hclose).
    destruct (Hclose Hc) as [Hcl _].
    split; [exact Hcl|]. split; [exact Hn|exact Hf].
Qed.

Lemma item_keys_never_close_witness :
  DropdownMenu.open Examples.menuProps
    (DropdownMenu.menu
       (DropdownMenu.activateItem Examples.menuProps Examples.itemWithHandler
          (DropdownMenu.ByKey Js.Enter) Examples.openMenu))
  = DropdownMenu.open Examples.menuProps (DropdownMenu.menu Examples.openMenu).
Proof.
  exact (proj1 (proj1 (item_keys_never_close Examples.menuProps
                  Examples.itemWithHandler Js.Enter Examples.openMenu
                  (or_intror eq_refl)
                  ltac:(intros f e Hf He; injection Hf as <-; exact He)
                  ltac:(intros f e Hf; discriminate Hf))
                  ltac:(discriminate))).
Defined.

(** ** Checkbox and radio items *)

